(** * Address book (task_one.py): a shallow embedding and its properties

    The development follows the layout of the program:

    - [Py]: the pieces of the Python runtime the program calls
      ([str.isdigit], [int], [list.index], [list.remove], the insertion
      ordered [dict], [datetime.date], [datetime.strptime] for the one
      format string the program uses);
    - [Phone], [Birthday], [Record_], [AddressBook]: the classes of the
      program, method by method;
    - [Text], [Commands]: the texts the program prints and reads and the
      commands of its loop;
    - the properties of the specification, one theorem per property, and
      further properties of the code.

    Exceptions are values ([Raise]); a method that mutates its object is a
    function from the state before the call to an outcome and the state
    after it, so that what a failed call leaves behind can be stated. *)

From Stdlib Require Import ZArith List String Ascii Bool Lia.
From stdpp Require Import base decidable option list numbers pretty.

Local Open Scope Z_scope.

(* ===================================================================== *)
(** * Exceptions and outcomes *)
(* ===================================================================== *)

(** The exception classes the program can raise, with their message. *)
Inductive exn : Type :=
| ValueError (msg : string)
| KeyError (msg : string)
| IndexError (msg : string).

Inductive outcome (A : Type) : Type :=
| Return (a : A)
| Raise (e : exn).
Arguments Return {A} a.
Arguments Raise {A} e.

Definition obind {A B} (m : outcome A) (k : A -> outcome B) : outcome B :=
  match m with
  | Return a => k a
  | Raise e => Raise e
  end.

(** A method on a mutable object of state [S]: the state after the call is
    returned also when the call raises. *)
Definition M (S A : Type) : Type := S -> outcome A * S.

Definition bind {S A B} (m : M S A) (k : A -> M S B) : M S B :=
  fun s => match m s with
           | (Return a, s') => k a s'
           | (Raise e, s') => (Raise e, s')
           end.
(** A computation that does not touch the state. *)
Definition lift {S A} (o : outcome A) : M S A := fun s => (o, s).

Declare Scope py_scope.
Delimit Scope py_scope with py.
Notation "x <- m ;; k" := (bind m (fun x => k))
  (at level 100, m at next level, right associativity) : py_scope.
Notation "'try!' x <- m 'in' k" := (obind m (fun x => k))
  (at level 100, x name, m at next level, right associativity) : py_scope.

(* ===================================================================== *)
(** * The Python runtime *)
(* ===================================================================== *)

Module Py.

(** A [str] is a sequence of Unicode code points. *)
Definition str : Type := list Z.

Definition str_of_string (s : string) : str :=
  map (fun a => Z.of_N (N_of_ascii a)) (list_ascii_of_string s).

Definition in_range (lo hi c : Z) : bool := (lo <=? c) && (c <=? hi).

Definition in_ranges (tbl : list (Z * Z)) (c : Z) : bool :=
  existsb (fun r => in_range (fst r) (snd r) c) tbl.

(** Code points with Numeric_Type=Decimal (general category Nd), Unicode
    14.0: each range is a run of blocks 0..9, so the value of a code point
    is its offset in the range modulo ten. *)
Definition DECIMAL_RANGES : list (Z * Z) :=
  [(48, 57); (1632, 1641); (1776, 1785); (1984, 1993); (2406, 2415);
   (2534, 2543); (2662, 2671); (2790, 2799); (2918, 2927); (3046, 3055);
   (3174, 3183); (3302, 3311); (3430, 3439); (3558, 3567); (3664, 3673);
   (3792, 3801); (3872, 3881); (4160, 4169); (4240, 4249); (6112, 6121);
   (6160, 6169); (6470, 6479); (6608, 6617); (6784, 6793); (6800, 6809);
   (6992, 7001); (7088, 7097); (7232, 7241); (7248, 7257); (42528, 42537);
   (43216, 43225); (43264, 43273); (43472, 43481); (43504, 43513);
   (43600, 43609); (44016, 44025); (65296, 65305); (66720, 66729);
   (68912, 68921); (69734, 69743); (69872, 69881); (69942, 69951);
   (70096, 70105); (70384, 70393); (70736, 70745); (70864, 70873);
   (71248, 71257); (71360, 71369); (71472, 71481); (71904, 71913);
   (72016, 72025); (72784, 72793); (73040, 73049); (73120, 73129);
   (92768, 92777); (92864, 92873); (93008, 93017); (120782, 120831);
   (123200, 123209); (123632, 123641); (125264, 125273); (130032, 130041)].

(** Code points with Numeric_Type=Digit that are not decimal: superscript,
    subscript, circled, parenthesized ... digits. *)
Definition OTHER_DIGIT_RANGES : list (Z * Z) :=
  [(178, 179); (185, 185); (4969, 4977); (6618, 6618); (8304, 8304);
   (8308, 8313); (8320, 8329); (9312, 9320); (9332, 9340); (9352, 9360);
   (9450, 9450); (9461, 9469); (9471, 9471); (10102, 10110);
   (10112, 10120); (10122, 10130); (68160, 68163); (69216, 69224);
   (69714, 69722); (127232, 127242)].

Definition Py_UNICODE_ISDECIMAL (c : Z) : bool := in_ranges DECIMAL_RANGES c.

Definition Py_UNICODE_TODECIMAL (c : Z) : option Z :=
  match find (fun r => in_range (fst r) (snd r) c) DECIMAL_RANGES with
  | Some r => Some ((c - fst r) mod 10)
  | None => None
  end.

Definition Py_UNICODE_ISDIGIT (c : Z) : bool :=
  Py_UNICODE_ISDECIMAL c || in_ranges OTHER_DIGIT_RANGES c.

(** [str.isdigit]: every character is a digit and there is at least one. *)
Definition isdigit (s : str) : bool :=
  match s with
  | [] => false
  | _ => forallb Py_UNICODE_ISDIGIT s
  end.

(** [len] *)
Definition len {A} (l : list A) : Z := Z.of_nat (length l).

(** [int(s)] for the texts the program converts: optional blanks around a
    run of decimal digits of any script. (Signs and underscores, which
    [int] also reads, cannot occur where the program calls it.) *)
Fixpoint lstrip (s : str) : str :=
  match s with
  | c :: s' => if c =? 32 then lstrip s' else s
  | [] => []
  end.

Definition strip (s : str) : str := rev (lstrip (rev (lstrip s))).

Fixpoint digits_value (acc : Z) (s : str) : option Z :=
  match s with
  | [] => Some acc
  | c :: s' =>
      match Py_UNICODE_TODECIMAL c with
      | Some v => digits_value (10 * acc + v) s'
      | None => None
      end
  end.

Definition int (s : str) : outcome Z :=
  match strip s with
  | [] => Raise (ValueError "invalid literal for int() with base 10")
  | t => match digits_value 0 t with
         | Some n => Return n
         | None => Raise (ValueError "invalid literal for int() with base 10")
         end
  end.

(** ** list

    [list.index] and [list.remove] compare the items with [==], given here
    as the argument [eq]. (The message of [list.index] starts with the repr
    of the item in Python.) *)

Fixpoint list_index {A} (eq : A -> A -> bool) (x : A) (l : list A) : outcome nat :=
  match l with
  | [] => Raise (ValueError "x is not in list")
  | y :: l' =>
      if eq y x then Return O
      else match list_index eq x l' with
           | Return i => Return (S i)
           | Raise e => Raise e
           end
  end.

Fixpoint list_remove {A} (eq : A -> A -> bool) (x : A) (l : list A)
  : outcome (list A) :=
  match l with
  | [] => Raise (ValueError "list.remove(x): x not in list")
  | y :: l' =>
      if eq y x then Return l'
      else match list_remove eq x l' with
           | Return r => Return (y :: r)
           | Raise e => Raise e
           end
  end.

(** [l[i] = x] *)
Definition list_setitem {A} (i : nat) (x : A) (l : list A) : outcome (list A) :=
  if (i <? length l)%nat then Return (<[i := x]> l)
  else Raise (IndexError "list assignment index out of range").

(** ** dict

    A dict keeps its items in insertion order: assigning to a key that is
    present replaces the value where it stands, assigning to a new key adds
    the item at the end. Keys are strings. *)

Definition dict (V : Type) : Type := list (str * V).

Definition str_eqb (a b : str) : bool := bool_decide (a = b).

Fixpoint dict_get {V} (d : dict V) (k : str) : option V :=
  match d with
  | [] => None
  | (k', v) :: d' => if str_eqb k' k then Some v else dict_get d' k
  end.

(** [k in d] *)
Definition dict_contains {V} (d : dict V) (k : str) : bool :=
  match dict_get d k with
  | Some _ => true
  | None => false
  end.

(** [d[k] = v] *)
Fixpoint dict_setitem {V} (k : str) (v : V) (d : dict V) : dict V :=
  match d with
  | [] => [(k, v)]
  | (k', v') :: d' =>
      if str_eqb k' k then (k', v) :: d' else (k', v') :: dict_setitem k v d'
  end.

(** [del d[k]]; the KeyError of Python carries the key. *)
Fixpoint dict_delitem {V} (k : str) (d : dict V) : outcome (dict V) :=
  match d with
  | [] => Raise (KeyError "key")
  | (k', v') :: d' =>
      if str_eqb k' k then Return d'
      else match dict_delitem k d' with
           | Return r => Return ((k', v') :: r)
           | Raise e => Raise e
           end
  end.

(** [d.values()] *)
Definition dict_values {V} (d : dict V) : list V := map snd d.

(** ** datetime.date *)

Record date : Type := mkdate { year : Z; month : Z; day : Z }.

Definition MINYEAR : Z := 1.
Definition MAXYEAR : Z := 9999.

Definition DAYS_IN_MONTH : list Z :=
  [-1; 31; 28; 31; 30; 31; 30; 31; 31; 30; 31; 30; 31].

(** The running sums of [DAYS_IN_MONTH], which the module computes when it
    is loaded. *)
Definition DAYS_BEFORE_MONTH : list Z :=
  [-1; 0; 31; 59; 90; 120; 151; 181; 212; 243; 273; 304; 334].

Definition is_leap (year : Z) : bool :=
  (year mod 4 =? 0) && (negb (year mod 100 =? 0) || (year mod 400 =? 0)).

Definition days_before_year (year : Z) : Z :=
  let y := year - 1 in
  y * 365 + y / 4 - y / 100 + y / 400.

Definition days_in_month (year month : Z) : Z :=
  if (month =? 2) && is_leap year then 29
  else nth (Z.to_nat month) DAYS_IN_MONTH (-1).

Definition days_before_month (year month : Z) : Z :=
  nth (Z.to_nat month) DAYS_BEFORE_MONTH (-1)
  + (if (2 <? month) && is_leap year then 1 else 0).

Definition ymd2ord (year month day : Z) : Z :=
  days_before_year year + days_before_month year month + day.

(** [date(year, month, day)]: the constructor checks its fields. *)
Definition date_new (year month day : Z) : outcome date :=
  if negb ((MINYEAR <=? year) && (year <=? MAXYEAR)) then
    Raise (ValueError ("year " +:+ pretty year +:+ " is out of range"))
  else if negb ((1 <=? month) && (month <=? 12)) then
    Raise (ValueError "month must be in 1..12")
  else if negb ((1 <=? day) && (day <=? days_in_month year month)) then
    Raise (ValueError "day is out of range for month")
  else
    Return (mkdate year month day).

(** [d.replace(year=y)] *)
Definition date_replace_year (d : date) (y : Z) : outcome date :=
  date_new y (month d) (day d).

(** [date.toordinal] *)
Definition toordinal (d : date) : Z := ymd2ord (year d) (month d) (day d).

(** [a < b]: the fields are compared as the tuple (year, month, day). *)
Definition date_lt (a b : date) : bool :=
  (year a <? year b)
  || ((year a =? year b)
      && ((month a <? month b)
          || ((month a =? month b) && (day a <? day b)))).

(** [(a - b).days] *)
Definition date_sub_days (a b : date) : Z := toordinal a - toordinal b.

(** ** datetime.strptime(data_string, "%d.%m.%Y")

    [_strptime] compiles the format to the regular expression
    [(?P<d>3[0-1]|[1-2]\d|0[1-9]|[1-9]| [1-9])\.(?P<m>1[0-2]|0[1-9]|[1-9])\.(?P<Y>\d\d\d\d)]
    and matches it at the start of the text. A piece of the expression
    maps a text to the list of its ways to match a prefix of it, each
    with the matched text and the text that remains, in the order in which
    the backtracking matcher tries them; [\d] matches every decimal digit
    of Unicode. *)

Definition re_piece : Type := str -> list (str * str).

(** one character of a class *)
Definition re_class (p : Z -> bool) : re_piece := fun s =>
  match s with
  | c :: s' => if p c then [([c], s')] else []
  | [] => []
  end.

Definition re_seq (a b : re_piece) : re_piece := fun s =>
  flat_map (fun m1 => map (fun m2 => (fst m1 ++ fst m2, snd m2)) (b (snd m1))) (a s).

Definition re_alt (a b : re_piece) : re_piece := fun s => a s ++ b s.

Definition re_chr (c : Z) : re_piece := re_class (Z.eqb c).
Definition re_digit : re_piece := re_class Py_UNICODE_ISDECIMAL.

(** [3[0-1]|[1-2]\d|0[1-9]|[1-9]| [1-9]] *)
Definition re_d : re_piece :=
  re_alt (re_seq (re_chr 51) (re_class (in_range 48 49)))
  (re_alt (re_seq (re_class (in_range 49 50)) re_digit)
  (re_alt (re_seq (re_chr 48) (re_class (in_range 49 57)))
  (re_alt (re_class (in_range 49 57))
          (re_seq (re_chr 32) (re_class (in_range 49 57)))))).

(** [1[0-2]|0[1-9]|[1-9]] *)
Definition re_m : re_piece :=
  re_alt (re_seq (re_chr 49) (re_class (in_range 48 50)))
  (re_alt (re_seq (re_chr 48) (re_class (in_range 49 57)))
          (re_class (in_range 49 57))).

(** [\d\d\d\d] *)
Definition re_Y : re_piece :=
  re_seq re_digit (re_seq re_digit (re_seq re_digit re_digit)).

(** [format_regex.match]: of the ways to match the whole expression, each
    given as the groups d, m and Y and the text after the match, the one
    the matcher finds first. *)
Definition format_regex_matches (data_string : str)
  : list (str * str * str * str) :=
  flat_map (fun d =>
  flat_map (fun dot1 =>
  flat_map (fun m =>
  flat_map (fun dot2 =>
  map (fun y => (fst d, fst m, fst y, snd y))
      (re_Y (snd dot2)))
      (re_chr 46 (snd m)))
      (re_m (snd dot1)))
      (re_chr 46 (snd d)))
      (re_d data_string).

Definition format_regex_match (data_string : str)
  : option (str * str * str * str) :=
  head (format_regex_matches data_string).

(** [datetime.strptime(data_string, "%d.%m.%Y").date()]. The messages of
    the two parse errors quote the text in Python; they are shortened
    here. *)
Definition strptime_date (data_string : str) : outcome date :=
  match format_regex_match data_string with
  | None => Raise (ValueError "time data does not match format")
  | Some (d, m, y, rest) =>
      if negb (len rest =? 0) then
        Raise (ValueError "unconverted data remains")
      else
        (try! day <- int d in
         try! month <- int m in
         try! year <- int y in
         date_new year month day)%py
  end.

End Py.

(* ===================================================================== *)
(** * class Phone *)
(* ===================================================================== *)

Module Phone.
Import Py.

(** [Phone.__validate_phone] *)
Definition validate_phone (phone : str) : outcome str :=
  if negb (len phone =? 10) then
    Raise (ValueError "The phone number must contain 10 digits")
  else if negb (isdigit phone) then
    Raise (ValueError "The phone number must contain only numbers")
  else
    Return phone.

(** A Phone object: the identity of the object and its attribute [value].
    The class defines no [__eq__], so [==] on two Phone objects is
    identity. *)
Record t : Type := mk { oid : nat; value : str }.

Definition eq (a b : t) : bool := Nat.eqb (oid a) (oid b).

(** [Phone.__init__], run on the newly allocated object [self_id]. *)
Definition init (self_id : nat) (phone : str) : outcome t :=
  (try! v <- validate_phone phone in Return (mk self_id v))%py.

End Phone.

(* ===================================================================== *)
(** * class Birthday *)
(* ===================================================================== *)

Module Birthday.
Import Py.

(** [Birthday.__validate_birthday] *)
Definition validate_birthday (birthday : str) : outcome date :=
  match strptime_date birthday with
  | Return d => Return d
  | Raise (ValueError _) => Raise (ValueError "Invalid date format. Use DD.MM.YYYY")
  | Raise e => Raise e
  end.

End Birthday.

(* ===================================================================== *)
(** * class Record *)
(* ===================================================================== *)

Module Record_.
Import Py.

(** The attributes of a Record object. [birthday] holds the date of the
    Birthday object, or [None]. *)
Record t : Type := mk {
  name : str;
  phones : list Phone.t;
  birthday : option date
}.

(** The state a method runs in: the object itself and the identity the
    next allocated object receives. *)
Record state : Type := mkState { self : t; next_id : nat }.

Definition set_phones (l : list Phone.t) : M state unit := fun st =>
  (Return tt, mkState (mk (name (self st)) l (birthday (self st))) (next_id st)).

Definition set_birthday (b : option date) : M state unit := fun st =>
  (Return tt, mkState (mk (name (self st)) (phones (self st)) b) (next_id st)).

Definition get_phones : M state (list Phone.t) := fun st =>
  (Return (phones (self st)), st).

(** [Phone(phone)]: allocate, then initialise. *)
Definition Phone_new (phone : str) : M state Phone.t := fun st =>
  match Phone.init (next_id st) phone with
  | Return p => (Return p, mkState (self st) (S (next_id st)))
  | Raise e => (Raise e, st)
  end.

(** [Record.__init__] *)
Definition init (name : str) : t := mk name [] None.

(** [Record.find_phone] *)
Fixpoint find_phone_loop (phone : str) (l : list Phone.t) : outcome Phone.t :=
  match l with
  | [] => Raise (ValueError "Phone number not found.")
  | p :: l' =>
      if str_eqb (Phone.value p) phone then Return p
      else find_phone_loop phone l'
  end.

Definition find_phone (phone : str) : M state Phone.t :=
  (l <- get_phones ;;
   lift (find_phone_loop phone l))%py.

(** [Record.add_phone] *)
Definition add_phone (phone : str) : M state unit :=
  (phone_obj <- Phone_new phone ;;
   l <- get_phones ;;
   set_phones (l ++ [phone_obj]))%py.

(** [Record.remove_phone] *)
Definition remove_phone (phone : str) : M state unit :=
  (phone_obj <- find_phone phone ;;
   l <- get_phones ;;
   l' <- lift (list_remove Phone.eq phone_obj l) ;;
   set_phones l')%py.

(** [Record.edit_phone] *)
Definition edit_phone (old_phone new_phone : str) : M state unit :=
  (old_phone_obj <- find_phone old_phone ;;
   new_phone_obj <- Phone_new new_phone ;;
   l <- get_phones ;;
   index <- lift (list_index Phone.eq old_phone_obj l) ;;
   l' <- lift (list_setitem index new_phone_obj l) ;;
   set_phones l')%py.

(** [Record.add_birthday] *)
Definition add_birthday (birthday : str) : M state unit :=
  (b <- lift (Birthday.validate_birthday birthday) ;;
   set_birthday (Some b))%py.

(** [Record.days_to_birthday]; [today] is what [datetime.now().date()]
    returns at the call. *)
Definition days_to_birthday (today : date) (r : t) : outcome (option Z) :=
  match birthday r with
  | None => Return None
  | Some b =>
      (try! next_birthday <- date_replace_year b (year today) in
       try! next_birthday <-
         (if date_lt next_birthday today
          then date_replace_year next_birthday (year today + 1)
          else Return next_birthday) in
       Return (Some (date_sub_days next_birthday today)))%py
  end.

End Record_.

(* ===================================================================== *)
(** * class AddressBook *)
(* ===================================================================== *)

Module AddressBook.
Import Py.

(** The state of an AddressBook is its attribute [data]. *)
Definition t : Type := dict Record_.t.

(** [AddressBook.add_record] *)
Definition add_record (record : Record_.t) : M t unit := fun data =>
  (Return tt, dict_setitem (Record_.name record) record data).

(** [AddressBook.find] *)
Definition find (name : str) (data : t) : option Record_.t :=
  dict_get data name.

(** [AddressBook.delete] *)
Definition delete (name : str) : M t unit := fun data =>
  if dict_contains data name then
    match dict_delitem name data with
    | Return data' => (Return tt, data')
    | Raise e => (Raise e, data)
    end
  else (Raise (ValueError "Record not found."), data).

(** [AddressBook.get_upcoming_birthdays]: the loop over [data.values()],
    with the list built so far. Every call of [days_to_birthday] reads the
    clock; [today] is the date it shows during the whole call. *)
Fixpoint upcoming_loop (today : date) (days : Z) (records : list Record_.t)
    (upcoming_birthdays : list Record_.t) : outcome (list Record_.t) :=
  match records with
  | [] => Return upcoming_birthdays
  | record :: rest =>
      match Record_.birthday record with
      | Some _ =>
          match Record_.days_to_birthday today record with
          | Raise e => Raise e
          | Return days_to_birthday =>
              match days_to_birthday with
              | Some n =>
                  if n <=? days
                  then upcoming_loop today days rest (upcoming_birthdays ++ [record])
                  else upcoming_loop today days rest upcoming_birthdays
              | None => upcoming_loop today days rest upcoming_birthdays
              end
          end
      | None => upcoming_loop today days rest upcoming_birthdays
      end
  end.

Definition get_upcoming_birthdays (today : date) (days : Z) (data : t)
  : outcome (list Record_.t) :=
  upcoming_loop today days (dict_values data) [].

End AddressBook.

(* ===================================================================== *)
(** * Notions of the specification *)
(* ===================================================================== *)

Import Py.

(** A digit is a character [str.isdigit] accepts; a validated phone value
    is a string of exactly ten of them. *)
Definition digit_char (c : Z) : Prop := Py_UNICODE_ISDIGIT c = true.

Definition ten_digits (s : str) : Prop :=
  length s = 10%nat /\ Forall digit_char s.

(** The two errors of the specification, as the program raises them. *)
Definition ValidationError (e : exn) : Prop :=
  e = ValueError "The phone number must contain 10 digits"
  \/ e = ValueError "The phone number must contain only numbers"
  \/ e = ValueError "Invalid date format. Use DD.MM.YYYY".

Definition PhoneNotFound : exn := ValueError "Phone number not found.".
Definition RecordNotFound : exn := ValueError "Record not found.".

(** The phone sequence of a record, as the strings it holds. *)
Definition values (st : Record_.state) : list str :=
  map Phone.value (Record_.phones (Record_.self st)).

(** An object has one value: two references with the same identity in a
    phone list show the same string. This holds of every list of Python
    objects; it is stated because the model names an object by a number. *)
Definition one_value_per_object (l : list Phone.t) : bool :=
  forallb (fun p =>
    forallb (fun q => implb (Phone.eq p q) (str_eqb (Phone.value p) (Phone.value q))) l) l.

(** Every stored phone is a validated value. *)
Definition phones_validated (st : Record_.state) : Prop :=
  Forall ten_digits (values st).

(** The names an address book holds, in the order of its items, and the
    invariant of the data model: at most one record per name. *)
Definition names (data : AddressBook.t) : list str := map fst data.

Definition one_record_per_name (data : AddressBook.t) : Prop :=
  NoDup (names data).

(** The records stored under a name. *)
Definition entries_for (name : str) (data : AddressBook.t) : list Record_.t :=
  map snd (List.filter (fun item => str_eqb (fst item) name) data).

(** The items of a book without those of a name. *)
Definition without (name : str) (data : AddressBook.t) : AddressBook.t :=
  List.filter (fun item => negb (str_eqb (fst item) name)) data.

(** A well-formed date: what the constructor of [date] accepts. *)
Definition date_ok (d : date) : bool :=
  (MINYEAR <=? year d) && (year d <=? MAXYEAR)
  && (1 <=? month d) && (month d <=? 12)
  && (1 <=? day d) && (day d <=? days_in_month (year d) (month d)).

(** The occurrence of the month and day of a birthday in a year. *)
Definition occurrence (y : Z) (b : date) : date := mkdate y (month b) (day b).

(** The test [get_upcoming_birthdays] applies to a record. *)
Definition upcoming (today : date) (days : Z) (r : Record_.t) : bool :=
  match Record_.birthday r with
  | Some _ =>
      match Record_.days_to_birthday today r with
      | Return (Some n) => n <=? days
      | _ => false
      end
  | None => false
  end.

(** ** The texts [Birthday] accepts *)

Definition decimal_digit (c : Z) : Prop := Py_UNICODE_ISDECIMAL c = true.

(** A day: 30 or 31; 10 to 29, the second digit in any script; 01 to 09;
    1 to 9; a blank and 1 to 9. *)
Inductive day_text : str -> Prop :=
| day_thirties c : 48 <= c <= 49 -> day_text [51; c]
| day_tens c1 c2 : 49 <= c1 <= 50 -> decimal_digit c2 -> day_text [c1; c2]
| day_zero_padded c : 49 <= c <= 57 -> day_text [48; c]
| day_one_digit c : 49 <= c <= 57 -> day_text [c]
| day_blank_padded c : 49 <= c <= 57 -> day_text [32; c].

(** A month: 10 to 12; 01 to 09; 1 to 9. *)
Inductive month_text : str -> Prop :=
| month_tens c : 48 <= c <= 50 -> month_text [49; c]
| month_zero_padded c : 49 <= c <= 57 -> month_text [48; c]
| month_one_digit c : 49 <= c <= 57 -> month_text [c].

(** A year: exactly four decimal digits, in any script. *)
Definition year_text (t : str) : Prop :=
  length t = 4%nat /\ Forall decimal_digit t.

(** The text [s] writes the date [dt] as day, dot, month, dot, year, and
    [dt] is a date of the calendar. *)
Definition birthday_text (s : str) (dt : date) : Prop :=
  exists d m y,
    s = d ++ [46] ++ m ++ [46] ++ y
    /\ day_text d /\ month_text m /\ year_text y
    /\ int d = Return (day dt) /\ int m = Return (month dt)
    /\ int y = Return (year dt)
    /\ date_ok dt = true.

(** The format as the specification words it: DD.MM.YYYY, a day of two
    digits, a month of two digits, a year of four digits, dots between
    them, the whole a date of the calendar. *)
Definition digit_value (c : Z) : Z := c - 48.

Definition DD_MM_YYYY (s : str) (dt : date) : Prop :=
  exists d1 d2 m1 m2 y1 y2 y3 y4,
    s = [d1; d2; 46; m1; m2; 46; y1; y2; y3; y4]
    /\ Forall (fun c => 48 <= c <= 57) [d1; d2; m1; m2; y1; y2; y3; y4]
    /\ day dt = 10 * digit_value d1 + digit_value d2
    /\ month dt = 10 * digit_value m1 + digit_value m2
    /\ year dt = 1000 * digit_value y1 + 100 * digit_value y2
                 + 10 * digit_value y3 + digit_value y4
    /\ date_ok dt = true.

(** The shape of a match of the whole expression: day, dot, month, dot,
    year, and the text after them. *)
Definition splits_as (s d m y rest : str) : Prop :=
  s = d ++ [46] ++ m ++ [46] ++ y ++ rest
  /\ day_text d /\ month_text m /\ year_text y.

(** The identities of the Phone objects of a record are distinct and
    older than the next allocation: what allocation guarantees. *)
Definition ids_fresh (st : Record_.state) : Prop :=
  Forall (fun p => (Phone.oid p < Record_.next_id st)%nat)
         (Record_.phones (Record_.self st))
  /\ NoDup (map Phone.oid (Record_.phones (Record_.self st))).

(** ** Sample objects *)

(** A record with the phones 1234567890, 0000000000 and 1234567890 again,
    built by three calls of [add_phone]. *)
Definition three_phones : Record_.state :=
  snd (Record_.add_phone (str_of_string "1234567890")
    (snd (Record_.add_phone (str_of_string "0000000000")
      (snd (Record_.add_phone (str_of_string "1234567890")
        (Record_.mkState (Record_.init (str_of_string "Bob")) 0)))))).

(** A book with the records of Ann and Bob. *)
Definition two_records : AddressBook.t :=
  snd (AddressBook.add_record (Record_.init (str_of_string "Bob"))
    (snd (AddressBook.add_record (Record_.init (str_of_string "Ann")) []))).

(* ===================================================================== *)
(** * The rest of the program: texts and commands *)
(* ===================================================================== *)

Module Text.
Import Py.

(** Code points with the White_Space property or a separating
    bidirectional class: what [str.isspace] and [str.split] go by. *)
Definition SPACE_RANGES : list (Z * Z) :=
  [(9, 13); (28, 32); (133, 133); (160, 160); (5760, 5760); (8192, 8202);
   (8232, 8233); (8239, 8239); (8287, 8287); (12288, 12288)].

Definition Py_UNICODE_ISSPACE (c : Z) : bool := in_ranges SPACE_RANGES c.

(** [s.split()]: the maximal runs of characters that are no white space.
    [word] is the run being read, last character first. *)
Fixpoint split_loop (word : str) (s : str) : list str :=
  match s with
  | [] => match word with [] => [] | _ => [rev word] end
  | c :: s' =>
      if Py_UNICODE_ISSPACE c then
        match word with
        | [] => split_loop [] s'
        | _ => rev word :: split_loop [] s'
        end
      else split_loop (c :: word) s'
  end.

Definition split (s : str) : list str := split_loop [] s.

(** [sep.join(items)] *)
Fixpoint join (sep : str) (items : list str) : str :=
  match items with
  | [] => []
  | [x] => x
  | x :: rest => x ++ sep ++ join sep rest
  end.

(** [d.strftime("%d.%m.%Y")]: day and month with two digits; the year as
    the C library prints it, which with glibc is without leading zeros. The
    year of a date lies between 1 and 9999. *)
Definition two_digits (n : Z) : str := [48 + n / 10; 48 + n mod 10].

Definition year_digits (y : Z) : str :=
  if y <? 10 then [48 + y]
  else if y <? 100 then [48 + y / 10; 48 + y mod 10]
  else if y <? 1000 then [48 + y / 100; 48 + y / 10 mod 10; 48 + y mod 10]
  else [48 + y / 1000; 48 + y / 100 mod 10; 48 + y / 10 mod 10; 48 + y mod 10].

Definition strftime (d : date) : str :=
  two_digits (day d) ++ [46] ++ two_digits (month d) ++ [46]
  ++ year_digits (year d).

(** [Record.__str__] *)
Definition Record_str (r : Record_.t) : str :=
  let phones := join (str_of_string "; ") (map Phone.value (Record_.phones r)) in
  let birthday :=
    match Record_.birthday r with
    | Some d => strftime d
    | None => str_of_string "No birthday"
    end in
  str_of_string "Contact name: " ++ Record_.name r
  ++ str_of_string ", phones: " ++ phones
  ++ str_of_string ", birthday: " ++ birthday.

(** [parse_input]. [str.lower] maps a string through the case tables of
    Unicode; it is an argument here. [parts[0]] of an empty list raises. *)
Section ParseInput.

Variable lower : str -> str.

Definition parse_input (user_input : str) : outcome (str * list str) :=
  let parts := split user_input in
  match parts with
  | [] => Raise (IndexError "list index out of range")
  | first :: args => Return (lower first, args)
  end.

End ParseInput.

End Text.

Module Commands.
Import Py Text.

(** The state the commands run in: the items of the book and the identity
    the next allocated Phone object receives. The Record objects live in
    the book: the program reaches a record only through the name it is
    stored under, so a method call on the record found under a name shows
    as a new state of the item under that name, at the same position. *)
Record state : Type := mkState { book : AddressBook.t; next_id : nat }.

Definition ret {A} (a : A) : M state A := fun st => (Return a, st).
Definition fail {A} (e : exn) : M state A := fun st => (Raise e, st).

(** [str(e)]; for a KeyError it is the key between quotes. *)
Definition exn_str (e : exn) : str :=
  match e with
  | ValueError msg => str_of_string msg
  | IndexError msg => str_of_string msg
  | KeyError msg => [39] ++ str_of_string msg ++ [39]
  end.

(** The decorator [input_error]: a KeyError, ValueError or IndexError of the
    command becomes its reply. *)
Definition input_error (func : M state str) : state -> str * state :=
  fun st =>
    match func st with
    | (Return reply, st') => (reply, st')
    | (Raise e, st') => (exn_str e, st')
    end.

(** [name, ..., *_ = args] with too few values *)
Definition not_enough_values (expected : Z) (args : list str) : exn :=
  ValueError ("not enough values to unpack (expected at least "
              +:+ pretty expected +:+ ", got " +:+ pretty (len args) +:+ ")").

(** [book.add_record(record)] *)
Definition add_record (record : Record_.t) : M state unit := fun st =>
  (Return tt, mkState (snd (AddressBook.add_record record (book st))) (next_id st)).

(** A method call on the record stored under [name]. *)
Definition call {A} (name : str) (record : Record_.t) (method : M Record_.state A)
  : M state A := fun st =>
  let (result, after) := method (Record_.mkState record (next_id st)) in
  (result, mkState (dict_setitem name (Record_.self after) (book st))
                   (Record_.next_id after)).

(** [add_contact], before decoration *)
Definition add_contact_func (args : list str) : M state str :=
  match args with
  | name :: phone :: _ =>
      fun st =>
        match AddressBook.find name (book st) with
        | None =>
            (let record := Record_.init name in
             _ <- add_record record ;;
             if negb (len phone =? 0)
             then (_ <- call name record (Record_.add_phone phone) ;;
                   ret (str_of_string "Contact added."))
             else ret (str_of_string "Contact added."))%py st
        | Some record =>
            (if negb (len phone =? 0)
             then (_ <- call name record (Record_.add_phone phone) ;;
                   ret (str_of_string "Contact updated."))
             else ret (str_of_string "Contact updated."))%py st
        end
  | _ => fail (not_enough_values 2 args)
  end.

Definition add_contact (args : list str) : state -> str * state :=
  input_error (add_contact_func args).

(** [change_contact] *)
Definition change_contact_func (args : list str) : M state str :=
  match args with
  | name :: old_phone :: new_phone :: _ =>
      fun st =>
        match AddressBook.find name (book st) with
        | None => ret (str_of_string "Contact not found.") st
        | Some record =>
            (_ <- call name record (Record_.edit_phone old_phone new_phone) ;;
             ret (str_of_string "Phone number updated."))%py st
        end
  | _ => fail (not_enough_values 3 args)
  end.

Definition change_contact (args : list str) : state -> str * state :=
  input_error (change_contact_func args).

(** [show_phone] *)
Definition show_phone_func (args : list str) : M state str :=
  match args with
  | name :: _ =>
      fun st =>
        match AddressBook.find name (book st) with
        | None => ret (str_of_string "Contact not found.") st
        | Some record =>
            let phones :=
              join (str_of_string "; ") (map Phone.value (Record_.phones record)) in
            ret (name ++ str_of_string "'s phone numbers: " ++ phones) st
        end
  | _ => fail (not_enough_values 1 args)
  end.

Definition show_phone (args : list str) : state -> str * state :=
  input_error (show_phone_func args).

(** [show_all_contacts] *)
Definition show_all_contacts (st : state) : str :=
  match book st with
  | [] => str_of_string "Address book is empty."
  | _ =>
      fold_left (fun result record => result ++ Record_str record ++ [10])
                (dict_values (book st)) (str_of_string "All contacts:" ++ [10])
  end.

(** [add_birthday] *)
Definition add_birthday_func (args : list str) : M state str :=
  match args with
  | name :: birthday :: _ =>
      fun st =>
        match AddressBook.find name (book st) with
        | None => ret (str_of_string "Contact not found.") st
        | Some record =>
            (_ <- call name record (Record_.add_birthday birthday) ;;
             ret (str_of_string "Birthday added."))%py st
        end
  | _ => fail (not_enough_values 2 args)
  end.

Definition add_birthday (args : list str) : state -> str * state :=
  input_error (add_birthday_func args).

(** [show_birthday] *)
Definition show_birthday_func (args : list str) : M state str :=
  match args with
  | name :: _ =>
      fun st =>
        match AddressBook.find name (book st) with
        | None => ret (str_of_string "Contact not found.") st
        | Some record =>
            match Record_.birthday record with
            | None => ret (str_of_string "No birthday set for this contact.") st
            | Some d =>
                ret (name ++ str_of_string "'s birthday is " ++ strftime d) st
            end
        end
  | _ => fail (not_enough_values 1 args)
  end.

Definition show_birthday (args : list str) : state -> str * state :=
  input_error (show_birthday_func args).

End Commands.

(** ** Notions for the rest of the program *)

(** The birthday of a record, when set, is a date of the calendar. *)
Definition birthday_valid (st : Record_.state) : Prop :=
  match Record_.birthday (Record_.self st) with
  | Some d => date_ok d = true
  | None => True
  end.

(** Every item of a book is stored under the name of its record. *)
Definition keyed_by_name (data : AddressBook.t) : Prop :=
  Forall (fun item => fst item = Record_.name (snd item)) data.

(** A record of the command layer is well formed: validated phones,
    distinct Phone objects older than the next allocation, a birthday of
    the calendar. *)
Definition record_ok (next : nat) (r : Record_.t) : Prop :=
  phones_validated (Record_.mkState r next)
  /\ ids_fresh (Record_.mkState r next)
  /\ birthday_valid (Record_.mkState r next).

(** What a method of Record keeps of the record it runs on: the three
    properties above and the name; it never takes an identity back. *)
Definition kept (st st' : Record_.state) : Prop :=
  (phones_validated st -> phones_validated st')
  /\ (ids_fresh st -> ids_fresh st')
  /\ (birthday_valid st -> birthday_valid st')
  /\ Record_.name (Record_.self st') = Record_.name (Record_.self st)
  /\ (Record_.next_id st <= Record_.next_id st')%nat.

Definition book_ok (st : Commands.state) : Prop :=
  one_record_per_name (Commands.book st)
  /\ keyed_by_name (Commands.book st)
  /\ Forall (record_ok (Commands.next_id st)) (dict_values (Commands.book st)).

(** A word: a string with a character and without white space. *)
Definition word (w : str) : Prop :=
  w <> [] /\ Forall (fun c => Text.Py_UNICODE_ISSPACE c = false) w.

Definition nospace (c : Z) : Prop := Text.Py_UNICODE_ISSPACE c = false.


(** A command line: words with one blank between them. *)
Definition command_line (words : list str) : str :=
  Text.join [32] words.

(** A book with the birthdays of Ann (15.03.1990) and Bob (18.03.1990) and
    with Cy, who has none. *)
Definition birthday_book : AddressBook.t :=
  [(str_of_string "Ann",
    Record_.mk (str_of_string "Ann") [] (Some (mkdate 1990 3 15)));
   (str_of_string "Bob",
    Record_.mk (str_of_string "Bob") [] (Some (mkdate 1990 3 18)));
   (str_of_string "Cy", Record_.mk (str_of_string "Cy") [] None)].

(** A book holding Bob, with two phones and a birthday. *)
Definition bob_book : Commands.state :=
  snd (Commands.add_birthday [str_of_string "Bob"; str_of_string "15.03.1990"]
    (snd (Commands.add_contact [str_of_string "Bob"; str_of_string "0000000000"]
      (snd (Commands.add_contact [str_of_string "Bob"; str_of_string "1234567890"]
        (Commands.mkState [] 0)))))).

(* ===================================================================== *)
(** * Digits and dates as the specification words them *)
(* ===================================================================== *)

(** The decimal digits 0 to 9, and the characters of ASCII. *)
Definition ascii_digit (c : Z) : Prop := 48 <= c <= 57.

Definition ascii_char (c : Z) : Prop := 0 <= c < 128.

Definition ten_ascii_digits (s : str) : Prop :=
  length s = 10%nat /\ Forall ascii_digit s.

(** A digit of Unicode (Numeric_Type Decimal or Digit): a code point of
    one of the listed ranges. *)
Definition unicode_digit (c : Z) : Prop :=
  exists lo hi,
    In (lo, hi) (DECIMAL_RANGES ++ OTHER_DIGIT_RANGES) /\ lo <= c <= hi.

(** Ten times the superscript two. *)
Definition superscript_twos : str := repeat 178 10.

(** The value of a decimal digit of any script: its place in its block of
    ten. *)
Definition decimal_value (c v : Z) : Prop :=
  exists lo hi,
    In (lo, hi) DECIMAL_RANGES /\ lo <= c <= hi /\ v = (c - lo) mod 10.

(** No code point lies in two ranges of a table. *)
Definition ranges_disjoint (tbl : list (Z * Z)) : bool :=
  forallb (fun r =>
    forallb (fun r' =>
      ((fst r =? fst r') && (snd r =? snd r'))
      || (snd r <? fst r') || (snd r' <? fst r)) tbl) tbl.

(** The ways to write a day, with the number written: 30 or 31; 10 to 29,
    the second digit of any script; 01 to 09; 1 to 9; a blank and 1 to
    9. Where no script is named the digits are those of ASCII. *)
Inductive day_reads : str -> Z -> Prop :=
| day_reads_thirties c :
    48 <= c <= 49 -> day_reads [51; c] (30 + (c - 48))
| day_reads_tens c1 c2 v :
    49 <= c1 <= 50 -> decimal_value c2 v ->
    day_reads [c1; c2] (10 * (c1 - 48) + v)
| day_reads_zero_padded c : 49 <= c <= 57 -> day_reads [48; c] (c - 48)
| day_reads_one_digit c : 49 <= c <= 57 -> day_reads [c] (c - 48)
| day_reads_blank_padded c : 49 <= c <= 57 -> day_reads [32; c] (c - 48).

(** The ways to write a month: 10 to 12; 01 to 09; 1 to 9. *)
Inductive month_reads : str -> Z -> Prop :=
| month_reads_tens c : 48 <= c <= 50 -> month_reads [49; c] (10 + (c - 48))
| month_reads_zero_padded c : 49 <= c <= 57 -> month_reads [48; c] (c - 48)
| month_reads_one_digit c : 49 <= c <= 57 -> month_reads [c] (c - 48).

(** A year: exactly four decimal digits of any script. *)
Definition year_reads (t : str) (y : Z) : Prop :=
  exists c1 c2 c3 c4 v1 v2 v3 v4,
    t = [c1; c2; c3; c4]
    /\ decimal_value c1 v1 /\ decimal_value c2 v2
    /\ decimal_value c3 v3 /\ decimal_value c4 v4
    /\ y = 1000 * v1 + 100 * v2 + 10 * v3 + v4.

(** A date of the calendar, years 1 to 9999. *)
Definition leap_year (y : Z) : Prop :=
  y mod 4 = 0 /\ (y mod 100 <> 0 \/ y mod 400 = 0).

Definition month_days (y m n : Z) : Prop :=
  (In m [1; 3; 5; 7; 8; 10; 12] /\ n = 31)
  \/ (In m [4; 6; 9; 11] /\ n = 30)
  \/ (m = 2 /\ leap_year y /\ n = 29)
  \/ (m = 2 /\ ~ leap_year y /\ n = 28).

Definition calendar_date (d : date) : Prop :=
  1 <= year d <= 9999
  /\ exists n, month_days (year d) (month d) n /\ 1 <= day d <= n.

(** The text [s] writes the date [dt]: a day, a dot, a month, a dot and a
    year as above, which name a date of the calendar. *)
Definition writes_date (s : str) (dt : date) : Prop :=
  exists d m y,
    s = d ++ [46] ++ m ++ [46] ++ y
    /\ day_reads d (day dt) /\ month_reads m (month dt)
    /\ year_reads y (year dt)
    /\ calendar_date dt.

(* ===================================================================== *)
(** * Phone validation *)
(* ===================================================================== *)

Lemma isdigit_true (s : str) :
  isdigit s = true <-> s <> [] /\ Forall digit_char s.
Proof.
  unfold isdigit, digit_char. destruct s as [|c s].
  - split; [discriminate | intros [H _]; congruence].
  - rewrite forallb_forall, Forall_forall.
    split.
    + intros H. split; [discriminate|]. intros x Hx. apply H.
      now apply list_elem_of_In.
    + intros [_ H] x Hx. apply H. now apply list_elem_of_In.
Qed.

Lemma not_Forall_digit (s : str) :
  ~ Forall digit_char s <-> Exists (fun c => Py_UNICODE_ISDIGIT c = false) s.
Proof.
  unfold digit_char. induction s as [|c s IH].
  - split; [intros H; destruct H; constructor | intros H; inversion H].
  - rewrite Forall_cons, Exists_cons, <- IH.
    destruct (Py_UNICODE_ISDIGIT c); split; intros H.
    + right. intros Hs. apply H. now split.
    + intros [_ Hs]. destruct H as [H|H]; [discriminate | now apply H].
    + now left.
    + intros [Hc _]. discriminate.
Qed.

Lemma validate_phone_cases (s : str) :
  (length s <> 10%nat /\
   Phone.validate_phone s = Raise (ValueError "The phone number must contain 10 digits"))
  \/ (length s = 10%nat /\ ~ Forall digit_char s /\
      Phone.validate_phone s = Raise (ValueError "The phone number must contain only numbers"))
  \/ (ten_digits s /\ Phone.validate_phone s = Return s).
Proof.
  unfold Phone.validate_phone, len, ten_digits.
  destruct (Z.eqb_spec (Z.of_nat (length s)) 10) as [Hl|Hl]; simpl.
  - assert (length s = 10%nat) as Hlen by lia.
    destruct (isdigit s) eqn:Hd; simpl.
    + right; right. apply isdigit_true in Hd. tauto.
    + right; left. repeat split; trivial.
      intros HF. assert (isdigit s = true) as Ht; [|congruence].
      apply isdigit_true. split; [|trivial]. intros ->. discriminate.
  - left. split; [lia | reflexivity].
Qed.

Lemma validate_phone_error (s : str) (e : exn) :
  Phone.validate_phone s = Raise e -> ValidationError e.
Proof.
  intros He. unfold ValidationError.
  destruct (validate_phone_cases s) as [[_ Hr]|[(_ & _ & Hr)|(_ & Hr)]];
    rewrite Hr in He;
    [injection He as <-; auto | injection He as <-; auto | discriminate].
Qed.

Lemma validate_phone_ten_digits (s : str) :
  ten_digits s <-> Phone.validate_phone s = Return s.
Proof.
  unfold ten_digits.
  destruct (validate_phone_cases s) as [[Hl Hr]|[(Hl & Hd & Hr)|(Hok & Hr)]].
  - split; [tauto | congruence].
  - split; [tauto | congruence].
  - split; [intros _; exact Hr | intros _; exact Hok].
Qed.

(* ===================================================================== *)
(** * The phone list of a record *)
(* ===================================================================== *)

Section PhoneList.

Implicit Types (l : list Phone.t) (p q : Phone.t) (phone : str).

Lemma str_eqb_eq (a b : str) : str_eqb a b = true <-> a = b.
Proof. unfold str_eqb. apply bool_decide_eq_true. Qed.

Lemma str_eqb_neq (a b : str) : str_eqb a b = false <-> a <> b.
Proof. unfold str_eqb. apply bool_decide_eq_false. Qed.

Lemma one_value_per_object_spec l :
  one_value_per_object l = true ->
  forall p q, In p l -> In q l ->
    Phone.oid p = Phone.oid q -> Phone.value p = Phone.value q.
Proof.
  unfold one_value_per_object. rewrite forallb_forall.
  intros H p q Hp Hq Hid.
  specialize (H p Hp). rewrite forallb_forall in H. specialize (H q Hq).
  unfold Phone.eq in H. rewrite (proj2 (Nat.eqb_eq _ _) Hid) in H.
  simpl in H. now apply str_eqb_eq.
Qed.

(** [find_phone] returns the first object whose value is the string. *)
Lemma find_phone_loop_absent phone l :
  ~ In phone (map Phone.value l) ->
  Record_.find_phone_loop phone l = Raise (ValueError "Phone number not found.").
Proof.
  induction l as [|p l IH]; simpl; intros Hn; [reflexivity|].
  destruct (str_eqb (Phone.value p) phone) eqn:E.
  - apply str_eqb_eq in E. tauto.
  - apply IH. tauto.
Qed.

Lemma find_phone_loop_present phone l :
  In phone (map Phone.value l) ->
  exists j p,
    Record_.find_phone_loop phone l = Return p
    /\ l !! j = Some p
    /\ Phone.value p = phone
    /\ forall i q, (i < j)%nat -> l !! i = Some q -> Phone.value q <> phone.
Proof.
  induction l as [|p l IH]; simpl; intros Hin; [contradiction|].
  destruct (str_eqb (Phone.value p) phone) eqn:E.
  - apply str_eqb_eq in E. exists O, p. repeat split; trivial. lia.
  - apply str_eqb_neq in E. destruct Hin as [Hin|Hin]; [contradiction|].
    destruct (IH Hin) as (j & q & Hf & Hj & Hv & Hlt).
    exists (S j), q. repeat split; trivial.
    intros [|i] q' Hi Hq'; simpl in Hq'.
    + injection Hq' as <-. exact E.
    + apply (Hlt i); [lia | exact Hq'].
Qed.

(** With identity as equality, [list.index] finds the position of the
    object [find_phone] returned, and [list.remove] deletes there. *)
Lemma list_index_first l j p :
  (forall a b, In a l -> In b l ->
     Phone.oid a = Phone.oid b -> Phone.value a = Phone.value b) ->
  l !! j = Some p ->
  (forall i q, (i < j)%nat -> l !! i = Some q -> Phone.value q <> Phone.value p) ->
  list_index Phone.eq p l = Return j.
Proof.
  revert j. induction l as [|y l IH]; intros j Hc Hj Hlt; [discriminate|].
  simpl. destruct j as [|j]; simpl in Hj.
  - injection Hj as ->. unfold Phone.eq. now rewrite Nat.eqb_refl.
  - assert (In p l) as Hp by (apply list_elem_of_In; eapply list_elem_of_lookup_2; eauto).
    destruct (Phone.eq y p) eqn:E.
    + exfalso. apply (Hlt O y); [lia | reflexivity |].
      apply Hc; [now left | now right |]. now apply Nat.eqb_eq.
    + rewrite (IH j); trivial.
      * intros a b Ha Hb. apply Hc; now right.
      * intros i q Hi Hq. apply (Hlt (S i)); [lia | exact Hq].
Qed.

Lemma list_remove_first l j p :
  (forall a b, In a l -> In b l ->
     Phone.oid a = Phone.oid b -> Phone.value a = Phone.value b) ->
  l !! j = Some p ->
  (forall i q, (i < j)%nat -> l !! i = Some q -> Phone.value q <> Phone.value p) ->
  list_remove Phone.eq p l = Return (delete j l).
Proof.
  revert j. induction l as [|y l IH]; intros j Hc Hj Hlt; [discriminate|].
  simpl. destruct j as [|j]; simpl in Hj.
  - injection Hj as ->. unfold Phone.eq. now rewrite Nat.eqb_refl.
  - assert (In p l) as Hp by (apply list_elem_of_In; eapply list_elem_of_lookup_2; eauto).
    destruct (Phone.eq y p) eqn:E.
    + exfalso. apply (Hlt O y); [lia | reflexivity |].
      apply Hc; [now left | now right |]. now apply Nat.eqb_eq.
    + rewrite (IH j); trivial.
      * intros a b Ha Hb. apply Hc; now right.
      * intros i q Hi Hq. apply (Hlt (S i)); [lia | exact Hq].
Qed.

(** Without any assumption, [list.index] of a member returns a position of
    the list and [list.remove] of a member returns a sublist. *)
Lemma list_index_member l p :
  In p l -> exists i, list_index Phone.eq p l = Return i /\ (i < length l)%nat.
Proof.
  induction l as [|y l IH]; simpl; intros Hin; [contradiction|].
  destruct (Phone.eq y p) eqn:E.
  - exists O. split; [reflexivity | lia].
  - destruct Hin as [->|Hin].
    + unfold Phone.eq in E. rewrite Nat.eqb_refl in E. discriminate.
    + destruct (IH Hin) as (i & -> & Hi). exists (S i). split; [reflexivity | lia].
Qed.

Lemma list_remove_sublist {A} (eq : A -> A -> bool) (x : A) (l r : list A) :
  list_remove eq x l = Return r -> forall y, In y r -> In y l.
Proof.
  revert r. induction l as [|z l IH]; simpl; intros r Hr; [discriminate|].
  destruct (eq z x).
  - injection Hr as <-. intros y Hy. now right.
  - destruct (list_remove eq x l) as [r'|e]; [|discriminate].
    injection Hr as <-. intros y [->|Hy]; [now left | right; eauto].
Qed.

Lemma find_phone_loop_member phone l p :
  Record_.find_phone_loop phone l = Return p -> In p l /\ Phone.value p = phone.
Proof.
  induction l as [|y l IH]; simpl; [discriminate|].
  destruct (str_eqb (Phone.value y) phone) eqn:E.
  - intros [= ->]. apply str_eqb_eq in E. split; [now left | exact E].
  - intros H. destruct (IH H). split; [now right | trivial].
Qed.

End PhoneList.

(* ===================================================================== *)
(** * Record: editing and removing phones *)
(* ===================================================================== *)

Lemma values_lookup (l : list Phone.t) (j : nat) (p : Phone.t) :
  l !! j = Some p -> map Phone.value l !! j = Some (Phone.value p).
Proof. intros H. rewrite list_lookup_fmap. now rewrite H. Qed.

Lemma values_before (l : list Phone.t) (j : nat) (phone : str) :
  (forall i q, (i < j)%nat -> l !! i = Some q -> Phone.value q <> phone) ->
  forall i, (i < j)%nat -> map Phone.value l !! i <> Some phone.
Proof.
  intros H i Hi. rewrite list_lookup_fmap.
  destruct (l !! i) as [q|] eqn:E; simpl; [|discriminate].
  intros [= Hq]. exact (H i q Hi E Hq).
Qed.

(** C3: editing a phone is atomic. When the old string is not in the phone
    sequence the call fails with NotFound; when it is there and the new
    string is invalid the call fails with the ValidationError of the new
    string; in both failures the record is left as it was. When both
    checks pass, the first entry equal to the old string is replaced by the
    new one where it stands, every other entry, the name and the birthday
    being unchanged. *)
Theorem edit_phone_atomic (st : Record_.state) (old_phone new_phone : str) :
  (~ In old_phone (values st) ->
     Record_.edit_phone old_phone new_phone st = (Raise PhoneNotFound, st))
  /\ (In old_phone (values st) ->
      forall e, Phone.validate_phone new_phone = Raise e ->
        ValidationError e
        /\ Record_.edit_phone old_phone new_phone st = (Raise e, st))
  /\ (one_value_per_object (Record_.phones (Record_.self st)) = true ->
      In old_phone (values st) -> ten_digits new_phone ->
      exists st' j,
        Record_.edit_phone old_phone new_phone st = (Return tt, st')
        /\ values st !! j = Some old_phone
        /\ (forall i, (i < j)%nat -> values st !! i <> Some old_phone)
        /\ values st' = <[j := new_phone]> (values st)
        /\ Record_.name (Record_.self st') = Record_.name (Record_.self st)
        /\ Record_.birthday (Record_.self st') = Record_.birthday (Record_.self st)).
Proof.
  destruct st as [[nm l bd] n]. unfold values. simpl.
  unfold Record_.edit_phone, Record_.find_phone, Record_.get_phones,
    Record_.Phone_new, Record_.set_phones, Phone.init, bind, lift, obind.
  simpl. split; [|split].
  - intros Hn. now rewrite find_phone_loop_absent.
  - intros Hin e He.
    destruct (find_phone_loop_present _ _ Hin) as (j & p & -> & _).
    rewrite He. split; [|reflexivity].
    now apply (validate_phone_error new_phone).
  - intros Hc Hin Hnew.
    destruct (find_phone_loop_present _ _ Hin) as (j & p & -> & Hj & Hv & Hlt).
    apply (validate_phone_ten_digits new_phone) in Hnew.
    rewrite Hnew. cbn.
    rewrite (list_index_first l j p (one_value_per_object_spec l Hc) Hj);
      [|now rewrite Hv].
    unfold list_setitem.
    assert (j < length l)%nat as Hlen by (eapply lookup_lt_Some; eauto).
    rewrite (proj2 (Nat.ltb_lt _ _) Hlen).
    eexists _, j. split; [reflexivity|]. simpl.
    repeat split.
    + rewrite <- Hv. now apply values_lookup.
    + now apply values_before.
    + now rewrite list_fmap_insert.
Qed.

(** C8: removing a phone fails with NotFound, leaving the record as it was,
    when no stored phone equals the string; otherwise exactly one entry is
    removed, the first one equal to the string, so that later duplicates
    stay in the sequence. *)
Theorem remove_phone_first_match (st : Record_.state) (phone : str) :
  (~ In phone (values st) ->
     Record_.remove_phone phone st = (Raise PhoneNotFound, st))
  /\ (one_value_per_object (Record_.phones (Record_.self st)) = true ->
      In phone (values st) ->
      exists st' j,
        Record_.remove_phone phone st = (Return tt, st')
        /\ values st !! j = Some phone
        /\ (forall i, (i < j)%nat -> values st !! i <> Some phone)
        /\ values st' = delete j (values st)
        /\ Record_.name (Record_.self st') = Record_.name (Record_.self st)
        /\ Record_.birthday (Record_.self st') = Record_.birthday (Record_.self st)).
Proof.
  destruct st as [[nm l bd] n]. unfold values. simpl.
  unfold Record_.remove_phone, Record_.find_phone, Record_.get_phones,
    Record_.set_phones, bind, lift.
  simpl. split.
  - intros Hn. now rewrite find_phone_loop_absent.
  - intros Hc Hin.
    destruct (find_phone_loop_present _ _ Hin) as (j & p & -> & Hj & Hv & Hlt).
    rewrite (list_remove_first l j p (one_value_per_object_spec l Hc) Hj);
      [|now rewrite Hv].
    eexists _, j. split; [reflexivity|]. simpl.
    repeat split.
    + rewrite <- Hv. now apply values_lookup.
    + now apply values_before.
    + now rewrite list_fmap_delete.
Qed.

(* ===================================================================== *)
(** * Record: stored phones are validated *)
(* ===================================================================== *)

Lemma phones_validated_In (st : Record_.state) :
  phones_validated st <->
  forall p, In p (Record_.phones (Record_.self st)) -> ten_digits (Phone.value p).
Proof.
  unfold phones_validated, values. rewrite Forall_forall. split.
  - intros H p Hp. apply H. apply list_elem_of_In, in_map. exact Hp.
  - intros H v Hv. apply list_elem_of_In, in_map_iff in Hv.
    destruct Hv as (p & <- & Hp). now apply H.
Qed.

Lemma Phone_init_validated (self_id : nat) (phone : str) (p : Phone.t) :
  Phone.init self_id phone = Return p -> ten_digits (Phone.value p).
Proof.
  unfold Phone.init, obind.
  destruct (Phone.validate_phone phone) as [v|e] eqn:E; [|discriminate].
  intros [= <-]. simpl.
  destruct (validate_phone_cases phone) as [[_ H]|[(_ & _ & H)|(Hok & H)]];
    rewrite H in E; try discriminate.
  now injection E as <-.
Qed.

(** C9: every entry of the phone sequence of a record is a validated phone
    value, a string of exactly ten digits: a new record has no phone, and
    adding, editing and removing a phone, looking one up and setting the
    birthday all keep the property, whether the call succeeds or fails. *)
Theorem phones_always_validated :
  (forall name n, phones_validated (Record_.mkState (Record_.init name) n))
  /\ (forall st, phones_validated st ->
        (forall phone, phones_validated (snd (Record_.add_phone phone st)))
        /\ (forall old_phone new_phone,
              phones_validated (snd (Record_.edit_phone old_phone new_phone st)))
        /\ (forall phone, phones_validated (snd (Record_.remove_phone phone st)))
        /\ (forall phone, snd (Record_.find_phone phone st) = st)
        /\ (forall birthday,
              values (snd (Record_.add_birthday birthday st)) = values st)).
Proof.
  split.
  - intros name n. constructor.
  - intros [[nm l bd] n] Hst. split; [|split; [|split; [|split]]].
    + intros phone.
      unfold Record_.add_phone, Record_.Phone_new, Record_.get_phones,
        Record_.set_phones, bind. simpl.
      destruct (Phone.init n phone) as [p|e] eqn:E; simpl; [|exact Hst].
      apply phones_validated_In. simpl. intros q Hq.
      apply in_app_or in Hq. destruct Hq as [Hq|[<-|[]]].
      * now apply (proj1 (phones_validated_In _) Hst).
      * eapply Phone_init_validated; eauto.
    + intros old_phone new_phone.
      unfold Record_.edit_phone, Record_.find_phone, Record_.Phone_new,
        Record_.get_phones, Record_.set_phones, bind, lift. simpl.
      destruct (Record_.find_phone_loop old_phone l) as [p|e] eqn:Ef; simpl;
        [|exact Hst].
      destruct (Phone.init n new_phone) as [q|e] eqn:E; simpl; [|exact Hst].
      apply find_phone_loop_member in Ef. destruct Ef as [Hp _].
      destruct (list_index_member l p Hp) as (i & -> & Hi).
      unfold list_setitem. rewrite (proj2 (Nat.ltb_lt _ _) Hi). simpl.
      unfold phones_validated, values in *. simpl in *.
      rewrite list_fmap_insert. apply Forall_insert; [exact Hst|].
      eapply Phone_init_validated; eauto.
    + intros phone.
      unfold Record_.remove_phone, Record_.find_phone, Record_.get_phones,
        Record_.set_phones, bind, lift. simpl.
      destruct (Record_.find_phone_loop phone l) as [p|e] eqn:Ef; simpl;
        [|exact Hst].
      destruct (list_remove Phone.eq p l) as [r|e] eqn:Er; simpl; [|exact Hst].
      apply phones_validated_In. simpl. intros q Hq.
      apply (proj1 (phones_validated_In _) Hst). simpl.
      eapply list_remove_sublist; eauto.
    + intros phone.
      unfold Record_.find_phone, Record_.get_phones, bind, lift. simpl.
      now destruct (Record_.find_phone_loop phone l).
    + intros birthday.
      unfold Record_.add_birthday, Record_.set_birthday, bind, lift. simpl.
      now destruct (Birthday.validate_birthday birthday).
Qed.

(* ===================================================================== *)
(** * The dict of an address book *)
(* ===================================================================== *)

Section Dict.

Context {V : Type}.
Implicit Types (d : dict V) (k : str) (v : V).

Lemma dict_get_None d k : dict_get d k = None <-> ~ In k (map fst d).
Proof.
  induction d as [|[k' v'] d IH]; simpl; [tauto|].
  destruct (str_eqb k' k) eqn:E.
  - apply str_eqb_eq in E. split; [discriminate | tauto].
  - apply str_eqb_neq in E. rewrite IH. tauto.
Qed.

Lemma dict_get_setitem_eq d k v : dict_get (dict_setitem k v d) k = Some v.
Proof.
  induction d as [|[k' v'] d IH]; simpl.
  - unfold str_eqb. now rewrite bool_decide_eq_true_2.
  - destruct (str_eqb k' k) eqn:E; simpl; now rewrite E.
Qed.

Lemma dict_get_setitem_ne d k k' v :
  k' <> k -> dict_get (dict_setitem k v d) k' = dict_get d k'.
Proof.
  intros Hne. induction d as [|[k0 v0] d IH]; simpl.
  - now rewrite (proj2 (str_eqb_neq k k')).
  - destruct (str_eqb k0 k) eqn:E; simpl.
    + apply str_eqb_eq in E. subst k0.
      now rewrite (proj2 (str_eqb_neq k k')).
    + now rewrite IH.
Qed.

Lemma dict_setitem_keys d k v :
  map fst (dict_setitem k v d)
  = if dict_contains d k then map fst d else map fst d ++ [k].
Proof.
  unfold dict_contains. induction d as [|[k' v'] d IH]; simpl; [reflexivity|].
  destruct (str_eqb k' k) eqn:E; simpl; [reflexivity|].
  rewrite IH. now destruct (dict_get d k).
Qed.

Lemma dict_setitem_NoDup d k v :
  NoDup (map fst d) -> NoDup (map fst (dict_setitem k v d)).
Proof.
  intros Hd. rewrite dict_setitem_keys. unfold dict_contains.
  destruct (dict_get d k) eqn:E; [exact Hd|].
  apply dict_get_None in E.
  apply NoDup_app. repeat split.
  - exact Hd.
  - intros x Hx [->|[]]%list_elem_of_In. apply E. now apply list_elem_of_In.
  - apply NoDup_singleton.
Qed.

Lemma filter_key_absent d k :
  ~ In k (map fst d) ->
  List.filter (fun item : str * V => str_eqb (fst item) k) d = [].
Proof.
  induction d as [|[k' v'] d IH]; simpl; intros Hn; [reflexivity|].
  rewrite (proj2 (str_eqb_neq k' k)) by tauto. apply IH. tauto.
Qed.

Lemma dict_setitem_entries d k v :
  NoDup (map fst d) ->
  List.filter (fun item : str * V => str_eqb (fst item) k) (dict_setitem k v d)
  = [(k, v)].
Proof.
  induction d as [|[k' v'] d IH]; simpl; intros Hd.
  - unfold str_eqb. now rewrite bool_decide_eq_true_2.
  - apply NoDup_cons in Hd. destruct Hd as [Hk Hd].
    destruct (str_eqb k' k) eqn:E; simpl; rewrite E.
    + apply str_eqb_eq in E. subst k'. f_equal.
      apply filter_key_absent. intros H. apply Hk. now apply list_elem_of_In.
    + now apply IH.
Qed.

Lemma filter_other_absent d k :
  ~ In k (map fst d) ->
  List.filter (fun item : str * V => negb (str_eqb (fst item) k)) d = d.
Proof.
  induction d as [|[k' v'] d IH]; simpl; intros Hn; [reflexivity|].
  rewrite (proj2 (str_eqb_neq k' k)) by tauto. simpl. f_equal. apply IH. tauto.
Qed.

Lemma dict_delitem_present d k :
  NoDup (map fst d) -> In k (map fst d) ->
  dict_delitem k d
  = Return (List.filter (fun item : str * V => negb (str_eqb (fst item) k)) d).
Proof.
  induction d as [|[k' v'] d IH]; simpl; intros Hd Hin; [contradiction|].
  apply NoDup_cons in Hd. destruct Hd as [Hk Hd].
  destruct (str_eqb k' k) eqn:E; simpl.
  - apply str_eqb_eq in E. subst k'. f_equal. symmetry.
    apply filter_other_absent. intros H. apply Hk. now apply list_elem_of_In.
  - apply str_eqb_neq in E. destruct Hin as [Hin|Hin]; [contradiction|].
    now rewrite IH.
Qed.

Lemma dict_get_filter_other d k k' :
  k' <> k ->
  dict_get (List.filter (fun item : str * V => negb (str_eqb (fst item) k)) d) k'
  = dict_get d k'.
Proof.
  intros Hne. induction d as [|[k0 v0] d IH]; simpl; [reflexivity|].
  destruct (str_eqb k0 k) eqn:E; simpl.
  - apply str_eqb_eq in E. subst k0.
    now rewrite (proj2 (str_eqb_neq k k')).
  - now rewrite IH.
Qed.

Lemma dict_get_filter_same d k :
  dict_get (List.filter (fun item : str * V => negb (str_eqb (fst item) k)) d) k
  = None.
Proof.
  induction d as [|[k0 v0] d IH]; simpl; [reflexivity|].
  destruct (str_eqb k0 k) eqn:E; simpl; [exact IH|]. now rewrite E.
Qed.

Lemma filter_keys_NoDup d (f : str * V -> bool) :
  NoDup (map fst d) -> NoDup (map fst (List.filter f d)).
Proof.
  induction d as [|[k0 v0] d IH]; simpl; intros Hd; [constructor|].
  apply NoDup_cons in Hd. destruct Hd as [Hk Hd].
  specialize (IH Hd).
  destruct (f (k0, v0)); simpl; [|exact IH].
  apply NoDup_cons. split; [|exact IH].
  intros Hin. apply Hk. apply list_elem_of_In in Hin. apply list_elem_of_In.
  apply in_map_iff in Hin. destruct Hin as (x & Hx & Hin).
  apply filter_In in Hin. apply in_map_iff. exists x. tauto.
Qed.

End Dict.

(* ===================================================================== *)
(** * AddressBook: adding and deleting records *)
(* ===================================================================== *)

Lemma dict_contains_In {V} (d : dict V) (k : str) :
  dict_contains d k = true <-> In k (map fst d).
Proof.
  unfold dict_contains. pose proof (dict_get_None d k) as H.
  destruct (dict_get d k).
  - split; [intros _ | reflexivity].
    destruct (decide (k ∈ map fst d)) as [Hi|Hn]; [now apply list_elem_of_In|].
    rewrite list_elem_of_In in Hn. apply H in Hn. discriminate.
  - split; [discriminate|]. intros Hi. exfalso. now apply (proj1 H).
Qed.

Lemma delete_keeps_invariant (name : str) (data : AddressBook.t) :
  one_record_per_name data ->
  one_record_per_name (snd (AddressBook.delete name data)).
Proof.
  unfold one_record_per_name, names, AddressBook.delete. intros Hd.
  destruct (dict_contains data name) eqn:E; simpl; [|exact Hd].
  apply dict_contains_In in E.
  rewrite dict_delitem_present by trivial. simpl.
  now apply filter_keys_NoDup.
Qed.

(** C6: adding a record is last write wins. After [add_record r] the book
    maps the name of [r] to [r] and every other name to what it held;
    adding two records of one name in turn leaves exactly one record under
    that name, the second; and the invariant of the book, at most one
    record per name, holds of the empty book and is kept by [add_record]
    and by [delete]. *)
Theorem add_record_last_write_wins :
  (forall data r,
     fst (AddressBook.add_record r data) = Return tt
     /\ AddressBook.find (Record_.name r) (snd (AddressBook.add_record r data))
        = Some r
     /\ forall other, other <> Record_.name r ->
          AddressBook.find other (snd (AddressBook.add_record r data))
          = AddressBook.find other data)
  /\ (forall data r1 r2,
        one_record_per_name data ->
        Record_.name r1 = Record_.name r2 ->
        let data2 :=
          snd (AddressBook.add_record r2 (snd (AddressBook.add_record r1 data))) in
        entries_for (Record_.name r2) data2 = [r2]
        /\ AddressBook.find (Record_.name r2) data2 = Some r2)
  /\ one_record_per_name []
  /\ (forall data, one_record_per_name data ->
        (forall r, one_record_per_name (snd (AddressBook.add_record r data)))
        /\ (forall name, one_record_per_name (snd (AddressBook.delete name data)))).
Proof.
  unfold AddressBook.add_record, AddressBook.find, one_record_per_name,
    names, entries_for. simpl.
  split; [|split; [|split]].
  - intros data r. split; [reflexivity|]. split.
    + apply dict_get_setitem_eq.
    + intros other Hne. now apply dict_get_setitem_ne.
  - intros data r1 r2 Hd Hn. split.
    + rewrite dict_setitem_entries; [reflexivity|].
      now apply dict_setitem_NoDup.
    + apply dict_get_setitem_eq.
  - constructor.
  - intros data Hd. split.
    + intros r. now apply dict_setitem_NoDup.
    + intros name. now apply delete_keeps_invariant.
Qed.

(** C7: deleting a name the book holds no record for fails with NotFound
    and leaves the book as it was; deleting a name that is present removes
    its entry and leaves every other entry, and their order, unchanged. *)
Theorem delete_spec (data : AddressBook.t) (name : str) :
  (AddressBook.find name data = None ->
     AddressBook.delete name data = (Raise RecordNotFound, data))
  /\ (one_record_per_name data ->
      forall r, AddressBook.find name data = Some r ->
        exists data',
          AddressBook.delete name data = (Return tt, data')
          /\ AddressBook.find name data' = None
          /\ (forall other, other <> name ->
                AddressBook.find other data' = AddressBook.find other data)
          /\ data' = without name data).
Proof.
  unfold AddressBook.find, AddressBook.delete, one_record_per_name, names,
    without, dict_contains.
  split.
  - intros ->. reflexivity.
  - intros Hd r Hr. rewrite Hr.
    assert (In name (map fst data)) as Hin.
    { apply dict_contains_In. unfold dict_contains. now rewrite Hr. }
    rewrite dict_delitem_present by trivial.
    eexists. split; [reflexivity|]. repeat split.
    + apply dict_get_filter_same.
    + intros other Hne. now apply dict_get_filter_other.
Qed.

(* ===================================================================== *)
(** * Dates *)
(* ===================================================================== *)

Section Dates.

Lemma date_new_ok (y m d : Z) :
  date_ok (mkdate y m d) = true -> date_new y m d = Return (mkdate y m d).
Proof.
  unfold date_ok, date_new. simpl. intros H.
  repeat (apply andb_prop in H; destruct H as [H ?]).
  rewrite H. repeat match goal with E : _ = true |- _ => rewrite E; clear E end.
  reflexivity.
Qed.

Lemma date_new_not_ok (y m d : Z) :
  date_ok (mkdate y m d) = false -> exists msg, date_new y m d = Raise (ValueError msg).
Proof.
  unfold date_ok, date_new. simpl. intros H.
  destruct ((MINYEAR <=? y) && (y <=? MAXYEAR)); simpl in *; [|eauto].
  destruct ((1 <=? m) && (m <=? 12)) eqn:Em; simpl in *.
  - rewrite H. simpl. eauto.
  - eauto.
Qed.

Lemma days_before_year_succ (y : Z) :
  days_before_year (y + 1)
  = days_before_year y + 365 + (if is_leap y then 1 else 0).
Proof.
  unfold days_before_year, is_leap.
  replace (y + 1 - 1) with y by lia.
  destruct (Z.eqb_spec (y mod 4) 0), (Z.eqb_spec (y mod 100) 0),
    (Z.eqb_spec (y mod 400) 0); simpl;
    Z.to_euclidean_division_equations; lia.
Qed.

Lemma days_before_year_mono (y y' : Z) :
  y <= y' -> days_before_year y <= days_before_year y'.
Proof.
  unfold days_before_year. intros H.
  Z.to_euclidean_division_equations. lia.
Qed.

Lemma date_ok_spec (d : date) :
  date_ok d = true <->
  1 <= year d <= 9999 /\ 1 <= month d <= 12
  /\ 1 <= day d <= days_in_month (year d) (month d).
Proof.
  unfold date_ok, MINYEAR, MAXYEAR.
  rewrite !andb_true_iff, !Z.leb_le. tauto.
Qed.

Ltac month_cases m :=
  let H := fresh "Hm" in
  assert (m = 1 \/ m = 2 \/ m = 3 \/ m = 4 \/ m = 5 \/ m = 6 \/ m = 7
          \/ m = 8 \/ m = 9 \/ m = 10 \/ m = 11 \/ m = 12) as H by lia;
  repeat (destruct H as [->|H]); [..|subst m].

Lemma month_span (y m m' : Z) :
  1 <= m -> m < m' -> m' <= 12 ->
  days_before_month y m + days_in_month y m <= days_before_month y m'.
Proof.
  intros H1 H2 H3. unfold days_before_month, days_in_month.
  month_cases m; month_cases m'; try lia;
    destruct (is_leap y); simpl; lia.
Qed.

Lemma year_span (y m : Z) :
  1 <= m <= 12 ->
  0 <= days_before_month y m
  /\ days_before_month y m + days_in_month y m
     <= 365 + (if is_leap y then 1 else 0).
Proof.
  intros H. unfold days_before_month, days_in_month.
  month_cases m; destruct (is_leap y); simpl; lia.
Qed.

(** The ordinal of a date grows with the date. *)
Lemma toordinal_lt (a b : date) :
  date_ok a = true -> date_ok b = true ->
  date_lt a b = true -> toordinal a < toordinal b.
Proof.
  rewrite !date_ok_spec. unfold date_lt, toordinal, ymd2ord.
  destruct a as [y m d], b as [y' m' d']. simpl.
  intros (Hy & Hm & Hd) (Hy' & Hm' & Hd') Hlt.
  pose proof (year_span y m Hm) as [Hs0 Hs1].
  pose proof (year_span y' m' Hm') as [Hs0' Hs1'].
  apply orb_prop in Hlt. destruct Hlt as [Hlt|Hlt].
  - apply Z.ltb_lt in Hlt.
    pose proof (days_before_year_succ y) as Hsucc.
    pose proof (days_before_year_mono (y + 1) y' ltac:(lia)) as Hmono.
    lia.
  - apply andb_prop in Hlt. destruct Hlt as [Ey Hlt].
    apply Z.eqb_eq in Ey. subst y'.
    apply orb_prop in Hlt. destruct Hlt as [Hlt|Hlt].
    + apply Z.ltb_lt in Hlt.
      pose proof (month_span y m m' ltac:(lia) Hlt ltac:(lia)). lia.
    + apply andb_prop in Hlt. destruct Hlt as [Em Hlt].
      apply Z.eqb_eq in Em. apply Z.ltb_lt in Hlt. subst m'. lia.
Qed.

Lemma toordinal_le (a b : date) :
  date_ok a = true -> date_ok b = true ->
  date_lt a b = false -> toordinal b <= toordinal a.
Proof.
  intros Ha Hb Hlt.
  destruct (date_lt b a) eqn:E.
  - pose proof (toordinal_lt b a Hb Ha E). lia.
  - assert (a = b) as ->; [|lia].
    unfold date_lt in *. destruct a as [y m d], b as [y' m' d']. simpl in *.
    apply orb_false_elim in Hlt, E.
    destruct Hlt as [H1 H2], E as [H3 H4].
    apply Z.ltb_ge in H1, H3. assert (y = y') as -> by lia.
    rewrite Z.eqb_refl in H2, H4. simpl in H2, H4.
    apply orb_false_elim in H2, H4.
    destruct H2 as [H5 H6], H4 as [H7 H8].
    apply Z.ltb_ge in H5, H7. assert (m = m') as -> by lia.
    rewrite Z.eqb_refl in H6, H8. simpl in H6, H8.
    apply Z.ltb_ge in H6, H8. f_equal. lia.
Qed.

End Dates.

(* ===================================================================== *)
(** * Record: days to the next birthday *)
(* ===================================================================== *)

Lemma days_to_birthday_no_birthday (today : date) (r : Record_.t) :
  Record_.birthday r = None -> Record_.days_to_birthday today r = Return None.
Proof. unfold Record_.days_to_birthday. now intros ->. Qed.

(** X5: Where the month and day of the birthday exist in the years looked at,
    the result is the number of days from today to the occurrence of this
    year when that is today or later, and to the occurrence of next year
    otherwise; it is never negative. *)
Lemma days_to_birthday_next_occurrence (today b : date) (r : Record_.t) :
  Record_.birthday r = Some b ->
  date_ok today = true ->
  date_ok (occurrence (year today) b) = true ->
  (date_lt (occurrence (year today) b) today = false ->
     Record_.days_to_birthday today r
     = Return (Some (date_sub_days (occurrence (year today) b) today))
     /\ 0 <= date_sub_days (occurrence (year today) b) today)
  /\ (date_lt (occurrence (year today) b) today = true ->
      date_ok (occurrence (year today + 1) b) = true ->
      Record_.days_to_birthday today r
      = Return (Some (date_sub_days (occurrence (year today + 1) b) today))
      /\ 0 < date_sub_days (occurrence (year today + 1) b) today).
Proof.
  intros Hb Ht Hthis. unfold Record_.days_to_birthday, date_replace_year.
  rewrite Hb. unfold occurrence in *.
  rewrite (date_new_ok _ _ _ Hthis). simpl. split.
  - intros Hlt. rewrite Hlt. simpl. split; [reflexivity|].
    unfold date_sub_days.
    pose proof (toordinal_le _ _ Hthis Ht Hlt). lia.
  - intros Hlt Hnext. rewrite Hlt.
    rewrite (date_new_ok _ _ _ Hnext). simpl. split; [reflexivity|].
    unfold date_sub_days.
    assert (date_lt today (mkdate (year today + 1) (month b) (day b)) = true) as Hlt'.
    { unfold date_lt. simpl. rewrite (proj2 (Z.ltb_lt _ _)) by lia. reflexivity. }
    pose proof (toordinal_lt _ _ Ht Hnext Hlt'). lia.
Qed.

(** The two cases the specification works out: on 10.03.2024 a birthday of
    15.03.1990 is 5 days away; on 20.03.2024 it is as far as 15.03.2025. *)
Example days_to_birthday_2024_03_10 :
  Record_.days_to_birthday (mkdate 2024 3 10)
    (Record_.mk (str_of_string "Ann") [] (Some (mkdate 1990 3 15)))
  = Return (Some 5).
Proof. reflexivity. Qed.

Example days_to_birthday_2024_03_20 :
  Record_.days_to_birthday (mkdate 2024 3 20)
    (Record_.mk (str_of_string "Ann") [] (Some (mkdate 1990 3 15)))
  = Return (Some (date_sub_days (mkdate 2025 3 15) (mkdate 2024 3 20)))
  /\ date_sub_days (mkdate 2025 3 15) (mkdate 2024 3 20) = 360.
Proof. split; reflexivity. Qed.

(** C10: for a record whose birthday is the 29th of February,
    [days_to_birthday] raises instead of returning a number whenever the
    current year is not a leap year: moving the date to the current year
    asks for a day that the month does not have. *)
Theorem days_to_birthday_feb29_raises (today b : date) (r : Record_.t) :
  Record_.birthday r = Some b ->
  month b = 2 -> day b = 29 ->
  is_leap (year today) = false ->
  (exists msg, Record_.days_to_birthday today r = Raise (ValueError msg))
  /\ (date_ok today = true ->
      Record_.days_to_birthday today r
      = Raise (ValueError "day is out of range for month")).
Proof.
  intros Hb Hm Hd Hleap.
  unfold Record_.days_to_birthday, date_replace_year. rewrite Hb, Hm, Hd.
  assert (date_ok (mkdate (year today) 2 29) = false) as Hbad.
  { unfold date_ok, days_in_month. simpl. rewrite Hleap. simpl.
    now rewrite andb_false_r. }
  split.
  - destruct (date_new_not_ok _ _ _ Hbad) as [msg ->]. simpl. eauto.
  - intros Ht. apply date_ok_spec in Ht. destruct Ht as (Hy & _).
    unfold date_new, days_in_month, MINYEAR, MAXYEAR. rewrite Hleap.
    rewrite (proj2 (Z.leb_le 1 (year today))) by lia.
    rewrite (proj2 (Z.leb_le (year today) 9999)) by lia.
    reflexivity.
Qed.

(** C4 (failing input): a record whose birthday was set from the text
    29.02.2000, asked on 10.03.2023. The call raises where the
    specification has it return the days to the next birthday. *)
Theorem days_to_birthday_feb29_2023 :
  let st := snd (Record_.add_birthday (str_of_string "29.02.2000")
                   (Record_.mkState (Record_.init (str_of_string "Bob")) 0)) in
  Record_.birthday (Record_.self st) = Some (mkdate 2000 2 29)
  /\ Record_.days_to_birthday (mkdate 2023 3 10) (Record_.self st)
     = Raise (ValueError "day is out of range for month").
Proof. vm_compute. split; reflexivity. Qed.

(* ===================================================================== *)
(** * AddressBook: upcoming birthdays *)
(* ===================================================================== *)

Lemma upcoming_loop_filter (today : date) (days : Z)
    (records acc : list Record_.t) :
  (forall r, In r records -> Record_.birthday r <> None ->
     exists n, Record_.days_to_birthday today r = Return n) ->
  AddressBook.upcoming_loop today days records acc
  = Return (acc ++ List.filter (upcoming today days) records).
Proof.
  revert acc. induction records as [|r records IH]; intros acc Hok; simpl.
  - now rewrite app_nil_r.
  - assert (forall r', In r' records -> Record_.birthday r' <> None ->
              exists n, Record_.days_to_birthday today r' = Return n) as Hok'
      by (intros r' Hr'; apply Hok; now right).
    unfold upcoming at 1.
    destruct (Record_.birthday r) as [b|] eqn:Eb; [|now apply IH].
    destruct (Hok r (or_introl eq_refl)) as [n Hn]; [now rewrite Eb|].
    rewrite Hn. destruct n as [n|]; [|now apply IH].
    destruct (n <=? days).
    + rewrite IH by exact Hok'. now rewrite <- app_assoc.
    + now apply IH.
Qed.

(** X9: Where [days_to_birthday] raises for no record of the book, the result
    is the list of the records with a birthday at most [days] days away,
    in the order of the book: a record exactly [days] days away is in it,
    one a day further is not, one whose birthday is today is in it. *)
Lemma get_upcoming_birthdays_filter (today : date) (days : Z)
    (data : AddressBook.t) :
  (forall r, In r (dict_values data) -> Record_.birthday r <> None ->
     exists n, Record_.days_to_birthday today r = Return n) ->
  AddressBook.get_upcoming_birthdays today days data
  = Return (List.filter (upcoming today days) (dict_values data))
  /\ forall r n, In r (dict_values data) ->
       Record_.birthday r <> None ->
       Record_.days_to_birthday today r = Return (Some n) ->
       (In r (List.filter (upcoming today days) (dict_values data)) <-> n <= days).
Proof.
  intros Hok. split.
  - unfold AddressBook.get_upcoming_birthdays. now rewrite upcoming_loop_filter.
  - intros r n Hr Hb Hn. rewrite filter_In. unfold upcoming. rewrite Hn.
    destruct (Record_.birthday r); [|contradiction].
    rewrite Z.leb_le. tauto.
Qed.

(** C5 (failing input): a book holding one record whose birthday was set
    from the text 29.02.2000, asked on 10.03.2023 for the birthdays of the
    next 7 days. The call raises where the specification has it return the
    records in the window, here none. *)
Theorem get_upcoming_birthdays_feb29_2023 :
  let st := snd (Record_.add_birthday (str_of_string "29.02.2000")
                   (Record_.mkState (Record_.init (str_of_string "Bob")) 0)) in
  let book := snd (AddressBook.add_record (Record_.self st) []) in
  AddressBook.get_upcoming_birthdays (mkdate 2023 3 10) 7 book
  = Raise (ValueError "day is out of range for month").
Proof. vm_compute. reflexivity. Qed.

(* ===================================================================== *)
(** * Birthday: the texts the parser accepts *)
(* ===================================================================== *)

Section Regex.

Implicit Types (s t r : str) (a b : re_piece).

Lemma in_range_spec (lo hi c : Z) : in_range lo hi c = true <-> lo <= c <= hi.
Proof. unfold in_range. rewrite andb_true_iff, !Z.leb_le. tauto. Qed.

Lemma re_class_In (p : Z -> bool) s t r :
  In (t, r) (re_class p s) <-> exists c, s = c :: r /\ t = [c] /\ p c = true.
Proof.
  unfold re_class. destruct s as [|c s'].
  - split; [intros [] | intros (c & H & _); discriminate].
  - destruct (p c) eqn:E; simpl.
    + split.
      * intros [[= <- <-]|[]]. eauto.
      * intros (c' & [= <- <-] & -> & _). now left.
    + split; [intros [] | intros (c' & [= <- <-] & _ & H); congruence].
Qed.

Lemma re_seq_In a b s t r :
  In (t, r) (re_seq a b s) <->
  exists t1 r1 t2, In (t1, r1) (a s) /\ In (t2, r) (b r1) /\ t = t1 ++ t2.
Proof.
  unfold re_seq. rewrite in_flat_map. split.
  - intros ([t1 r1] & H1 & H2). apply in_map_iff in H2.
    destruct H2 as ([t2 r2] & [= <- <-] & H2). simpl in *. eauto 10.
  - intros (t1 & r1 & t2 & H1 & H2 & ->). exists (t1, r1). split; [exact H1|].
    apply in_map_iff. exists (t2, r). simpl. auto.
Qed.

Lemma re_alt_In a b s (x : str * str) :
  In x (re_alt a b s) <-> In x (a s) \/ In x (b s).
Proof. unfold re_alt. apply in_app_iff. Qed.

Lemma re_chr_In (c : Z) s t r :
  In (t, r) (re_chr c s) <-> s = c :: r /\ t = [c].
Proof.
  unfold re_chr. rewrite re_class_In. split.
  - intros (c' & -> & -> & E). apply Z.eqb_eq in E. now subst.
  - intros [-> ->]. exists c. now rewrite Z.eqb_refl.
Qed.

Lemma re_two_In (p1 p2 : Z -> bool) s t r :
  In (t, r) (re_seq (re_class p1) (re_class p2) s) <->
  exists c1 c2, s = c1 :: c2 :: r /\ t = [c1; c2] /\ p1 c1 = true /\ p2 c2 = true.
Proof.
  rewrite re_seq_In. split.
  - intros (t1 & r1 & t2 & H1 & H2 & ->).
    apply re_class_In in H1, H2.
    destruct H1 as (c1 & -> & -> & E1), H2 as (c2 & -> & -> & E2). eauto 10.
  - intros (c1 & c2 & -> & -> & E1 & E2).
    exists [c1], (c2 :: r), [c2]. rewrite !re_class_In. eauto 10.
Qed.

Lemma re_d_In s t r : In (t, r) (re_d s) <-> s = t ++ r /\ day_text t.
Proof.
  unfold re_d, re_chr, re_digit. rewrite !re_alt_In, !re_two_In, !re_class_In. split.
  - intros [H|[H|[H|[H|H]]]].
    + destruct H as (c1 & c2 & -> & -> & E1 & E2).
      apply Z.eqb_eq in E1. apply in_range_spec in E2. subst c1.
      split; [reflexivity | now constructor].
    + destruct H as (c1 & c2 & -> & -> & E1 & E2).
      apply in_range_spec in E1. split; [reflexivity | now constructor].
    + destruct H as (c1 & c2 & -> & -> & E1 & E2).
      apply Z.eqb_eq in E1. apply in_range_spec in E2. subst c1.
      split; [reflexivity | now constructor].
    + destruct H as (c & -> & -> & E). apply in_range_spec in E.
      split; [reflexivity | now constructor].
    + destruct H as (c1 & c2 & -> & -> & E1 & E2).
      apply Z.eqb_eq in E1. apply in_range_spec in E2. subst c1.
      split; [reflexivity | now constructor].
  - intros [-> Hd]. destruct Hd as [c H|c1 c2 H1 H2|c H|c H|c H]; simpl.
    + left. exists 51, c. rewrite (proj2 (in_range_spec _ _ _) H). auto.
    + right; left. exists c1, c2. rewrite (proj2 (in_range_spec _ _ _) H1). auto.
    + do 2 right; left. exists 48, c. rewrite (proj2 (in_range_spec _ _ _) H). auto.
    + do 3 right; left. exists c. rewrite (proj2 (in_range_spec _ _ _) H). auto.
    + do 4 right. exists 32, c. rewrite (proj2 (in_range_spec _ _ _) H). auto.
Qed.

Lemma re_m_In s t r : In (t, r) (re_m s) <-> s = t ++ r /\ month_text t.
Proof.
  unfold re_m, re_chr. rewrite !re_alt_In, !re_two_In, !re_class_In. split.
  - intros [H|[H|H]].
    + destruct H as (c1 & c2 & -> & -> & E1 & E2).
      apply Z.eqb_eq in E1. apply in_range_spec in E2. subst c1.
      split; [reflexivity | now constructor].
    + destruct H as (c1 & c2 & -> & -> & E1 & E2).
      apply Z.eqb_eq in E1. apply in_range_spec in E2. subst c1.
      split; [reflexivity | now constructor].
    + destruct H as (c & -> & -> & E). apply in_range_spec in E.
      split; [reflexivity | now constructor].
  - intros [-> Hd]. destruct Hd as [c H|c H|c H]; simpl.
    + left. exists 49, c. rewrite (proj2 (in_range_spec _ _ _) H). auto.
    + right; left. exists 48, c. rewrite (proj2 (in_range_spec _ _ _) H). auto.
    + do 2 right. exists c. rewrite (proj2 (in_range_spec _ _ _) H). auto.
Qed.

Lemma re_Y_In s t r : In (t, r) (re_Y s) <-> s = t ++ r /\ year_text t.
Proof.
  unfold re_Y, re_digit, year_text, decimal_digit.
  rewrite re_seq_In. setoid_rewrite re_seq_In. setoid_rewrite re_two_In.
  setoid_rewrite re_class_In. split.
  - intros (t1 & r1 & t2 & (c1 & -> & -> & E1) & H & ->).
    destruct H as (t3 & r3 & t4 & (c2 & -> & -> & E2) & H & ->).
    destruct H as (c3 & c4 & -> & -> & E3 & E4).
    split; [reflexivity|]. split; [reflexivity|].
    repeat constructor; assumption.
  - intros (-> & Hl & HF).
    destruct t as [|c1 [|c2 [|c3 [|c4 [|? ?]]]]]; try discriminate.
    apply Forall_cons in HF as [E1 HF]. apply Forall_cons in HF as [E2 HF].
    apply Forall_cons in HF as [E3 HF]. apply Forall_cons in HF as [E4 _].
    exists [c1], ([c2; c3; c4] ++ r), [c2; c3; c4]. split; [eauto|].
    split; [|reflexivity].
    exists [c2], ([c3; c4] ++ r), [c3; c4]. split; [eauto|].
    split; [|reflexivity]. exists c3, c4. auto.
Qed.

End Regex.

Section Strptime.

Implicit Types (s d m y rest : str).

Lemma format_regex_matches_In s d m y rest :
  In (d, m, y, rest) (format_regex_matches s) <-> splits_as s d m y rest.
Proof.
  unfold format_regex_matches, splits_as. rewrite in_flat_map. split.
  - intros ([d0 r0] & Hd & H). apply in_flat_map in H.
    destruct H as ([t1 r1] & Hdot1 & H). apply in_flat_map in H.
    destruct H as ([m0 r2] & Hm & H). apply in_flat_map in H.
    destruct H as ([t2 r3] & Hdot2 & H). apply in_map_iff in H.
    destruct H as ([y0 r4] & [= <- <- <- <-] & Hy). simpl in *.
    apply re_d_In in Hd. apply re_chr_In in Hdot1. apply re_m_In in Hm.
    apply re_chr_In in Hdot2. apply re_Y_In in Hy.
    destruct Hd as [-> Hd], Hdot1 as [-> _], Hm as [-> Hm],
      Hdot2 as [-> _], Hy as [-> Hy].
    split; [reflexivity | auto].
  - intros (-> & Hd & Hm & Hy).
    exists (d, [46] ++ m ++ [46] ++ y ++ rest). split; [now apply re_d_In|].
    apply in_flat_map. exists ([46], m ++ [46] ++ y ++ rest).
    split; [now apply re_chr_In|].
    apply in_flat_map. exists (m, [46] ++ y ++ rest). split; [now apply re_m_In|].
    apply in_flat_map. exists ([46], y ++ rest). split; [now apply re_chr_In|].
    apply in_map_iff. exists (y, rest). split; [reflexivity | now apply re_Y_In].
Qed.

Lemma not_decimal_dot : ~ decimal_digit 46.
Proof. unfold decimal_digit. vm_compute. discriminate. Qed.

(** A text splits in one way at most: the character after the day and
    after the month is the dot, which is no digit. *)
Lemma day_text_unique d d' (x x' : str) :
  day_text d -> day_text d' -> d ++ 46 :: x = d' ++ 46 :: x' ->
  d = d' /\ x = x'.
Proof.
  intros Hd Hd' Heq. pose proof not_decimal_dot as Hdot.
  destruct Hd, Hd'; simpl in Heq; injection Heq as ?; subst;
    try lia; try contradiction; auto.
Qed.

Lemma month_text_unique m m' (x x' : str) :
  month_text m -> month_text m' -> m ++ 46 :: x = m' ++ 46 :: x' ->
  m = m' /\ x = x'.
Proof.
  intros Hm Hm' Heq.
  destruct Hm, Hm'; simpl in Heq; injection Heq as ?; subst; try lia; auto.
Qed.

Lemma splits_as_unique s d m y rest d' m' y' rest' :
  splits_as s d m y rest -> splits_as s d' m' y' rest' ->
  d = d' /\ m = m' /\ y = y' /\ rest = rest'.
Proof.
  intros (-> & Hd & Hm & Hy) (Heq & Hd' & Hm' & Hy').
  simpl in Heq.
  destruct (day_text_unique _ _ _ _ Hd Hd' Heq) as [<- Heq1].
  destruct (month_text_unique _ _ _ _ Hm Hm' Heq1) as [<- Heq2].
  destruct Hy as [Hl _], Hy' as [Hl' _].
  apply app_inj_1 in Heq2; [|congruence]. destruct Heq2 as [<- <-]. auto.
Qed.

Lemma format_regex_match_Some s d m y rest :
  format_regex_match s = Some (d, m, y, rest) <-> splits_as s d m y rest.
Proof.
  unfold format_regex_match. split.
  - intros H. apply format_regex_matches_In.
    destruct (format_regex_matches s) as [|x l]; [discriminate|].
    injection H as ->. now left.
  - intros H. pose proof H as Hin. apply format_regex_matches_In in Hin.
    destruct (format_regex_matches s) as [|[[[d0 m0] y0] rest0] l] eqn:E;
      [contradiction|].
    assert (splits_as s d0 m0 y0 rest0) as H0.
    { apply format_regex_matches_In. rewrite E. now left. }
    destruct (splits_as_unique _ _ _ _ _ _ _ _ _ H H0) as (-> & -> & -> & ->).
    reflexivity.
Qed.

Lemma format_regex_match_None s d m y rest :
  format_regex_match s = None -> ~ splits_as s d m y rest.
Proof.
  intros Hn H. apply format_regex_match_Some in H. congruence.
Qed.

Lemma date_new_Return (y m d : Z) (dt : date) :
  date_new y m d = Return dt -> dt = mkdate y m d /\ date_ok dt = true.
Proof.
  destruct (date_ok (mkdate y m d)) eqn:E.
  - rewrite (date_new_ok _ _ _ E). intros [= <-]. auto.
  - destruct (date_new_not_ok _ _ _ E) as [msg ->]. discriminate.
Qed.

Lemma date_new_Raise (y m d : Z) (e : exn) :
  date_new y m d = Raise e ->
  (exists msg, e = ValueError msg) /\ date_ok (mkdate y m d) = false.
Proof.
  destruct (date_ok (mkdate y m d)) eqn:E.
  - rewrite (date_new_ok _ _ _ E). discriminate.
  - destruct (date_new_not_ok _ _ _ E) as [msg ->]. intros [= <-]. eauto.
Qed.

Lemma int_Raise s (e : exn) : int s = Raise e -> exists msg, e = ValueError msg.
Proof.
  unfold int. destruct (strip s) as [|c t]; [intros [= <-]; eauto|].
  destruct (digits_value 0 (c :: t)); [discriminate | intros [= <-]; eauto].
Qed.

Lemma birthday_text_splits s (dt : date) :
  birthday_text s dt ->
  exists d m y,
    splits_as s d m y []
    /\ int d = Return (day dt) /\ int m = Return (month dt)
    /\ int y = Return (year dt) /\ date_ok dt = true.
Proof.
  intros (d & m & y & -> & Hd & Hm & Hy & H).
  exists d, m, y. split; [|exact H].
  unfold splits_as. now rewrite app_nil_r.
Qed.

(** What [strptime] does with a text: it returns the date the text writes,
    or raises a ValueError when the text writes none. *)
Lemma strptime_date_spec s :
  match strptime_date s with
  | Return dt => birthday_text s dt
  | Raise e => (exists msg, e = ValueError msg) /\ forall dt, ~ birthday_text s dt
  end.
Proof.
  unfold strptime_date.
  destruct (format_regex_match s) as [[[[d m] y] rest]|] eqn:E.
  - apply format_regex_match_Some in E.
    destruct rest as [|c rest]; simpl.
    + destruct (int d) as [dv|e] eqn:Ed; simpl.
      2:{ split; [now apply int_Raise in Ed|].
          intros dt (d' & m' & y' & H' & Hd' & _)%birthday_text_splits.
          destruct (splits_as_unique _ _ _ _ _ _ _ _ _ E H') as (-> & _).
          congruence. }
      destruct (int m) as [mv|e] eqn:Em; simpl.
      2:{ split; [now apply int_Raise in Em|].
          intros dt (d' & m' & y' & H' & _ & Hm' & _)%birthday_text_splits.
          destruct (splits_as_unique _ _ _ _ _ _ _ _ _ E H') as (_ & -> & _).
          congruence. }
      destruct (int y) as [yv|e] eqn:Ey; simpl.
      2:{ split; [now apply int_Raise in Ey|].
          intros dt (d' & m' & y' & H' & _ & _ & Hy' & _)%birthday_text_splits.
          destruct (splits_as_unique _ _ _ _ _ _ _ _ _ E H') as (_ & _ & -> & _).
          congruence. }
      destruct (date_new yv mv dv) as [dt|e] eqn:En.
      * apply date_new_Return in En. destruct En as [-> Hok].
        destruct E as (-> & Hd & Hm & Hy). rewrite app_nil_r.
        exists d, m, y. simpl. auto 10.
      * apply date_new_Raise in En. destruct En as [Hmsg Hbad].
        split; [exact Hmsg|].
        intros [y0 m0 d0] (d' & m' & y' & H' & Hd' & Hm' & Hy' & Hok)%birthday_text_splits.
        destruct (splits_as_unique _ _ _ _ _ _ _ _ _ E H') as (-> & -> & -> & _).
        simpl in *. congruence.
    + split; [eauto|].
      intros dt (d' & m' & y' & H' & _)%birthday_text_splits.
      destruct (splits_as_unique _ _ _ _ _ _ _ _ _ E H') as (_ & _ & _ & Hr).
      discriminate.
  - split; [eauto|].
    intros dt (d' & m' & y' & H' & _)%birthday_text_splits.
    eapply format_regex_match_None; eauto.
Qed.

End Strptime.

Section BirthdayTexts.

Lemma ascii_decimal (c : Z) :
  48 <= c <= 57 ->
  Py_UNICODE_ISDECIMAL c = true /\ Py_UNICODE_TODECIMAL c = Some (c - 48).
Proof.
  intros H. unfold Py_UNICODE_ISDECIMAL, Py_UNICODE_TODECIMAL, in_ranges,
    DECIMAL_RANGES.
  cbn [existsb find fst snd].
  rewrite (proj2 (in_range_spec 48 57 c) H). split; [reflexivity|].
  f_equal. apply Z.mod_small. lia.
Qed.

Lemma int_two_digits (c1 c2 : Z) :
  48 <= c1 <= 57 -> 48 <= c2 <= 57 ->
  int [c1; c2] = Return (10 * digit_value c1 + digit_value c2).
Proof.
  intros H1 H2. unfold int, strip, digit_value. simpl.
  rewrite (proj2 (Z.eqb_neq c1 32)) by lia. simpl.
  rewrite (proj2 (Z.eqb_neq c2 32)) by lia. simpl.
  rewrite (proj2 (ascii_decimal c1 H1)), (proj2 (ascii_decimal c2 H2)).
  f_equal; lia.
Qed.

Lemma int_four_digits (c1 c2 c3 c4 : Z) :
  48 <= c1 <= 57 -> 48 <= c2 <= 57 -> 48 <= c3 <= 57 -> 48 <= c4 <= 57 ->
  int [c1; c2; c3; c4]
  = Return (1000 * digit_value c1 + 100 * digit_value c2
            + 10 * digit_value c3 + digit_value c4).
Proof.
  intros H1 H2 H3 H4. unfold int, strip, digit_value. simpl.
  rewrite (proj2 (Z.eqb_neq c1 32)) by lia. simpl.
  rewrite (proj2 (Z.eqb_neq c4 32)) by lia. simpl.
  rewrite (proj2 (ascii_decimal c1 H1)), (proj2 (ascii_decimal c2 H2)),
    (proj2 (ascii_decimal c3 H3)), (proj2 (ascii_decimal c4 H4)).
  f_equal; lia.
Qed.

Lemma days_in_month_le_31 (y m : Z) : 1 <= m <= 12 -> days_in_month y m <= 31.
Proof.
  intros H. unfold days_in_month.
  assert (m = 1 \/ m = 2 \/ m = 3 \/ m = 4 \/ m = 5 \/ m = 6 \/ m = 7
          \/ m = 8 \/ m = 9 \/ m = 10 \/ m = 11 \/ m = 12) as Hm by lia.
  repeat (destruct Hm as [->|Hm]); [..|subst m];
    destruct (is_leap y); simpl; lia.
Qed.

(** A text in the format of the specification is one the parser reads. *)
Lemma DD_MM_YYYY_birthday_text (s : str) (dt : date) :
  DD_MM_YYYY s dt -> birthday_text s dt.
Proof.
  intros (d1 & d2 & m1 & m2 & y1 & y2 & y3 & y4 & -> & HF & Hd & Hm & Hy & Hok).
  repeat (apply Forall_cons in HF as [? HF]).
  pose proof Hok as Hok'. apply date_ok_spec in Hok'.
  destruct Hok' as (Hyr & Hmr & Hdr).
  pose proof (days_in_month_le_31 (year dt) (month dt) Hmr) as H31.
  unfold digit_value in Hd, Hm, Hy.
  exists [d1; d2], [m1; m2], [y1; y2; y3; y4].
  split; [reflexivity|]. split; [|split; [|split; [|split; [|split; [|split]]]]].
  - assert (d1 = 48 \/ d1 = 49 \/ d1 = 50 \/ d1 = 51) as [-> | [-> | [-> | ->]]] by lia.
    + apply day_zero_padded. lia.
    + apply day_tens; [lia | now apply ascii_decimal].
    + apply day_tens; [lia | now apply ascii_decimal].
    + apply day_thirties. lia.
  - assert (m1 = 48 \/ m1 = 49) as [-> | ->] by lia.
    + apply month_zero_padded. lia.
    + apply month_tens. lia.
  - split; [reflexivity|].
    repeat constructor; now apply ascii_decimal.
  - rewrite Hd. now apply int_two_digits.
  - rewrite Hm. now apply int_two_digits.
  - rewrite Hy. now apply int_four_digits.
  - exact Hok.
Qed.

Lemma birthday_text_functional (s : str) (dt dt' : date) :
  birthday_text s dt -> birthday_text s dt' -> dt = dt'.
Proof.
  intros (d & m & y & H & Hd & Hm & Hy & _)%birthday_text_splits
         (d' & m' & y' & H' & Hd' & Hm' & Hy' & _)%birthday_text_splits.
  destruct (splits_as_unique _ _ _ _ _ _ _ _ _ H H') as (<- & <- & <- & _).
  destruct dt, dt'. simpl in *. congruence.
Qed.

End BirthdayTexts.

(** C2, as the specification states it, fails: the text 1.1.2024 is not in
    the format DD.MM.YYYY, and [Birthday] accepts it. *)
Lemma validate_birthday_accepts_short_day :
  Birthday.validate_birthday (str_of_string "1.1.2024") = Return (mkdate 2024 1 1)
  /\ ~ (exists dt, DD_MM_YYYY (str_of_string "1.1.2024") dt).
Proof.
  split; [reflexivity|].
  intros (dt & d1 & d2 & m1 & m2 & y1 & y2 & y3 & y4 & H & _). discriminate.
Qed.


(* ===================================================================== *)
(** * Record: the identities of the Phone objects *)
(* ===================================================================== *)

Section Identities.

Implicit Types (l : list Phone.t) (p q : Phone.t).

Lemma NoDup_oid_inj l p q :
  NoDup (map Phone.oid l) -> In p l -> In q l ->
  Phone.oid p = Phone.oid q -> p = q.
Proof.
  induction l as [|x l IH]; simpl; intros Hd Hp Hq Heq; [contradiction|].
  apply NoDup_cons in Hd. destruct Hd as [Hx Hd].
  assert (forall y, In y l -> Phone.oid y <> Phone.oid x) as Hne.
  { intros y Hy E. apply Hx. rewrite <- E.
    apply list_elem_of_In, in_map. exact Hy. }
  destruct Hp as [->|Hp], Hq as [->|Hq]; trivial.
  - exfalso. apply (Hne q Hq). congruence.
  - exfalso. apply (Hne p Hp). congruence.
  - now apply IH.
Qed.

Lemma one_value_per_object_intro l :
  (forall p q, In p l -> In q l ->
     Phone.oid p = Phone.oid q -> Phone.value p = Phone.value q) ->
  one_value_per_object l = true.
Proof.
  intros H. unfold one_value_per_object.
  apply forallb_forall. intros p Hp. apply forallb_forall. intros q Hq.
  unfold Phone.eq. destruct (Nat.eqb_spec (Phone.oid p) (Phone.oid q)) as [E|E];
    simpl; [|reflexivity].
  apply str_eqb_eq. now apply H.
Qed.

Lemma ids_fresh_one_value (st : Record_.state) :
  ids_fresh st -> one_value_per_object (Record_.phones (Record_.self st)) = true.
Proof.
  intros [_ Hd]. apply one_value_per_object_intro.
  intros p q Hp Hq E. now rewrite (NoDup_oid_inj _ p q Hd Hp Hq E).
Qed.

Lemma list_remove_delete {A} (eq : A -> A -> bool) (x : A) (l r : list A) :
  list_remove eq x l = Return r -> exists j, r = delete j l.
Proof.
  revert r. induction l as [|y l IH]; simpl; intros r Hr; [discriminate|].
  destruct (eq y x).
  - injection Hr as <-. now exists O.
  - destruct (list_remove eq x l) as [r'|e]; [|discriminate].
    injection Hr as <-. destruct (IH r' eq_refl) as [j ->]. now exists (S j).
Qed.

Lemma NoDup_insert_fresh (ids : list nat) (i n : nat) :
  NoDup ids -> Forall (fun k => (k < n)%nat) ids -> NoDup (<[i := n]> ids).
Proof.
  revert i. induction ids as [|a ids IH]; intros i Hd Hlt; [exact Hd|].
  apply NoDup_cons in Hd. destruct Hd as [Ha Hd].
  apply Forall_cons in Hlt. destruct Hlt as [Han Hlt].
  destruct i as [|i]; simpl.
  - apply NoDup_cons. split; [|exact Hd].
    intros Hn. rewrite Forall_forall in Hlt. apply Hlt in Hn. lia.
  - apply NoDup_cons. split; [|now apply IH].
    intros Hin. apply list_elem_of_lookup in Hin. destruct Hin as [j Hj].
    destruct (decide (i = j)) as [<-|Hne].
    + destruct (decide (i < length ids)%nat) as [Hi|Hi].
      * rewrite list_lookup_insert_eq in Hj by exact Hi. injection Hj as <-. lia.
      * rewrite list_insert_ge in Hj by lia.
        apply Ha. eapply list_elem_of_lookup_2; eauto.
    + rewrite list_lookup_insert_ne in Hj by exact Hne.
      apply Ha. eapply list_elem_of_lookup_2; eauto.
Qed.

(** The identities stay distinct under the methods of Record, so two
    entries of a phone list never are the same object with two values. *)
Lemma ids_fresh_kept :
  (forall name n, ids_fresh (Record_.mkState (Record_.init name) n))
  /\ (forall st, ids_fresh st ->
        (forall phone, ids_fresh (snd (Record_.add_phone phone st)))
        /\ (forall old_phone new_phone,
              ids_fresh (snd (Record_.edit_phone old_phone new_phone st)))
        /\ (forall phone, ids_fresh (snd (Record_.remove_phone phone st)))
        /\ (forall birthday, ids_fresh (snd (Record_.add_birthday birthday st)))).
Proof.
  split.
  - intros name n. split; constructor.
  - intros [[nm l bd] n] [Hlt Hd]. unfold ids_fresh in *. simpl in *.
    split; [|split; [|split]].
    + intros phone.
      unfold Record_.add_phone, Record_.Phone_new, Record_.get_phones,
        Record_.set_phones, Phone.init, bind, obind. simpl.
      destruct (Phone.validate_phone phone) as [v|e]; simpl; [|now split].
      split.
      * apply Forall_app. split.
        -- eapply Forall_impl; [exact Hlt|]. simpl. intros; lia.
        -- repeat constructor; simpl; lia.
      * rewrite map_app. simpl. apply NoDup_app. split; [exact Hd|]. split.
        -- intros k Hk [->|[]]%list_elem_of_In.
           apply list_elem_of_In, in_map_iff in Hk. destruct Hk as (p & Hp & Hin).
           rewrite Forall_forall in Hlt.
           apply list_elem_of_In, Hlt in Hin. lia.
        -- apply NoDup_singleton.
    + intros old_phone new_phone.
      unfold Record_.edit_phone, Record_.find_phone, Record_.Phone_new,
        Record_.get_phones, Record_.set_phones, Phone.init, bind, lift, obind.
      simpl.
      destruct (Record_.find_phone_loop old_phone l) as [p|e] eqn:Ef; simpl;
        [|now split].
      destruct (Phone.validate_phone new_phone) as [v|e]; simpl; [|now split].
      apply find_phone_loop_member in Ef. destruct Ef as [Hp _].
      destruct (list_index_member l p Hp) as (i & -> & Hi).
      unfold list_setitem. rewrite (proj2 (Nat.ltb_lt _ _) Hi). simpl. split.
      * apply Forall_insert; [|simpl; lia].
        eapply Forall_impl; [exact Hlt|]. simpl. intros; lia.
      * change (map Phone.oid (<[i:=Phone.mk n v]> l))
          with (Phone.oid <$> <[i:=Phone.mk n v]> l).
        rewrite list_fmap_insert. simpl.
        apply NoDup_insert_fresh; [exact Hd|].
        rewrite Forall_fmap. exact Hlt.
    + intros phone.
      unfold Record_.remove_phone, Record_.find_phone, Record_.get_phones,
        Record_.set_phones, bind, lift. simpl.
      destruct (Record_.find_phone_loop phone l) as [p|e]; simpl; [|now split].
      destruct (list_remove Phone.eq p l) as [r|e] eqn:Er; simpl; [|now split].
      apply list_remove_delete in Er. destruct Er as [j ->]. split.
      * now apply Forall_delete.
      * change (map Phone.oid (delete j l)) with (Phone.oid <$> delete j l).
        rewrite list_fmap_delete.
        exact (sublist_NoDup _ _ Hd (sublist_delete _ _)).
    + intros birthday.
      unfold Record_.add_birthday, Record_.set_birthday, bind, lift. simpl.
      destruct (Birthday.validate_birthday birthday); simpl; now split.
Qed.

End Identities.

(* ===================================================================== *)
(** * Instances *)
(* ===================================================================== *)

(** Editing the first of two equal phones of [three_phones]. *)
Lemma edit_phone_atomic_witness :
  exists st',
    Record_.edit_phone (str_of_string "1234567890") (str_of_string "1111111111")
      three_phones = (Return tt, st')
    /\ values st'
       = map str_of_string ["1111111111"; "0000000000"; "1234567890"]%string.
Proof.
  destruct (proj2 (proj2 (edit_phone_atomic three_phones
              (str_of_string "1234567890") (str_of_string "1111111111"))))
    as (st' & j & He & Hj & Hfirst & Hv & _).
  - reflexivity.
  - vm_compute. auto.
  - split; [reflexivity | repeat constructor].
  - exists st'. split; [exact He|].
    destruct j as [|j].
    + rewrite Hv. reflexivity.
    + exfalso. apply (Hfirst O); [lia | reflexivity].
Defined.

(** Removing a phone [three_phones] holds twice: the later one stays. *)
Lemma remove_phone_first_match_witness :
  exists st',
    Record_.remove_phone (str_of_string "1234567890") three_phones
    = (Return tt, st')
    /\ values st' = map str_of_string ["0000000000"; "1234567890"]%string.
Proof.
  destruct (proj2 (remove_phone_first_match three_phones
              (str_of_string "1234567890")))
    as (st' & j & He & Hj & Hfirst & Hv & _).
  - reflexivity.
  - vm_compute. auto.
  - exists st'. split; [exact He|].
    destruct j as [|j].
    + rewrite Hv. reflexivity.
    + exfalso. apply (Hfirst O); [lia | reflexivity].
Defined.

(** A failed edit of [three_phones] leaves validated phones. *)
Lemma phones_always_validated_witness :
  phones_validated three_phones
  /\ phones_validated
       (snd (Record_.edit_phone (str_of_string "0000000000")
               (str_of_string "12345") three_phones)).
Proof.
  assert (phones_validated three_phones) as H.
  { repeat constructor. }
  split; [exact H|].
  apply (proj2 phones_always_validated three_phones H).
Defined.

(** [two_records] has one record per name. *)
Lemma two_records_invariant : one_record_per_name two_records.
Proof.
  unfold one_record_per_name. vm_compute.
  repeat constructor; rewrite ?list_elem_of_In; simpl; intuition discriminate.
Qed.

(** Two records named Bob added to [two_records]: the second one stays. *)
Lemma add_record_last_write_wins_witness :
  entries_for (str_of_string "Bob")
    (snd (AddressBook.add_record
            (Record_.mk (str_of_string "Bob") [] (Some (mkdate 1990 3 15)))
            (snd (AddressBook.add_record
                    (Record_.mk (str_of_string "Bob") [] None) two_records))))
  = [Record_.mk (str_of_string "Bob") [] (Some (mkdate 1990 3 15))].
Proof.
  apply (proj1 (proj2 add_record_last_write_wins) two_records
           (Record_.mk (str_of_string "Bob") [] None)
           (Record_.mk (str_of_string "Bob") [] (Some (mkdate 1990 3 15)))).
  - exact two_records_invariant.
  - reflexivity.
Defined.

(** Deleting Ann from [two_records] leaves Bob. *)
Lemma delete_spec_witness :
  exists data',
    AddressBook.delete (str_of_string "Ann") two_records = (Return tt, data')
    /\ AddressBook.find (str_of_string "Ann") data' = None
    /\ AddressBook.find (str_of_string "Bob") data'
       = Some (Record_.init (str_of_string "Bob")).
Proof.
  destruct (proj2 (delete_spec two_records (str_of_string "Ann"))
              two_records_invariant (Record_.init (str_of_string "Ann")))
    as (data' & Hd & Hn & Ho & _).
  - reflexivity.
  - exists data'. split; [exact Hd|]. split; [exact Hn|].
    rewrite Ho; [reflexivity | discriminate].
Defined.

(** A birthday on 29.02.2000, asked in 2023. *)
Lemma days_to_birthday_feb29_raises_witness :
  Record_.days_to_birthday (mkdate 2023 3 10)
    (Record_.mk (str_of_string "Bob") [] (Some (mkdate 2000 2 29)))
  = Raise (ValueError "day is out of range for month").
Proof.
  apply (proj2 (days_to_birthday_feb29_raises (mkdate 2023 3 10)
                  (mkdate 2000 2 29)
                  (Record_.mk (str_of_string "Bob") [] (Some (mkdate 2000 2 29)))
                  eq_refl eq_refl eq_refl eq_refl)).
  reflexivity.
Defined.

(* ===================================================================== *)
(** * Record: adding and finding phones, setting the birthday *)
(* ===================================================================== *)

(** X1: [add_phone] appends the string to the phone sequence when it is a
    string of ten digits and changes nothing else; otherwise it raises the
    error of the validation and leaves the record as it was. *)
Theorem add_phone_spec (st : Record_.state) (phone : str) :
  (ten_digits phone ->
     exists st',
       Record_.add_phone phone st = (Return tt, st')
       /\ values st' = values st ++ [phone]
       /\ Record_.name (Record_.self st') = Record_.name (Record_.self st)
       /\ Record_.birthday (Record_.self st') = Record_.birthday (Record_.self st))
  /\ (forall e, Phone.validate_phone phone = Raise e ->
        ValidationError e /\ Record_.add_phone phone st = (Raise e, st)).
Proof.
  destruct st as [[nm l bd] n]. unfold values.
  unfold Record_.add_phone, Record_.Phone_new, Record_.get_phones,
    Record_.set_phones, Phone.init, bind, obind. simpl.
  pose proof (validate_phone_cases phone) as Hc. split.
  - intros Hok.
    destruct Hc as [[Hl _]|[(_ & Hd & _)|(_ & ->)]];
      [destruct Hok; contradiction | destruct Hok; contradiction |].
    simpl. eexists. split; [reflexivity|]. simpl.
    now rewrite map_app.
  - intros e He. rewrite He. split; [|reflexivity].
    unfold ValidationError.
    destruct Hc as [[_ Hr]|[(_ & _ & Hr)|(_ & Hr)]]; rewrite Hr in He;
      [injection He as <-; auto | injection He as <-; auto | discriminate].
Qed.

(** X2: [find_phone] never changes the record; it raises NotFound when no
    stored phone has the value, and otherwise returns the first stored
    Phone object with that value. *)
Theorem find_phone_spec (st : Record_.state) (phone : str) :
  snd (Record_.find_phone phone st) = st
  /\ (~ In phone (values st) ->
        fst (Record_.find_phone phone st) = Raise PhoneNotFound)
  /\ (In phone (values st) ->
        exists j p,
          fst (Record_.find_phone phone st) = Return p
          /\ Record_.phones (Record_.self st) !! j = Some p
          /\ Phone.value p = phone
          /\ forall i, (i < j)%nat -> values st !! i <> Some phone).
Proof.
  destruct st as [[nm l bd] n]. unfold values.
  unfold Record_.find_phone, Record_.get_phones, bind, lift. simpl.
  split; [|split].
  - now destruct (Record_.find_phone_loop phone l).
  - intros Hn. now rewrite find_phone_loop_absent.
  - intros Hin.
    destruct (find_phone_loop_present _ _ Hin) as (j & p & -> & Hj & Hv & Hlt).
    exists j, p. repeat split; trivial. now apply values_before.
Qed.

Lemma validate_birthday_Return (s : str) (dt : date) :
  Birthday.validate_birthday s = Return dt <-> birthday_text s dt.
Proof.
  pose proof (strptime_date_spec s) as Hs. unfold Birthday.validate_birthday.
  destruct (strptime_date s) as [dt0|e0].
  - split; [now intros [= <-]|].
    intros H. f_equal. eapply birthday_text_functional; eauto.
  - destruct Hs as [[msg ->] Hno].
    split; [discriminate | intros H; now apply Hno in H].
Qed.

Lemma validate_birthday_Raise (s : str) (e : exn) :
  Birthday.validate_birthday s = Raise e ->
  e = ValueError "Invalid date format. Use DD.MM.YYYY"
  /\ forall dt, ~ birthday_text s dt.
Proof.
  pose proof (strptime_date_spec s) as Hs. unfold Birthday.validate_birthday.
  destruct (strptime_date s) as [dt0|e0]; [discriminate|].
  destruct Hs as [[msg ->] Hno]. intros [= <-]. auto.
Qed.

(** X3: [add_birthday] with a text that writes a date sets the birthday to that
    date, whatever it was before, and leaves name and phones alone; with
    any other text it raises the error that names the format and leaves the
    record as it was. *)
Theorem add_birthday_spec (st : Record_.state) (birthday : str) :
  (forall dt, birthday_text birthday dt ->
     exists st',
       Record_.add_birthday birthday st = (Return tt, st')
       /\ Record_.birthday (Record_.self st') = Some dt
       /\ Record_.phones (Record_.self st') = Record_.phones (Record_.self st)
       /\ Record_.name (Record_.self st') = Record_.name (Record_.self st)
       /\ Record_.next_id st' = Record_.next_id st)
  /\ ((forall dt, ~ birthday_text birthday dt) ->
        Record_.add_birthday birthday st
        = (Raise (ValueError "Invalid date format. Use DD.MM.YYYY"), st)).
Proof.
  unfold Record_.add_birthday, Record_.set_birthday, bind, lift. split.
  - intros dt Hdt. apply validate_birthday_Return in Hdt. rewrite Hdt.
    eexists. split; [reflexivity|]. simpl. auto.
  - intros Hno.
    destruct (Birthday.validate_birthday birthday) as [dt|e] eqn:E.
    + apply validate_birthday_Return in E. now apply Hno in E.
    + apply validate_birthday_Raise in E. destruct E as [-> _]. reflexivity.
Qed.

(** X4: The birthday of a record is always a date of the calendar: a new
    record has none, [add_birthday] stores only dates the constructor of
    [date] accepted, and the phone methods do not touch it. *)
Theorem birthday_always_valid :
  (forall name n, birthday_valid (Record_.mkState (Record_.init name) n))
  /\ (forall st, birthday_valid st ->
        (forall birthday, birthday_valid (snd (Record_.add_birthday birthday st)))
        /\ (forall phone, birthday_valid (snd (Record_.add_phone phone st)))
        /\ (forall old_phone new_phone,
              birthday_valid (snd (Record_.edit_phone old_phone new_phone st)))
        /\ (forall phone, birthday_valid (snd (Record_.remove_phone phone st)))).
Proof.
  split; [intros; exact I|].
  intros [[nm l bd] n] Hst. unfold birthday_valid in *. simpl in *.
  split; [|split; [|split]].
  - intros birthday.
    unfold Record_.add_birthday, Record_.set_birthday, bind, lift.
    destruct (Birthday.validate_birthday birthday) as [dt|e] eqn:E; simpl;
      [|exact Hst].
    apply validate_birthday_Return in E.
    destruct E as (_ & _ & _ & _ & _ & _ & _ & _ & _ & _ & Hok). exact Hok.
  - intros phone.
    unfold Record_.add_phone, Record_.Phone_new, Record_.get_phones,
      Record_.set_phones, bind. simpl.
    now destruct (Phone.init n phone).
  - intros old_phone new_phone.
    unfold Record_.edit_phone, Record_.find_phone, Record_.Phone_new,
      Record_.get_phones, Record_.set_phones, bind, lift. simpl.
    destruct (Record_.find_phone_loop old_phone l) as [p|e]; simpl; [|exact Hst].
    destruct (Phone.init n new_phone) as [q|e]; simpl; [|exact Hst].
    destruct (list_index Phone.eq p l) as [i|e]; simpl; [|exact Hst].
    now destruct (list_setitem i q l).
  - intros phone.
    unfold Record_.remove_phone, Record_.find_phone, Record_.get_phones,
      Record_.set_phones, bind, lift. simpl.
    destruct (Record_.find_phone_loop phone l) as [p|e]; simpl; [|exact Hst].
    now destruct (list_remove Phone.eq p l).
Qed.

(* ===================================================================== *)
(** * Record: more on the days to the next birthday *)
(* ===================================================================== *)

Section DaysToBirthday.

Variables (today b : date) (r : Record_.t).
Hypothesis Hb : Record_.birthday r = Some b.

(** What a returned number is. *)
Lemma days_to_birthday_Return (n : Z) :
  Record_.days_to_birthday today r = Return (Some n) ->
  date_ok (occurrence (year today) b) = true
  /\ ((date_lt (occurrence (year today) b) today = false
       /\ n = date_sub_days (occurrence (year today) b) today)
      \/ (date_lt (occurrence (year today) b) today = true
          /\ date_ok (occurrence (year today + 1) b) = true
          /\ n = date_sub_days (occurrence (year today + 1) b) today)).
Proof.
  unfold Record_.days_to_birthday, date_replace_year, occurrence. rewrite Hb.
  destruct (date_new (year today) (month b) (day b)) as [d1|e] eqn:E1; simpl;
    [|discriminate].
  apply date_new_Return in E1. destruct E1 as [-> Hok1].
  destruct (date_lt (mkdate (year today) (month b) (day b)) today) eqn:Elt.
  - simpl.
    destruct (date_new (year today + 1) (month b) (day b)) as [d2|e] eqn:E2;
      simpl; [|discriminate].
    apply date_new_Return in E2. destruct E2 as [-> Hok2].
    intros [= <-]. split; [exact Hok1|]. right. auto.
  - simpl. intros [= <-]. split; [exact Hok1|]. left. auto.
Qed.

Lemma days_to_birthday_raises_ValueError (e : exn) :
  Record_.days_to_birthday today r = Raise e -> exists msg, e = ValueError msg.
Proof.
  unfold Record_.days_to_birthday, date_replace_year. rewrite Hb.
  destruct (date_new (year today) (month b) (day b)) as [d1|e1] eqn:E1; simpl.
  - destruct (date_lt d1 today).
    + destruct (date_new (year today + 1) (month d1) (day d1)) as [d2|e2] eqn:E2;
        simpl; [discriminate|].
      intros [= <-]. now apply date_new_Raise in E2.
    + discriminate.
  - intros [= <-]. now apply date_new_Raise in E1.
Qed.

End DaysToBirthday.

Lemma date_lt_neither (a c : date) :
  date_lt a c = false -> date_lt c a = false -> a = c.
Proof.
  unfold date_lt. destruct a as [y m d], c as [y' m' d']. simpl.
  intros Hlt E.
  apply orb_false_elim in Hlt, E.
  destruct Hlt as [H1 H2], E as [H3 H4].
  apply Z.ltb_ge in H1, H3. assert (y = y') as -> by lia.
  rewrite Z.eqb_refl in H2, H4. simpl in H2, H4.
  apply orb_false_elim in H2, H4.
  destruct H2 as [H5 H6], H4 as [H7 H8].
  apply Z.ltb_ge in H5, H7. assert (m = m') as -> by lia.
  rewrite Z.eqb_refl in H6, H8. simpl in H6, H8.
  apply Z.ltb_ge in H6, H8. f_equal. lia.
Qed.

Lemma date_lt_irrefl (a : date) : date_lt a a = false.
Proof.
  unfold date_lt. rewrite !Z.ltb_irrefl, !Z.eqb_refl. reflexivity.
Qed.

(** The occurrence of this year, when it is today or later, is what the
    call counts the days to. *)
Lemma days_to_birthday_this_year (today b : date) (r : Record_.t) :
  Record_.birthday r = Some b ->
  date_ok (occurrence (year today) b) = true ->
  date_lt (occurrence (year today) b) today = false ->
  Record_.days_to_birthday today r
  = Return (Some (date_sub_days (occurrence (year today) b) today)).
Proof.
  intros Hb Hthis Hlt. unfold Record_.days_to_birthday, date_replace_year.
  rewrite Hb. unfold occurrence in *.
  rewrite (date_new_ok _ _ _ Hthis). simpl. now rewrite Hlt.
Qed.

(** The span from an occurrence to the occurrence of the next year. *)
Lemma occurrence_next_year (y m d : Z) :
  1 <= m <= 12 ->
  ymd2ord (y + 1) m d - ymd2ord y m d <= 366.
Proof.
  intros Hm. unfold ymd2ord. rewrite days_before_year_succ.
  assert (is_leap y = true -> is_leap (y + 1) = false) as Hcons.
  { unfold is_leap. intros H. apply andb_prop in H. destruct H as [H _].
    apply Z.eqb_eq in H.
    assert (((y + 1) mod 4 =? 0) = false) as ->; [|reflexivity].
    apply Z.eqb_neq. Z.to_euclidean_division_equations. lia. }
  unfold days_before_month.
  destruct (2 <? m); simpl;
    destruct (is_leap y) eqn:E1; destruct (is_leap (y + 1)) eqn:E2;
    try (specialize (Hcons eq_refl); discriminate); lia.
Qed.

(** X6: The number [days_to_birthday] returns lies between 0 and 365. *)
Theorem days_to_birthday_range (today b : date) (r : Record_.t) (n : Z) :
  Record_.birthday r = Some b ->
  date_ok today = true ->
  Record_.days_to_birthday today r = Return (Some n) ->
  0 <= n <= 365.
Proof.
  intros Hb Ht Hn.
  destruct (days_to_birthday_Return today b r Hb n Hn) as [Hok [[Hlt ->]|(Hlt & Hok2 & ->)]].
  - pose proof (toordinal_le _ _ Hok Ht Hlt) as Hle.
    unfold date_sub_days. split; [lia|].
    apply date_ok_spec in Hok, Ht. unfold occurrence in *. simpl in *.
    destruct Hok as (_ & Hm & Hd), Ht as (_ & Hm' & Hd').
    unfold toordinal, ymd2ord in *. simpl in *.
    pose proof (year_span (year today) (month b) Hm) as [_ Hs].
    pose proof (year_span (year today) (month today) Hm') as [Hs' _].
    destruct (is_leap (year today)); lia.
  - pose proof (toordinal_lt _ _ Hok Ht Hlt) as Hlt1.
    assert (date_lt today (occurrence (year today + 1) b) = true) as Hlt'.
    { unfold date_lt, occurrence. simpl.
      rewrite (proj2 (Z.ltb_lt _ _)) by lia. reflexivity. }
    pose proof (toordinal_lt _ _ Ht Hok2 Hlt') as Hlt2.
    unfold date_sub_days. split; [lia|].
    apply date_ok_spec in Hok. destruct Hok as (_ & Hm & _).
    pose proof (occurrence_next_year (year today) (month b) (day b) Hm) as Hspan.
    unfold toordinal, occurrence in *. simpl in *. lia.
Qed.

(** X7: The result is 0 exactly when today has the month and day of the
    birthday. *)
Theorem days_to_birthday_zero (today b : date) (r : Record_.t) :
  Record_.birthday r = Some b ->
  date_ok today = true ->
  (Record_.days_to_birthday today r = Return (Some 0)
   <-> month b = month today /\ day b = day today).
Proof.
  intros Hb Ht. split.
  - intros Hn.
    destruct (days_to_birthday_Return today b r Hb 0 Hn)
      as [Hok [[Hlt H0]|(Hlt & Hok2 & H0)]].
    + unfold date_sub_days in H0.
      destruct (date_lt today (occurrence (year today) b)) eqn:E.
      * pose proof (toordinal_lt _ _ Ht Hok E). lia.
      * pose proof (date_lt_neither _ _ Hlt E) as Heq.
        rewrite <- Heq. unfold occurrence. simpl. auto.
    + assert (date_lt today (occurrence (year today + 1) b) = true) as Hlt'.
      { unfold date_lt, occurrence. simpl.
        rewrite (proj2 (Z.ltb_lt _ _)) by lia. reflexivity. }
      pose proof (toordinal_lt _ _ Ht Hok2 Hlt'). unfold date_sub_days in H0. lia.
  - intros [Hm Hd].
    assert (occurrence (year today) b = today) as Heq.
    { unfold occurrence. rewrite Hm, Hd. now destruct today. }
    unfold Record_.days_to_birthday, date_replace_year. rewrite Hb.
    fold (occurrence (year today) b).
    change (date_new (year today) (month b) (day b))
      with (date_new (year (occurrence (year today) b))
              (month (occurrence (year today) b)) (day (occurrence (year today) b))).
    rewrite Heq.
    rewrite (date_new_ok (year today) (month today) (day today))
      by (now destruct today).
    simpl.
    replace (mkdate (year today) (month today) (day today)) with today
      by (now destruct today).
    rewrite date_lt_irrefl. simpl. unfold date_sub_days. do 2 f_equal. lia.
Qed.

(** X8: For a birthday on the 29th of February the call returns a number only
    in a leap year, up to the 29th of February of that year; on every
    other day it raises. *)
Theorem days_to_birthday_leap_day (today b : date) (r : Record_.t) :
  Record_.birthday r = Some b ->
  month b = 2 -> day b = 29 ->
  date_ok today = true ->
  ((exists n, Record_.days_to_birthday today r = Return (Some n))
   <-> is_leap (year today) = true
       /\ date_lt (mkdate (year today) 2 29) today = false)
  /\ ((exists msg, Record_.days_to_birthday today r = Raise (ValueError msg))
      <-> ~ (is_leap (year today) = true
             /\ date_lt (mkdate (year today) 2 29) today = false)).
Proof.
  intros Hb Hm Hd Ht.
  assert (forall y, date_ok (mkdate y 2 29) = true -> is_leap y = true) as Hleap.
  { intros y H. apply date_ok_spec in H. simpl in H.
    unfold days_in_month in H. simpl in H.
    destruct (is_leap y); [reflexivity | simpl in H; lia]. }
  assert ((exists n, Record_.days_to_birthday today r = Return (Some n))
          <-> is_leap (year today) = true
              /\ date_lt (mkdate (year today) 2 29) today = false) as Hiff.
  { split.
    - intros [n Hn].
      destruct (days_to_birthday_Return today b r Hb n Hn)
        as [Hok [[Hlt _]|(Hlt & Hok2 & _)]];
        unfold occurrence in *; rewrite Hm, Hd in *.
      + split; [now apply Hleap | exact Hlt].
      + apply Hleap in Hok, Hok2. exfalso.
        unfold is_leap in Hok, Hok2.
        apply andb_prop in Hok, Hok2. destruct Hok as [H1 _], Hok2 as [H2 _].
        apply Z.eqb_eq in H1, H2. Z.to_euclidean_division_equations. lia.
    - intros [Hl Hlt].
      assert (date_ok (occurrence (year today) b) = true) as Hok.
      { unfold occurrence. rewrite Hm, Hd.
        apply date_ok_spec in Ht. apply date_ok_spec. simpl.
        unfold days_in_month. rewrite Hl. simpl. lia. }
      rewrite (days_to_birthday_this_year today b r Hb Hok); [eauto|].
      unfold occurrence. now rewrite Hm, Hd. }
  split; [exact Hiff|].
  split.
  - intros [msg Hr] Hc. apply Hiff in Hc. destruct Hc as [n Hn]. congruence.
  - intros Hc.
    destruct (Record_.days_to_birthday today r) as [[n|]|e] eqn:E.
    + exfalso. apply Hc, Hiff. eauto.
    + unfold Record_.days_to_birthday in E. rewrite Hb in E.
      destruct (date_replace_year b (year today)) as [d1|e1]; simpl in E;
        [|discriminate].
      destruct (if date_lt d1 today then date_replace_year d1 (year today + 1)
                else Return d1); discriminate.
    + destruct (days_to_birthday_raises_ValueError today b r Hb e E) as [msg ->].
      eauto.
Qed.

(* ===================================================================== *)
(** * AddressBook: order, round trip, keys, blocked queries *)
(* ===================================================================== *)

Section DictMore.

Context {V : Type}.
Implicit Types (d : dict V) (k : str) (v : V).

Lemma dict_setitem_absent d k v :
  ~ In k (map fst d) -> dict_setitem k v d = d ++ [(k, v)].
Proof.
  induction d as [|[k' v'] d IH]; simpl; intros Hn; [reflexivity|].
  rewrite (proj2 (str_eqb_neq k' k)) by tauto. f_equal. apply IH. tauto.
Qed.

Lemma dict_delitem_last d k v :
  ~ In k (map fst d) -> dict_delitem k (d ++ [(k, v)]) = Return d.
Proof.
  induction d as [|[k' v'] d IH]; simpl; intros Hn.
  - unfold str_eqb. now rewrite bool_decide_eq_true_2.
  - rewrite (proj2 (str_eqb_neq k' k)) by tauto. rewrite IH by tauto. reflexivity.
Qed.

Lemma dict_setitem_same d k v :
  dict_get d k = Some v -> dict_setitem k v d = d.
Proof.
  induction d as [|[k' v'] d IH]; simpl; [discriminate|].
  destruct (str_eqb k' k) eqn:E.
  - now intros [= ->].
  - intros H. f_equal. now apply IH.
Qed.

Lemma dict_get_In d k v : dict_get d k = Some v -> In (k, v) d.
Proof.
  induction d as [|[k' v'] d IH]; simpl; [discriminate|].
  destruct (str_eqb k' k) eqn:E.
  - apply str_eqb_eq in E. subst k'. intros [= ->]. now left.
  - intros H. right. now apply IH.
Qed.

Lemma dict_setitem_Forall (P : str * V -> Prop) d k v :
  Forall P d -> P (k, v) -> Forall P (dict_setitem k v d).
Proof.
  intros Hd Hkv. induction d as [|[k' v'] d IH]; simpl.
  - now repeat constructor.
  - apply Forall_cons in Hd. destruct Hd as [Hh Hd].
    destruct (str_eqb k' k) eqn:E.
    + apply str_eqb_eq in E. subst k'. now constructor.
    + constructor; [exact Hh | now apply IH].
Qed.

Lemma dict_delitem_Forall (P : str * V -> Prop) d d' k :
  Forall P d -> dict_delitem k d = Return d' -> Forall P d'.
Proof.
  revert d'. induction d as [|[k' v'] d IH]; simpl; intros d' Hd Hr;
    [discriminate|].
  apply Forall_cons in Hd. destruct Hd as [Hh Hd].
  destruct (str_eqb k' k).
  - now injection Hr as <-.
  - destruct (dict_delitem k d) as [r|e]; [|discriminate].
    injection Hr as <-. constructor; [exact Hh | now apply IH].
Qed.

End DictMore.

(** X11: Adding a record under a name the book has keeps the order of the
    names; under a new name it puts the record at the end. *)
Theorem add_record_order (data : AddressBook.t) (r : Record_.t) :
  (In (Record_.name r) (names data) ->
     names (snd (AddressBook.add_record r data)) = names data)
  /\ (~ In (Record_.name r) (names data) ->
        snd (AddressBook.add_record r data) = data ++ [(Record_.name r, r)]).
Proof.
  unfold AddressBook.add_record, names. simpl. split.
  - intros Hin. rewrite dict_setitem_keys.
    now rewrite (proj2 (dict_contains_In data (Record_.name r)) Hin).
  - intros Hn. now apply dict_setitem_absent.
Qed.

(** X12: Deleting a record that was just added under a new name gives back the
    book as it was. *)
Theorem add_record_delete (data : AddressBook.t) (r : Record_.t) :
  ~ In (Record_.name r) (names data) ->
  AddressBook.delete (Record_.name r) (snd (AddressBook.add_record r data))
  = (Return tt, data).
Proof.
  unfold AddressBook.add_record, AddressBook.delete, names. simpl. intros Hn.
  rewrite (dict_setitem_absent data _ r Hn).
  assert (dict_contains (data ++ [(Record_.name r, r)]) (Record_.name r) = true)
    as ->.
  { apply dict_contains_In. rewrite map_app. apply in_or_app. right. now left. }
  now rewrite dict_delitem_last.
Qed.

(** X13: Every record of a book is stored under its own name: [add_record] and
    [delete] keep it so, and what [find] returns for a name is a record of
    that name. *)
Theorem records_keyed_by_name :
  keyed_by_name []
  /\ (forall data, keyed_by_name data ->
        (forall r, keyed_by_name (snd (AddressBook.add_record r data)))
        /\ (forall name, keyed_by_name (snd (AddressBook.delete name data)))
        /\ (forall name r, AddressBook.find name data = Some r ->
              Record_.name r = name)).
Proof.
  unfold keyed_by_name. split; [constructor|].
  intros data Hd. split; [|split].
  - intros r. unfold AddressBook.add_record. simpl.
    apply dict_setitem_Forall; trivial.
  - intros name. unfold AddressBook.delete.
    destruct (dict_contains data name); [|exact Hd].
    destruct (dict_delitem name data) as [d'|e] eqn:E; simpl; [|exact Hd].
    eapply dict_delitem_Forall; eauto.
  - intros name r Hf. unfold AddressBook.find in Hf.
    apply dict_get_In in Hf. rewrite Forall_forall in Hd.
    apply list_elem_of_In, Hd in Hf. simpl in Hf. congruence.
Qed.

Lemma upcoming_loop_raises (today : date) (days : Z)
    (records acc : list Record_.t) (r : Record_.t) (e : exn) :
  In r records -> Record_.birthday r <> None ->
  Record_.days_to_birthday today r = Raise e ->
  exists e', AddressBook.upcoming_loop today days records acc = Raise e'.
Proof.
  revert acc. induction records as [|x records IH]; intros acc Hin Hb He;
    [contradiction|].
  simpl. destruct Hin as [->|Hin].
  - destruct (Record_.birthday r); [|contradiction]. rewrite He. eauto.
  - destruct (Record_.birthday x); [|now apply IH].
    destruct (Record_.days_to_birthday today x) as [[n|]|e0]; [| |eauto].
    + destruct (n <=? days); now apply IH.
    + now apply IH.
Qed.

Lemma upcoming_loop_ValueError (today : date) (days : Z)
    (records acc : list Record_.t) (e : exn) :
  AddressBook.upcoming_loop today days records acc = Raise e ->
  exists msg, e = ValueError msg.
Proof.
  revert acc. induction records as [|x records IH]; intros acc; simpl;
    [discriminate|].
  destruct (Record_.birthday x) as [b|] eqn:Eb; [|apply IH].
  destruct (Record_.days_to_birthday today x) as [[n|]|e0] eqn:Ed.
  - destruct (n <=? days); apply IH.
  - apply IH.
  - intros [= <-]. eapply days_to_birthday_raises_ValueError; eauto.
Qed.

(** X10: One record for which [days_to_birthday] raises blocks the whole query:
    [get_upcoming_birthdays] then raises a ValueError and returns no list,
    whatever the other records are. *)
Theorem get_upcoming_birthdays_blocked (today : date) (days : Z)
    (data : AddressBook.t) (r : Record_.t) (e : exn) :
  In r (dict_values data) ->
  Record_.birthday r <> None ->
  Record_.days_to_birthday today r = Raise e ->
  exists msg,
    AddressBook.get_upcoming_birthdays today days data = Raise (ValueError msg).
Proof.
  intros Hin Hb He. unfold AddressBook.get_upcoming_birthdays.
  destruct (upcoming_loop_raises today days _ [] r e Hin Hb He) as [e' He'].
  destruct (upcoming_loop_ValueError _ _ _ _ _ He') as [msg ->]. eauto.
Qed.

(* ===================================================================== *)
(** * Birthday: shown and read again *)
(* ===================================================================== *)

Section ShownDates.

Lemma two_digits_spec (n : Z) :
  0 <= n <= 99 ->
  exists c1 c2,
    Text.two_digits n = [c1; c2] /\ 48 <= c1 <= 57 /\ 48 <= c2 <= 57
    /\ n = 10 * digit_value c1 + digit_value c2.
Proof.
  intros H. unfold Text.two_digits, digit_value.
  exists (48 + n / 10), (48 + n mod 10). split; [reflexivity|].
  Z.to_euclidean_division_equations. lia.
Qed.

Lemma year_digits_spec (y : Z) :
  1000 <= y <= 9999 ->
  exists c1 c2 c3 c4,
    Text.year_digits y = [c1; c2; c3; c4]
    /\ 48 <= c1 <= 57 /\ 48 <= c2 <= 57 /\ 48 <= c3 <= 57 /\ 48 <= c4 <= 57
    /\ y = 1000 * digit_value c1 + 100 * digit_value c2
           + 10 * digit_value c3 + digit_value c4.
Proof.
  intros H. unfold Text.year_digits, digit_value.
  rewrite (proj2 (Z.ltb_ge y 10)) by lia.
  rewrite (proj2 (Z.ltb_ge y 100)) by lia.
  rewrite (proj2 (Z.ltb_ge y 1000)) by lia.
  exists (48 + y / 1000), (48 + y / 100 mod 10), (48 + y / 10 mod 10),
    (48 + y mod 10).
  split; [reflexivity|]. Z.to_euclidean_division_equations. lia.
Qed.

(** What [strftime] prints for a date from the year 1000 on is a text in
    the format DD.MM.YYYY that writes the date. *)
Lemma strftime_DD_MM_YYYY (d : date) :
  date_ok d = true -> 1000 <= year d -> DD_MM_YYYY (Text.strftime d) d.
Proof.
  intros Hok Hy. pose proof Hok as Hok'. apply date_ok_spec in Hok'.
  destruct Hok' as (Hyr & Hm & Hd).
  pose proof (days_in_month_le_31 (year d) (month d) Hm) as H31.
  destruct (two_digits_spec (day d) ltac:(lia)) as (d1 & d2 & Ed & ? & ? & Hdv).
  destruct (two_digits_spec (month d) ltac:(lia)) as (m1 & m2 & Em & ? & ? & Hmv).
  destruct (year_digits_spec (year d) ltac:(lia))
    as (y1 & y2 & y3 & y4 & Ey & ? & ? & ? & ? & Hyv).
  exists d1, d2, m1, m2, y1, y2, y3, y4.
  unfold Text.strftime. rewrite Ed, Em, Ey.
  split; [reflexivity|]. split; [repeat constructor; lia|]. auto.
Qed.

End ShownDates.

(** X14: A date shown with [strftime] and read again by [Birthday] is the same
    date, for every date of the calendar from the year 1000 on: what
    [show_birthday] and [Record.__str__] print can be given to
    [add_birthday]. *)
Theorem strftime_then_parse (d : date) :
  date_ok d = true -> 1000 <= year d ->
  Birthday.validate_birthday (Text.strftime d) = Return d.
Proof.
  intros Hok Hy. apply validate_birthday_Return, DD_MM_YYYY_birthday_text.
  now apply strftime_DD_MM_YYYY.
Qed.

Lemma DD_MM_YYYY_strftime (s : str) (dt : date) :
  DD_MM_YYYY s dt -> 1000 <= year dt -> Text.strftime dt = s.
Proof.
  intros (d1 & d2 & m1 & m2 & y1 & y2 & y3 & y4 & -> & HF & Hd & Hm & Hy & Hok) Hy1000.
  repeat (apply Forall_cons in HF as [? HF]).
  unfold Text.strftime, Text.two_digits, Text.year_digits.
  rewrite (proj2 (Z.ltb_ge (year dt) 10)) by lia.
  rewrite (proj2 (Z.ltb_ge (year dt) 100)) by lia.
  rewrite (proj2 (Z.ltb_ge (year dt) 1000)) by lia.
  rewrite Hd, Hm, Hy. unfold digit_value. simpl.
  repeat f_equal; Z.to_euclidean_division_equations; lia.
Qed.

(** X15: A text in the format DD.MM.YYYY, year 1000 or later, is shown as it
    was written: [Birthday] accepts it, and [strftime] of the date it then
    holds is the text. *)
Theorem parse_then_strftime (s : str) (dt : date) :
  DD_MM_YYYY s dt -> 1000 <= year dt ->
  Birthday.validate_birthday s = Return dt /\ Text.strftime dt = s.
Proof.
  intros H Hy. split.
  - now apply validate_birthday_Return, DD_MM_YYYY_birthday_text.
  - now apply DD_MM_YYYY_strftime.
Qed.

(** X16: The 29th of February, written 29.02.YYYY, is accepted exactly for the
    leap years. *)
Theorem validate_birthday_leap_day (y1 y2 y3 y4 : Z) :
  Forall (fun c => 48 <= c <= 57) [y1; y2; y3; y4] ->
  1 <= 1000 * digit_value y1 + 100 * digit_value y2
       + 10 * digit_value y3 + digit_value y4 ->
  let Y := 1000 * digit_value y1 + 100 * digit_value y2
           + 10 * digit_value y3 + digit_value y4 in
  let s := [50; 57; 46; 48; 50; 46; y1; y2; y3; y4] in
  (is_leap Y = true -> Birthday.validate_birthday s = Return (mkdate Y 2 29))
  /\ (is_leap Y = false ->
        Birthday.validate_birthday s
        = Raise (ValueError "Invalid date format. Use DD.MM.YYYY")).
Proof.
  intros HF HY Y s.
  pose proof HF as HF'. repeat (apply Forall_cons in HF' as [? HF']).
  assert (1 <= Y <= 9999) as HYr by (unfold Y, digit_value in *; lia).
  split.
  - intros Hl. apply validate_birthday_Return, DD_MM_YYYY_birthday_text.
    exists 50, 57, 48, 50, y1, y2, y3, y4.
    split; [reflexivity|]. split; [repeat constructor; lia|].
    repeat split; try reflexivity.
    apply date_ok_spec. simpl. unfold days_in_month. rewrite Hl. simpl. lia.
  - intros Hl.
    destruct (Birthday.validate_birthday s) as [dt|e] eqn:E.
    + exfalso. apply validate_birthday_Return, birthday_text_splits in E.
      destruct E as (d & m & y & Hs & Hd & Hm & Hy & Hok).
      assert (splits_as s [50; 57] [48; 50] [y1; y2; y3; y4] []) as Hs'.
      { split; [reflexivity|]. split; [apply day_tens; [lia | vm_compute; reflexivity]|].
        split; [apply month_zero_padded; lia|].
        split; [reflexivity|]. repeat constructor; now apply ascii_decimal. }
      destruct (splits_as_unique _ _ _ _ _ _ _ _ _ Hs Hs') as (-> & -> & -> & _).
      rewrite int_two_digits in Hd, Hm by lia.
      rewrite int_four_digits in Hy by lia.
      injection Hd as Hd. injection Hm as Hm. injection Hy as Hy.
      apply date_ok_spec in Hok. unfold days_in_month in Hok.
      rewrite <- Hd, <- Hm, <- Hy in Hok. fold Y in Hok.
      change (10 * digit_value 48 + digit_value 50) with 2 in Hok.
      change (10 * digit_value 50 + digit_value 57) with 29 in Hok.
      rewrite Hl in Hok. simpl in Hok. lia.
    + apply validate_birthday_Raise in E. destruct E as [-> _]. reflexivity.
Qed.

(* ===================================================================== *)
(** * Reading a command line *)
(* ===================================================================== *)

Section Split.

Implicit Types (s acc w : str) (ws : list str).





Lemma split_loop_app acc w s :
  Forall nospace w ->
  Text.split_loop acc (w ++ s) = Text.split_loop (rev w ++ acc) s.
Proof.
  revert acc. induction w as [|c w IH]; intros acc HF; [reflexivity|].
  apply Forall_cons in HF. destruct HF as [Hc HF]. simpl.
  unfold nospace in Hc. rewrite Hc. rewrite IH by exact HF.
  now rewrite <- app_assoc.
Qed.

Lemma split_join ws :
  Forall word ws -> Text.split (command_line ws) = ws.
Proof.
  unfold Text.split, command_line.
  induction ws as [|w ws IH]; intros HF; [reflexivity|].
  apply Forall_cons in HF. destruct HF as [[Hne Hw] HF].
  specialize (IH HF). simpl. destruct ws as [|w' ws].
  - rewrite <- (app_nil_r w) at 1. rewrite split_loop_app by exact Hw.
    rewrite app_nil_r. simpl.
    destruct (rev w) eqn:E.
    + exfalso. apply Hne. apply (f_equal (@rev Z)) in E.
      now rewrite rev_involutive in E.
    + rewrite <- E. now rewrite rev_involutive.
  - rewrite split_loop_app by exact Hw. rewrite app_nil_r.
    change ([32] ++ Text.join [32] (w' :: ws))
      with (32 :: Text.join [32] (w' :: ws)).
    cbn [Text.split_loop].
    change (Text.Py_UNICODE_ISSPACE 32) with true. cbv iota.
    destruct (rev w) eqn:E.
    + exfalso. apply Hne. apply (f_equal (@rev Z)) in E.
      now rewrite rev_involutive in E.
    + rewrite <- E, rev_involutive. f_equal. exact IH.
Qed.

End Split.


(** X18: A command typed as words with one blank between them is read back as
    those words: the first in lower case as the command, the others as
    the arguments. *)
Theorem parse_input_command_line (lower : str -> str)
    (first : str) (args : list str) :
  word first -> Forall word args ->
  Text.parse_input lower (command_line (first :: args))
  = Return (lower first, args).
Proof.
  intros Hf Ha. unfold Text.parse_input.
  rewrite split_join by (now constructor). reflexivity.
Qed.

(* ===================================================================== *)
(** * Commands *)
(* ===================================================================== *)

Section MethodsKeep.

Lemma add_phone_kept (phone : str) (st : Record_.state) :
  kept st (snd (Record_.add_phone phone st)).
Proof.
  unfold kept. split; [|split; [|split; [|split]]].
  - intros Hst. destruct st as [[nm l bd] n].
    unfold Record_.add_phone, Record_.Phone_new, Record_.get_phones,
      Record_.set_phones, bind. simpl.
    destruct (Phone.init n phone) as [p|e] eqn:E; simpl; [|exact Hst].
    apply phones_validated_In. simpl. intros q Hq.
    apply in_app_or in Hq. destruct Hq as [Hq|[<-|[]]].
    + now apply (proj1 (phones_validated_In _) Hst).
    + eapply Phone_init_validated; eauto.
  - intros H. now apply (proj2 ids_fresh_kept st H).
  - destruct st as [[nm l bd] n]. unfold birthday_valid.
    unfold Record_.add_phone, Record_.Phone_new, Record_.get_phones,
      Record_.set_phones, bind. simpl.
    now destruct (Phone.init n phone).
  - destruct st as [[nm l bd] n].
    unfold Record_.add_phone, Record_.Phone_new, Record_.get_phones,
      Record_.set_phones, bind. simpl.
    now destruct (Phone.init n phone).
  - destruct st as [[nm l bd] n].
    unfold Record_.add_phone, Record_.Phone_new, Record_.get_phones,
      Record_.set_phones, bind. simpl.
    destruct (Phone.init n phone); simpl; lia.
Qed.

Lemma edit_phone_kept (old_phone new_phone : str) (st : Record_.state) :
  kept st (snd (Record_.edit_phone old_phone new_phone st)).
Proof.
  unfold kept. split; [|split; [|split; [|split]]].
  - intros Hst. destruct st as [[nm l bd] n].
    unfold Record_.edit_phone, Record_.find_phone, Record_.Phone_new,
      Record_.get_phones, Record_.set_phones, bind, lift. simpl.
    destruct (Record_.find_phone_loop old_phone l) as [p|e] eqn:Ef; simpl;
      [|exact Hst].
    destruct (Phone.init n new_phone) as [q|e] eqn:E; simpl; [|exact Hst].
    apply find_phone_loop_member in Ef. destruct Ef as [Hp _].
    destruct (list_index_member l p Hp) as (i & -> & Hi).
    unfold list_setitem. rewrite (proj2 (Nat.ltb_lt _ _) Hi). simpl.
    unfold phones_validated, values in *. simpl in *.
    rewrite list_fmap_insert. apply Forall_insert; [exact Hst|].
    eapply Phone_init_validated; eauto.
  - intros H. now apply (proj2 ids_fresh_kept st H).
  - destruct st as [[nm l bd] n]. unfold birthday_valid.
    unfold Record_.edit_phone, Record_.find_phone, Record_.Phone_new,
      Record_.get_phones, Record_.set_phones, bind, lift. simpl.
    destruct (Record_.find_phone_loop old_phone l) as [p|e]; simpl; trivial.
    destruct (Phone.init n new_phone) as [q|e]; simpl; trivial.
    destruct (list_index Phone.eq p l) as [i|e]; simpl; trivial.
    now destruct (list_setitem i q l).
  - destruct st as [[nm l bd] n].
    unfold Record_.edit_phone, Record_.find_phone, Record_.Phone_new,
      Record_.get_phones, Record_.set_phones, bind, lift. simpl.
    destruct (Record_.find_phone_loop old_phone l) as [p|e]; simpl; trivial.
    destruct (Phone.init n new_phone) as [q|e]; simpl; trivial.
    destruct (list_index Phone.eq p l) as [i|e]; simpl; trivial.
    now destruct (list_setitem i q l).
  - destruct st as [[nm l bd] n].
    unfold Record_.edit_phone, Record_.find_phone, Record_.Phone_new,
      Record_.get_phones, Record_.set_phones, bind, lift. simpl.
    destruct (Record_.find_phone_loop old_phone l) as [p|e]; simpl; [|lia].
    destruct (Phone.init n new_phone) as [q|e]; simpl; [|lia].
    destruct (list_index Phone.eq p l) as [i|e]; simpl; [|lia].
    destruct (list_setitem i q l); simpl; lia.
Qed.

Lemma add_birthday_kept (birthday : str) (st : Record_.state) :
  kept st (snd (Record_.add_birthday birthday st)).
Proof.
  unfold kept. split; [|split; [|split; [|split]]].
  - destruct st as [[nm l bd] n].
    unfold Record_.add_birthday, Record_.set_birthday, bind, lift. simpl.
    now destruct (Birthday.validate_birthday birthday).
  - intros H. now apply (proj2 ids_fresh_kept st H).
  - destruct st as [[nm l bd] n]. unfold birthday_valid.
    unfold Record_.add_birthday, Record_.set_birthday, bind, lift. simpl.
    destruct (Birthday.validate_birthday birthday) as [dt|e] eqn:E; simpl;
      trivial.
    intros _. apply validate_birthday_Return in E.
    destruct E as (_ & _ & _ & _ & _ & _ & _ & _ & _ & _ & Hok). exact Hok.
  - destruct st as [[nm l bd] n].
    unfold Record_.add_birthday, Record_.set_birthday, bind, lift. simpl.
    now destruct (Birthday.validate_birthday birthday).
  - destruct st as [[nm l bd] n].
    unfold Record_.add_birthday, Record_.set_birthday, bind, lift. simpl.
    destruct (Birthday.validate_birthday birthday); simpl; lia.
Qed.

End MethodsKeep.

Section MethodRuns.

Variables (r : Record_.t) (n : nat).

Lemma add_phone_run (phone : str) :
  (ten_digits phone ->
     Record_.add_phone phone (Record_.mkState r n)
     = (Return tt,
        Record_.mkState
          (Record_.mk (Record_.name r)
             (Record_.phones r ++ [Phone.mk n phone]) (Record_.birthday r))
          (S n)))
  /\ (forall e, Phone.validate_phone phone = Raise e ->
        Record_.add_phone phone (Record_.mkState r n)
        = (Raise e, Record_.mkState r n)).
Proof.
  unfold Record_.add_phone, Record_.Phone_new, Record_.get_phones,
    Record_.set_phones, Phone.init, bind, obind. simpl.
  pose proof (validate_phone_cases phone) as Hc. split.
  - intros Hok.
    destruct Hc as [[Hl _]|[(_ & Hd & _)|(_ & ->)]];
      [destruct Hok; contradiction | destruct Hok; contradiction |].
    reflexivity.
  - intros e ->. reflexivity.
Qed.

Lemma edit_phone_run (old_phone new_phone : str) :
  (~ In old_phone (map Phone.value (Record_.phones r)) ->
     Record_.edit_phone old_phone new_phone (Record_.mkState r n)
     = (Raise PhoneNotFound, Record_.mkState r n))
  /\ (In old_phone (map Phone.value (Record_.phones r)) ->
      forall e, Phone.validate_phone new_phone = Raise e ->
        Record_.edit_phone old_phone new_phone (Record_.mkState r n)
        = (Raise e, Record_.mkState r n))
  /\ (one_value_per_object (Record_.phones r) = true ->
      In old_phone (map Phone.value (Record_.phones r)) ->
      ten_digits new_phone ->
      exists j,
        Record_.edit_phone old_phone new_phone (Record_.mkState r n)
        = (Return tt,
           Record_.mkState
             (Record_.mk (Record_.name r)
                (<[j := Phone.mk n new_phone]> (Record_.phones r))
                (Record_.birthday r))
             (S n))
        /\ map Phone.value (Record_.phones r) !! j = Some old_phone
        /\ (forall i, (i < j)%nat ->
              map Phone.value (Record_.phones r) !! i <> Some old_phone)).
Proof.
  destruct r as [nm l bd]. simpl.
  unfold Record_.edit_phone, Record_.find_phone, Record_.get_phones,
    Record_.Phone_new, Record_.set_phones, Phone.init, bind, lift, obind.
  simpl. split; [|split].
  - intros Hn. now rewrite find_phone_loop_absent.
  - intros Hin e He.
    destruct (find_phone_loop_present _ _ Hin) as (j & p & -> & _).
    now rewrite He.
  - intros Hc Hin Hnew.
    destruct (find_phone_loop_present _ _ Hin) as (j & p & -> & Hj & Hv & Hlt).
    destruct (validate_phone_cases new_phone) as [[Hl _]|[(_ & Hd & _)|(_ & ->)]];
      [destruct Hnew; contradiction | destruct Hnew; contradiction |].
    cbn.
    rewrite (list_index_first l j p (one_value_per_object_spec l Hc) Hj);
      [|now rewrite Hv].
    unfold list_setitem.
    assert (j < length l)%nat as Hlen by (eapply lookup_lt_Some; eauto).
    rewrite (proj2 (Nat.ltb_lt _ _) Hlen).
    exists j. split; [reflexivity|]. split.
    + rewrite <- Hv. now apply values_lookup.
    + now apply values_before.
Qed.

Lemma add_birthday_run (birthday : str) :
  (forall dt, birthday_text birthday dt ->
     Record_.add_birthday birthday (Record_.mkState r n)
     = (Return tt,
        Record_.mkState
          (Record_.mk (Record_.name r) (Record_.phones r) (Some dt)) n))
  /\ (forall e, Birthday.validate_birthday birthday = Raise e ->
        Record_.add_birthday birthday (Record_.mkState r n)
        = (Raise e, Record_.mkState r n)).
Proof.
  unfold Record_.add_birthday, Record_.set_birthday, bind, lift. split.
  - intros dt Hdt. apply validate_birthday_Return in Hdt. now rewrite Hdt.
  - intros e ->. reflexivity.
Qed.

End MethodRuns.

Section CommandLemmas.

Import Commands.

Lemma dict_setitem_last {V} (d : dict V) (k : str) (v v' : V) :
  ~ In k (map fst d) -> dict_setitem k v' (d ++ [(k, v)]) = d ++ [(k, v')].
Proof.
  induction d as [|[k0 v0] d IH]; simpl; intros Hn.
  - unfold str_eqb. now rewrite bool_decide_eq_true_2.
  - rewrite (proj2 (str_eqb_neq k0 k)) by tauto. f_equal. apply IH. tauto.
Qed.

Lemma state_eta (st : state) : mkState (book st) (next_id st) = st.
Proof. now destruct st. Qed.

Lemma record_eta (r : Record_.t) :
  Record_.mk (Record_.name r) (Record_.phones r) (Record_.birthday r) = r.
Proof. now destruct r. Qed.

Lemma ten_digits_len (phone : str) : ten_digits phone -> (len phone =? 0) = false.
Proof. intros [Hl _]. unfold len. rewrite Hl. reflexivity. Qed.

Lemma nonempty_len (phone : str) : phone <> [] -> (len phone =? 0) = false.
Proof.
  intros H. unfold len. destruct phone; [contradiction | reflexivity].
Qed.

End CommandLemmas.

(** X19: [add_contact] with a string of ten digits: for a name the book does not
    have it puts a new record with that one phone at the end of the book
    and replies Contact added; for a name the book has it appends the phone
    to the record, which keeps its place, and replies Contact updated. *)
Theorem add_contact_valid_phone (st : Commands.state)
    (name phone : str) (rest : list str) :
  ten_digits phone ->
  (AddressBook.find name (Commands.book st) = None ->
     Commands.add_contact (name :: phone :: rest) st
     = (str_of_string "Contact added.",
        Commands.mkState
          (Commands.book st
           ++ [(name, Record_.mk name [Phone.mk (Commands.next_id st) phone] None)])
          (S (Commands.next_id st))))
  /\ (forall r, AddressBook.find name (Commands.book st) = Some r ->
        let r' := Record_.mk (Record_.name r)
                    (Record_.phones r ++ [Phone.mk (Commands.next_id st) phone])
                    (Record_.birthday r) in
        Commands.add_contact (name :: phone :: rest) st
        = (str_of_string "Contact updated.",
           Commands.mkState (dict_setitem name r' (Commands.book st))
             (S (Commands.next_id st)))
        /\ AddressBook.find name (dict_setitem name r' (Commands.book st)) = Some r'
        /\ names (dict_setitem name r' (Commands.book st)) = names (Commands.book st)).
Proof.
  intros Hok.
  unfold Commands.add_contact, Commands.input_error, Commands.add_contact_func.
  rewrite (ten_digits_len phone Hok). simpl. split.
  - intros Hf. rewrite Hf.
    unfold bind, Commands.add_record, Commands.call, Commands.ret. simpl.
    rewrite (proj1 (add_phone_run (Record_.init name) (Commands.next_id st) phone) Hok).
    simpl. unfold AddressBook.find in Hf. apply dict_get_None in Hf.
    rewrite (dict_setitem_absent _ _ _ Hf).
    now rewrite (dict_setitem_last _ _ _ _ Hf).
  - intros r Hf. rewrite Hf.
    unfold bind, Commands.call, Commands.ret. simpl.
    rewrite (proj1 (add_phone_run r (Commands.next_id st) phone) Hok). simpl.
    split; [reflexivity|]. split.
    + apply dict_get_setitem_eq.
    + unfold names. rewrite dict_setitem_keys.
      unfold dict_contains, AddressBook.find in *. now rewrite Hf.
Qed.

(** X20: [add_contact] with a phone that is not valid replies with the message
    of the validation. For a name the book has, the book is as before. For
    a new name the record was stored before the phone was looked at: the
    book has gained a record of that name without a phone. *)
Theorem add_contact_invalid_phone (st : Commands.state)
    (name phone : str) (rest : list str) (e : exn) :
  phone <> [] ->
  Phone.validate_phone phone = Raise e ->
  (AddressBook.find name (Commands.book st) = None ->
     Commands.add_contact (name :: phone :: rest) st
     = (Commands.exn_str e,
        Commands.mkState (Commands.book st ++ [(name, Record_.init name)])
          (Commands.next_id st)))
  /\ (forall r, AddressBook.find name (Commands.book st) = Some r ->
        Commands.add_contact (name :: phone :: rest) st = (Commands.exn_str e, st)).
Proof.
  intros Hne He.
  unfold Commands.add_contact, Commands.input_error, Commands.add_contact_func.
  rewrite (nonempty_len phone Hne). simpl. split.
  - intros Hf. rewrite Hf.
    unfold bind, Commands.add_record, Commands.call, Commands.ret. simpl.
    rewrite (proj2 (add_phone_run (Record_.init name) (Commands.next_id st) phone) e He).
    simpl. unfold AddressBook.find in Hf. apply dict_get_None in Hf.
    rewrite (dict_setitem_absent _ _ _ Hf).
    now rewrite (dict_setitem_last _ _ _ _ Hf).
  - intros r Hf. rewrite Hf.
    unfold bind, Commands.call, Commands.ret. simpl.
    rewrite (proj2 (add_phone_run r (Commands.next_id st) phone) e He). simpl.
    unfold AddressBook.find in Hf. rewrite (dict_setitem_same _ _ _ Hf).
    now rewrite state_eta.
Qed.

(** X21: [change_contact] replies Contact not found for a name the book does not
    have. For a name it has, it edits the phone of that record: a missing
    old phone and an invalid new phone give the message of the error and
    leave the whole state as it was; otherwise the first phone equal to the
    old one is replaced where it stands in the record, which keeps its
    place in the book. *)
Theorem change_contact_spec (st : Commands.state)
    (name old_phone new_phone : str) (rest : list str) :
  let args := name :: old_phone :: new_phone :: rest in
  (AddressBook.find name (Commands.book st) = None ->
     Commands.change_contact args st = (str_of_string "Contact not found.", st))
  /\ (forall r, AddressBook.find name (Commands.book st) = Some r ->
        (~ In old_phone (map Phone.value (Record_.phones r)) ->
           Commands.change_contact args st
           = (str_of_string "Phone number not found.", st))
        /\ (In old_phone (map Phone.value (Record_.phones r)) ->
            forall e, Phone.validate_phone new_phone = Raise e ->
              Commands.change_contact args st = (Commands.exn_str e, st))
        /\ (one_value_per_object (Record_.phones r) = true ->
            In old_phone (map Phone.value (Record_.phones r)) ->
            ten_digits new_phone ->
            exists j,
              Commands.change_contact args st
              = (str_of_string "Phone number updated.",
                 Commands.mkState
                   (dict_setitem name
                      (Record_.mk (Record_.name r)
                         (<[j := Phone.mk (Commands.next_id st) new_phone]>
                            (Record_.phones r))
                         (Record_.birthday r))
                      (Commands.book st))
                   (S (Commands.next_id st)))
              /\ map Phone.value (Record_.phones r) !! j = Some old_phone
              /\ (forall i, (i < j)%nat ->
                    map Phone.value (Record_.phones r) !! i <> Some old_phone))).
Proof.
  intros args. unfold args.
  unfold Commands.change_contact, Commands.input_error,
    Commands.change_contact_func. split.
  - intros ->. reflexivity.
  - intros r Hf. rewrite Hf.
    unfold bind, Commands.call, Commands.ret.
    pose proof (edit_phone_run r (Commands.next_id st) old_phone new_phone)
      as (Habsent & Hinvalid & Hdone).
    unfold AddressBook.find in Hf.
    split; [|split].
    + intros Hn. rewrite (Habsent Hn). simpl.
      rewrite (dict_setitem_same _ _ _ Hf). now rewrite state_eta.
    + intros Hin e He. rewrite (Hinvalid Hin e He). simpl.
      rewrite (dict_setitem_same _ _ _ Hf). now rewrite state_eta.
    + intros Hc Hin Hnew. destruct (Hdone Hc Hin Hnew) as (j & -> & Hj & Hfirst).
      exists j. simpl. auto.
Qed.

(** X22: A birthday given to the command [add-birthday] in the format
    DD.MM.YYYY, year 1000 or later, for a contact of the book is what the
    command [show-birthday] shows for that contact afterwards, letter for
    letter; showing changes nothing. *)
Theorem add_birthday_then_show (st : Commands.state)
    (name text : str) (rest : list str) (dt : date) (r : Record_.t) :
  AddressBook.find name (Commands.book st) = Some r ->
  DD_MM_YYYY text dt -> 1000 <= year dt ->
  exists st',
    Commands.add_birthday (name :: text :: rest) st
    = (str_of_string "Birthday added.", st')
    /\ Commands.show_birthday [name] st'
       = (name ++ str_of_string "'s birthday is " ++ text, st').
Proof.
  intros Hf Htext Hy.
  unfold Commands.add_birthday, Commands.input_error, Commands.add_birthday_func.
  rewrite Hf. unfold bind, Commands.call, Commands.ret.
  rewrite (proj1 (add_birthday_run r (Commands.next_id st) text) dt
             (DD_MM_YYYY_birthday_text _ _ Htext)).
  simpl. eexists. split; [reflexivity|].
  unfold Commands.show_birthday, Commands.input_error,
    Commands.show_birthday_func, AddressBook.find. simpl.
  rewrite dict_get_setitem_eq. simpl. unfold Commands.ret.
  now rewrite (DD_MM_YYYY_strftime _ _ Htext Hy).
Qed.

Section BookInvariant.

Import Commands.

Lemma record_ok_mono (n n' : nat) (x : Record_.t) :
  (n <= n')%nat -> record_ok n x -> record_ok n' x.
Proof.
  intros Hle (Hv & [Hlt Hd] & Hb). repeat split; trivial.
  simpl in *. eapply Forall_impl; [exact Hlt|]. simpl. intros; lia.
Qed.

Lemma record_ok_init (n : nat) (name : str) : record_ok n (Record_.init name).
Proof.
  repeat split; constructor.
Qed.

Lemma book_ok_record (st : state) (name : str) (x : Record_.t) :
  book_ok st -> dict_get (book st) name = Some x ->
  record_ok (next_id st) x /\ Record_.name x = name.
Proof.
  intros (_ & Hk & Hr) Hf. apply dict_get_In in Hf. split.
  - rewrite Forall_forall in Hr. apply Hr.
    apply list_elem_of_In. unfold dict_values.
    change x with (snd (name, x)). now apply in_map.
  - unfold keyed_by_name in Hk. rewrite Forall_forall in Hk.
    apply list_elem_of_In, Hk in Hf. simpl in Hf. congruence.
Qed.

Lemma setitem_keeps (st : state) (name : str) (x : Record_.t) (n' : nat) :
  book_ok st -> (next_id st <= n')%nat ->
  record_ok n' x -> Record_.name x = name ->
  book_ok (mkState (dict_setitem name x (book st)) n').
Proof.
  intros (Hn & Hk & Hr) Hle Hx Hname. unfold book_ok. simpl. split; [|split].
  - now apply dict_setitem_NoDup.
  - apply dict_setitem_Forall; [exact Hk | now simpl].
  - unfold dict_values in *. rewrite List.Forall_map.
    apply (dict_setitem_Forall (fun item => record_ok n' (snd item)));
      [|exact Hx].
    rewrite List.Forall_map in Hr. eapply Forall_impl; [exact Hr|].
    intros item Hi. simpl in *. eapply record_ok_mono; eauto.
Qed.

Lemma call_keeps {A} (st : state) (name : str) (x : Record_.t)
    (method : M Record_.state A) :
  book_ok st -> dict_get (book st) name = Some x ->
  (forall s, kept s (snd (method s))) ->
  book_ok (snd (call name x method st)).
Proof.
  intros Hok Hf Hm. destruct (book_ok_record st name x Hok Hf) as [Hx Hname].
  unfold call. specialize (Hm (Record_.mkState x (next_id st))).
  destruct (method (Record_.mkState x (next_id st))) as [res after]. simpl in *.
  destruct Hm as (Hv & Hi & Hb & Hnm & Hle).
  destruct Hx as (Hxv & Hxi & Hxb).
  apply setitem_keeps; trivial.
  - destruct after as [x' n']. simpl in *. repeat split; auto.
    + now apply Hi.
    + now apply Hi.
  - simpl in Hnm. congruence.
Qed.

Lemma input_error_call {A} (st : state) (name : str) (x : Record_.t)
    (method : M Record_.state A) (reply : str) :
  snd (input_error (bind (call name x method) (fun _ => ret reply)) st)
  = snd (call name x method st).
Proof.
  unfold input_error, bind, ret.
  now destruct (call name x method st) as [[u|e] st'].
Qed.

End BookInvariant.

(** X23: The commands keep the book well formed: at most one record per name,
    each under its own name, every stored phone a string of ten digits,
    the Phone objects distinct, every birthday a date of the calendar. This
    holds of the empty book and after [add_contact], [change_contact] and
    [add_birthday] with any arguments, whatever they reply; [show_phone]
    and [show_birthday] change nothing. *)
Theorem commands_keep_book_ok :
  (forall n, book_ok (Commands.mkState [] n))
  /\ (forall st args, book_ok st ->
        book_ok (snd (Commands.add_contact args st))
        /\ book_ok (snd (Commands.change_contact args st))
        /\ book_ok (snd (Commands.add_birthday args st))
        /\ snd (Commands.show_phone args st) = st
        /\ snd (Commands.show_birthday args st) = st).
Proof.
  split.
  - intros n. repeat split; constructor.
  - intros st args Hok. split; [|split; [|split; [|split]]].
    + unfold Commands.add_contact, Commands.input_error, Commands.add_contact_func.
      destruct args as [|name [|phone rest]]; try exact Hok. cbv beta.
      destruct (AddressBook.find name (Commands.book st)) as [x|] eqn:Hf.
      * destruct (negb (len phone =? 0)).
        -- change (book_ok (snd (Commands.input_error
                     (bind (Commands.call name x (Record_.add_phone phone))
                           (fun _ => Commands.ret (str_of_string "Contact updated.")))
                     st))).
           rewrite input_error_call.
           apply call_keeps; trivial. intros s. apply add_phone_kept.
        -- exact Hok.
      * assert (book_ok (Commands.mkState
                  (dict_setitem name (Record_.init name) (Commands.book st))
                  (Commands.next_id st))) as Hok1.
        { apply setitem_keeps; trivial. apply record_ok_init. }
        destruct (negb (len phone =? 0)).
        -- change (book_ok (snd (Commands.input_error
                     (bind (Commands.call name (Record_.init name)
                              (Record_.add_phone phone))
                           (fun _ => Commands.ret (str_of_string "Contact added.")))
                     (Commands.mkState
                        (dict_setitem name (Record_.init name) (Commands.book st))
                        (Commands.next_id st))))).
           rewrite input_error_call.
           apply call_keeps; trivial.
           ++ simpl. apply dict_get_setitem_eq.
           ++ intros s. apply add_phone_kept.
        -- exact Hok1.
    + unfold Commands.change_contact, Commands.input_error,
        Commands.change_contact_func.
      destruct args as [|name [|old_phone [|new_phone rest]]]; try exact Hok.
      cbv beta.
      destruct (AddressBook.find name (Commands.book st)) as [x|] eqn:Hf;
        [|exact Hok].
      change (book_ok (snd (Commands.input_error
                (bind (Commands.call name x (Record_.edit_phone old_phone new_phone))
                      (fun _ => Commands.ret (str_of_string "Phone number updated.")))
                st))).
      rewrite input_error_call.
      apply call_keeps; trivial. intros s. apply edit_phone_kept.
    + unfold Commands.add_birthday, Commands.input_error,
        Commands.add_birthday_func.
      destruct args as [|name [|birthday rest]]; try exact Hok. cbv beta.
      destruct (AddressBook.find name (Commands.book st)) as [x|] eqn:Hf;
        [|exact Hok].
      change (book_ok (snd (Commands.input_error
                (bind (Commands.call name x (Record_.add_birthday birthday))
                      (fun _ => Commands.ret (str_of_string "Birthday added.")))
                st))).
      rewrite input_error_call.
      apply call_keeps; trivial. intros s. apply add_birthday_kept.
    + unfold Commands.show_phone, Commands.input_error, Commands.show_phone_func.
      destruct args as [|name rest]; [reflexivity|].
      now destruct (AddressBook.find name (Commands.book st)).
    + unfold Commands.show_birthday, Commands.input_error,
        Commands.show_birthday_func.
      destruct args as [|name rest]; [reflexivity|].
      destruct (AddressBook.find name (Commands.book st)) as [x|]; [|reflexivity].
      now destruct (Record_.birthday x).
Qed.

(* ===================================================================== *)
(** * Record: a phone added and removed again *)
(* ===================================================================== *)

Lemma find_phone_loop_last (l : list Phone.t) (p : Phone.t) :
  ~ In (Phone.value p) (map Phone.value l) ->
  Record_.find_phone_loop (Phone.value p) (l ++ [p]) = Return p.
Proof.
  induction l as [|q l IH]; simpl; intros Hn.
  - unfold str_eqb. now rewrite bool_decide_eq_true_2.
  - rewrite (proj2 (str_eqb_neq (Phone.value q) (Phone.value p))) by tauto.
    apply IH. tauto.
Qed.

Lemma list_remove_last (l : list Phone.t) (p : Phone.t) :
  Forall (fun q => (Phone.oid q < Phone.oid p)%nat) l ->
  list_remove Phone.eq p (l ++ [p]) = Return l.
Proof.
  induction l as [|q l IH]; simpl; intros HF.
  - unfold Phone.eq. now rewrite Nat.eqb_refl.
  - apply Forall_cons in HF. destruct HF as [Hq HF].
    unfold Phone.eq at 1. rewrite (proj2 (Nat.eqb_neq _ _)) by lia.
    now rewrite IH.
Qed.

(** X24: Removing a phone that was just added, and was not in the record
    before, gives back the record as it was. *)
Theorem add_then_remove_phone (st : Record_.state) (phone : str) :
  ids_fresh st -> ten_digits phone -> ~ In phone (values st) ->
  exists st1 st2,
    Record_.add_phone phone st = (Return tt, st1)
    /\ Record_.remove_phone phone st1 = (Return tt, st2)
    /\ Record_.self st2 = Record_.self st.
Proof.
  destruct st as [[nm l bd] n]. unfold values, ids_fresh. simpl.
  intros [Hlt _] Hok Hn.
  rewrite (proj1 (add_phone_run (Record_.mk nm l bd) n phone) Hok). simpl.
  eexists _, _. split; [reflexivity|].
  unfold Record_.remove_phone, Record_.find_phone, Record_.get_phones,
    Record_.set_phones, bind, lift. simpl.
  pose proof (find_phone_loop_last l (Phone.mk n phone) Hn) as Hfind.
  pose proof (list_remove_last l (Phone.mk n phone) Hlt) as Hremove.
  simpl in Hfind. rewrite Hfind. simpl. rewrite Hremove.
  split; reflexivity.
Qed.

(* ===================================================================== *)
(** * More instances *)
(* ===================================================================== *)

(** A fourth phone for [three_phones]. *)
Lemma add_phone_spec_witness :
  exists st',
    Record_.add_phone (str_of_string "5555555555") three_phones = (Return tt, st')
    /\ values st'
       = values three_phones ++ [str_of_string "5555555555"].
Proof.
  destruct (proj1 (add_phone_spec three_phones (str_of_string "5555555555")))
    as (st' & He & Hv & _).
  - split; [reflexivity | repeat constructor].
  - exists st'. split; [exact He | exact Hv].
Defined.

(** The phone [three_phones] holds once is found at the second place. *)
Lemma find_phone_spec_witness :
  exists p,
    fst (Record_.find_phone (str_of_string "0000000000") three_phones) = Return p
    /\ Phone.value p = str_of_string "0000000000".
Proof.
  destruct (proj2 (proj2 (find_phone_spec three_phones (str_of_string "0000000000"))))
    as (j & p & Hf & _ & Hv & _).
  - vm_compute. auto.
  - exists p. split; [exact Hf | exact Hv].
Defined.

(** The text 15.03.1990 writes a date. *)
Lemma text_1990_03_15 :
  DD_MM_YYYY (str_of_string "15.03.1990") (mkdate 1990 3 15).
Proof.
  exists 49, 53, 48, 51, 49, 57, 57, 48.
  split; [reflexivity|]. split; [repeat constructor; lia|].
  repeat split; reflexivity.
Qed.

Lemma add_birthday_spec_witness :
  exists st',
    Record_.add_birthday (str_of_string "15.03.1990") three_phones = (Return tt, st')
    /\ Record_.birthday (Record_.self st') = Some (mkdate 1990 3 15).
Proof.
  destruct (proj1 (add_birthday_spec three_phones (str_of_string "15.03.1990"))
              (mkdate 1990 3 15))
    as (st' & He & Hb & _).
  - apply DD_MM_YYYY_birthday_text. exact text_1990_03_15.
  - exists st'. split; [exact He | exact Hb].
Defined.

Lemma birthday_always_valid_witness :
  birthday_valid
    (snd (Record_.add_birthday (str_of_string "15.03.1990") three_phones)).
Proof.
  exact (proj1 (proj2 birthday_always_valid three_phones I)
           (str_of_string "15.03.1990")).
Defined.

Lemma days_to_birthday_next_occurrence_witness :
  Record_.days_to_birthday (mkdate 2024 3 10)
    (Record_.mk (str_of_string "Ann") [] (Some (mkdate 1990 3 15)))
  = Return (Some (date_sub_days (mkdate 2024 3 15) (mkdate 2024 3 10))).
Proof.
  apply (proj1 (days_to_birthday_next_occurrence (mkdate 2024 3 10)
                  (mkdate 1990 3 15)
                  (Record_.mk (str_of_string "Ann") [] (Some (mkdate 1990 3 15)))
                  eq_refl eq_refl eq_refl)).
  reflexivity.
Defined.

Lemma days_to_birthday_range_witness : 0 <= 360 <= 365.
Proof.
  apply (days_to_birthday_range (mkdate 2024 3 20) (mkdate 1990 3 15)
           (Record_.mk (str_of_string "Ann") [] (Some (mkdate 1990 3 15))) 360);
    reflexivity.
Defined.

Lemma days_to_birthday_zero_witness :
  Record_.days_to_birthday (mkdate 2024 3 15)
    (Record_.mk (str_of_string "Ann") [] (Some (mkdate 1990 3 15)))
  = Return (Some 0).
Proof.
  apply (proj2 (days_to_birthday_zero (mkdate 2024 3 15) (mkdate 1990 3 15)
                  (Record_.mk (str_of_string "Ann") [] (Some (mkdate 1990 3 15)))
                  eq_refl eq_refl)).
  split; reflexivity.
Defined.

(** A birthday on 29.02.2000: a number on 10.02.2024, an error on
    01.03.2024. *)
Lemma days_to_birthday_leap_day_witness :
  (exists n,
     Record_.days_to_birthday (mkdate 2024 2 10)
       (Record_.mk (str_of_string "Bob") [] (Some (mkdate 2000 2 29)))
     = Return (Some n))
  /\ (exists msg,
        Record_.days_to_birthday (mkdate 2024 3 1)
          (Record_.mk (str_of_string "Bob") [] (Some (mkdate 2000 2 29)))
        = Raise (ValueError msg)).
Proof.
  split.
  - apply (proj1 (days_to_birthday_leap_day (mkdate 2024 2 10) (mkdate 2000 2 29)
                    (Record_.mk (str_of_string "Bob") [] (Some (mkdate 2000 2 29)))
                    eq_refl eq_refl eq_refl eq_refl)).
    split; reflexivity.
  - apply (proj2 (days_to_birthday_leap_day (mkdate 2024 3 1) (mkdate 2000 2 29)
                    (Record_.mk (str_of_string "Bob") [] (Some (mkdate 2000 2 29)))
                    eq_refl eq_refl eq_refl eq_refl)).
    intros [_ H]. vm_compute in H. discriminate.
Defined.

(** On 10.03.2024, within 7 days: Ann (5 days) and not Bob (8 days). *)
Lemma get_upcoming_birthdays_filter_witness :
  AddressBook.get_upcoming_birthdays (mkdate 2024 3 10) 7 birthday_book
  = Return [Record_.mk (str_of_string "Ann") [] (Some (mkdate 1990 3 15))].
Proof.
  destruct (get_upcoming_birthdays_filter (mkdate 2024 3 10) 7 birthday_book)
    as [H _].
  - intros r [<-|[<-|[<-|[]]]] Hb; vm_compute; eauto.
  - rewrite H. reflexivity.
Defined.

(** On 10.03.2023 a record with the birthday 29.02.2000 blocks the query
    for the book that also holds Ann, Bob and Cy. *)
Lemma get_upcoming_birthdays_blocked_witness :
  exists msg,
    AddressBook.get_upcoming_birthdays (mkdate 2023 3 10) 7
      (birthday_book
       ++ [(str_of_string "Dee",
            Record_.mk (str_of_string "Dee") [] (Some (mkdate 2000 2 29)))])
    = Raise (ValueError msg).
Proof.
  apply (get_upcoming_birthdays_blocked (mkdate 2023 3 10) 7 _
           (Record_.mk (str_of_string "Dee") [] (Some (mkdate 2000 2 29)))
           (ValueError "day is out of range for month")).
  - vm_compute. auto.
  - discriminate.
  - reflexivity.
Defined.

Lemma add_record_order_witness :
  names (snd (AddressBook.add_record
                (Record_.mk (str_of_string "Ann") [] (Some (mkdate 1990 3 15)))
                two_records))
  = names two_records.
Proof.
  apply (proj1 (add_record_order two_records
                  (Record_.mk (str_of_string "Ann") [] (Some (mkdate 1990 3 15))))).
  vm_compute. auto.
Defined.

Lemma add_record_delete_witness :
  AddressBook.delete (str_of_string "Cy")
    (snd (AddressBook.add_record (Record_.init (str_of_string "Cy")) two_records))
  = (Return tt, two_records).
Proof.
  apply (add_record_delete two_records (Record_.init (str_of_string "Cy"))).
  vm_compute. intuition discriminate.
Defined.

Lemma records_keyed_by_name_witness :
  exists r,
    AddressBook.find (str_of_string "Bob") two_records = Some r
    /\ Record_.name r = str_of_string "Bob".
Proof.
  exists (Record_.init (str_of_string "Bob")). split; [reflexivity|].
  assert (keyed_by_name two_records) as H by (repeat constructor).
  exact (proj2 (proj2 (proj2 records_keyed_by_name two_records H))
           (str_of_string "Bob") (Record_.init (str_of_string "Bob")) eq_refl).
Defined.

Lemma strftime_then_parse_witness :
  Birthday.validate_birthday (Text.strftime (mkdate 1990 3 15))
  = Return (mkdate 1990 3 15).
Proof.
  apply (strftime_then_parse (mkdate 1990 3 15)); [reflexivity | simpl; lia].
Defined.

Lemma parse_then_strftime_witness :
  Text.strftime (mkdate 1990 3 15) = str_of_string "15.03.1990".
Proof.
  apply (proj2 (parse_then_strftime (str_of_string "15.03.1990") (mkdate 1990 3 15)
                  text_1990_03_15 ltac:(simpl; lia))).
Defined.

(** 29.02.2024 is accepted, 29.02.2023 is not. *)
Lemma validate_birthday_leap_day_witness :
  Birthday.validate_birthday (str_of_string "29.02.2024") = Return (mkdate 2024 2 29)
  /\ Birthday.validate_birthday (str_of_string "29.02.2023")
     = Raise (ValueError "Invalid date format. Use DD.MM.YYYY").
Proof.
  split.
  - apply (proj1 (validate_birthday_leap_day 50 48 50 52
                    ltac:(repeat constructor; lia) ltac:(vm_compute; discriminate))).
    reflexivity.
  - apply (proj2 (validate_birthday_leap_day 50 48 50 51
                    ltac:(repeat constructor; lia) ltac:(vm_compute; discriminate))).
    reflexivity.
Defined.

(** The line add Bob 1234567890, with a [lower] that changes nothing. *)
Lemma parse_input_command_line_witness :
  Text.parse_input (fun s => s)
    (command_line (map str_of_string ["add"; "Bob"; "1234567890"]%string))
  = Return (str_of_string "add",
            map str_of_string ["Bob"; "1234567890"]%string).
Proof.
  apply (parse_input_command_line (fun s => s) (str_of_string "add")
           (map str_of_string ["Bob"; "1234567890"]%string)).
  - split; [discriminate | repeat constructor].
  - repeat constructor; discriminate.
Defined.

(** Bob added to the empty book. *)
Lemma add_contact_valid_phone_witness :
  Commands.add_contact [str_of_string "Bob"; str_of_string "1234567890"]
    (Commands.mkState [] 0)
  = (str_of_string "Contact added.",
     Commands.mkState
       [(str_of_string "Bob",
         Record_.mk (str_of_string "Bob")
           [Phone.mk 0 (str_of_string "1234567890")] None)] 1).
Proof.
  assert (ten_digits (str_of_string "1234567890")) as H
    by (split; [reflexivity | repeat constructor]).
  apply (proj1 (add_contact_valid_phone (Commands.mkState [] 0)
                  (str_of_string "Bob") (str_of_string "1234567890") [] H)).
  reflexivity.
Defined.

(** Bob with the phone 123 given to the empty book: the reply is the error,
    and Bob is in the book. *)
Lemma add_contact_invalid_phone_witness :
  Commands.add_contact [str_of_string "Bob"; str_of_string "123"]
    (Commands.mkState [] 0)
  = (str_of_string "The phone number must contain 10 digits",
     Commands.mkState
       [(str_of_string "Bob", Record_.init (str_of_string "Bob"))] 0).
Proof.
  assert (str_of_string "123" <> []) as H by discriminate.
  apply (proj1 (add_contact_invalid_phone (Commands.mkState [] 0)
                  (str_of_string "Bob") (str_of_string "123") []
                  (ValueError "The phone number must contain 10 digits")
                  H eq_refl)).
  reflexivity.
Defined.

(** The first phone of Bob in [bob_book] changed. *)
Lemma change_contact_spec_witness :
  exists st',
    Commands.change_contact
      [str_of_string "Bob"; str_of_string "1234567890"; str_of_string "1111111111"]
      bob_book
    = (str_of_string "Phone number updated.", st').
Proof.
  destruct (proj2 (proj2 (proj2 (change_contact_spec bob_book
              (str_of_string "Bob") (str_of_string "1234567890")
              (str_of_string "1111111111") []) _ eq_refl)))
    as (j & He & _).
  - reflexivity.
  - vm_compute. auto.
  - split; [reflexivity | repeat constructor].
  - eexists. exact He.
Defined.

(** The birthday of Bob in [bob_book] set and shown. *)
Lemma add_birthday_then_show_witness :
  exists st',
    Commands.add_birthday [str_of_string "Bob"; str_of_string "15.03.1990"] bob_book
    = (str_of_string "Birthday added.", st')
    /\ Commands.show_birthday [str_of_string "Bob"] st'
       = (str_of_string "Bob's birthday is 15.03.1990", st').
Proof.
  exact (add_birthday_then_show bob_book (str_of_string "Bob")
           (str_of_string "15.03.1990") [] (mkdate 1990 3 15) _ eq_refl
           text_1990_03_15 ltac:(simpl; lia)).
Defined.

(** [bob_book], built by three commands from the empty book, is well
    formed. *)
Lemma commands_keep_book_ok_witness : book_ok bob_book.
Proof.
  pose proof (proj1 commands_keep_book_ok 0%nat) as H0.
  pose proof (proj1 (proj2 commands_keep_book_ok _
                [str_of_string "Bob"; str_of_string "1234567890"] H0)) as H1.
  pose proof (proj1 (proj2 commands_keep_book_ok _
                [str_of_string "Bob"; str_of_string "0000000000"] H1)) as H2.
  exact (proj1 (proj2 (proj2 (proj2 commands_keep_book_ok _
                [str_of_string "Bob"; str_of_string "15.03.1990"] H2)))).
Defined.

(** A fourth phone added to [three_phones] and removed again. *)
Lemma add_then_remove_phone_witness :
  exists st1 st2,
    Record_.add_phone (str_of_string "5555555555") three_phones = (Return tt, st1)
    /\ Record_.remove_phone (str_of_string "5555555555") st1 = (Return tt, st2)
    /\ Record_.self st2 = Record_.self three_phones.
Proof.
  apply (add_then_remove_phone three_phones (str_of_string "5555555555")).
  - split.
    + vm_compute. repeat constructor.
    + apply (bool_decide_unpack _). vm_compute. exact I.
  - split; [reflexivity | repeat constructor].
  - vm_compute. intuition discriminate.
Defined.


(* ===================================================================== *)
(** * Listing the book *)
(* ===================================================================== *)

Lemma fold_left_append {A} (f : A -> str) (l : list A) (init : str) :
  fold_left (fun result x => result ++ f x) l init
  = init ++ concat (map f l).
Proof.
  revert init. induction l as [|x l IH]; intros init; simpl.
  - now rewrite app_nil_r.
  - rewrite IH. now rewrite <- app_assoc.
Qed.

(** X25: [show_all_contacts] replies that the address book is empty exactly
    when the book has no record; otherwise its reply is the heading
    followed by one line for each record, in the order of the book. *)
Theorem show_all_contacts_spec (st : Commands.state) :
  (Commands.show_all_contacts st = str_of_string "Address book is empty."
   <-> Commands.book st = [])
  /\ (Commands.book st <> [] ->
      Commands.show_all_contacts st
      = str_of_string "All contacts:" ++ [10]
        ++ concat (map (fun record => Text.Record_str record ++ [10])
                       (dict_values (Commands.book st)))).
Proof.
  unfold Commands.show_all_contacts.
  destruct (Commands.book st) as [|item data] eqn:E.
  - split; [split; reflexivity | intros H; contradiction].
  - rewrite fold_left_append. split.
    + split; [|discriminate]. intros H. simpl in H. discriminate.
    + intros _. now rewrite <- app_assoc.
Qed.

(** The listing of [bob_book]. *)
Lemma show_all_contacts_spec_witness :
  Commands.show_all_contacts bob_book
  = str_of_string "All contacts:" ++ [10]
    ++ str_of_string
         "Contact name: Bob, phones: 1234567890; 0000000000, birthday: 15.03.1990"
    ++ [10].
Proof.
  rewrite (proj2 (show_all_contacts_spec bob_book)); [reflexivity | discriminate].
Defined.

(* ===================================================================== *)
(** * Phone validation and the digits of the specification *)
(* ===================================================================== *)

Section UnicodeDigits.

Lemma in_ranges_In (tbl : list (Z * Z)) (c : Z) :
  in_ranges tbl c = true <-> exists lo hi, In (lo, hi) tbl /\ lo <= c <= hi.
Proof.
  unfold in_ranges. rewrite existsb_exists. split.
  - intros ([lo hi] & Hin & Hr). apply in_range_spec in Hr. eauto.
  - intros (lo & hi & Hin & Hr). exists (lo, hi). split; [exact Hin|].
    now apply in_range_spec.
Qed.

Lemma digit_char_unicode (c : Z) : digit_char c <-> unicode_digit c.
Proof.
  unfold digit_char, unicode_digit, Py_UNICODE_ISDIGIT, Py_UNICODE_ISDECIMAL.
  rewrite orb_true_iff, !in_ranges_In. split.
  - intros [(lo & hi & Hin & Hr)|(lo & hi & Hin & Hr)]; exists lo, hi;
      (split; [apply in_or_app; auto | exact Hr]).
  - intros (lo & hi & Hin & Hr). apply in_app_or in Hin.
    destruct Hin; [left | right]; eauto.
Qed.

(** Among the characters of ASCII the digits of Unicode are 0 to 9. *)
Lemma unicode_digit_ascii (c : Z) :
  ascii_char c -> (unicode_digit c <-> ascii_digit c).
Proof.
  unfold ascii_char, ascii_digit. intros Hc.
  assert (forall lo hi, In (lo, hi) (DECIMAL_RANGES ++ OTHER_DIGIT_RANGES) ->
            (lo = 48 /\ hi = 57) \/ 128 <= lo) as Htbl.
  { intros lo hi Hin.
    assert (forallb (fun r => ((fst r =? 48) && (snd r =? 57)) || (128 <=? fst r))
              (DECIMAL_RANGES ++ OTHER_DIGIT_RANGES) = true) as Hb
      by (vm_compute; reflexivity).
    rewrite forallb_forall in Hb. specialize (Hb _ Hin). simpl in Hb.
    apply orb_prop in Hb. destruct Hb as [Hb|Hb].
    - apply andb_prop in Hb. destruct Hb as [H1 H2].
      apply Z.eqb_eq in H1, H2. now left.
    - right. now apply Z.leb_le. }
  split.
  - intros (lo & hi & Hin & Hr).
    destruct (Htbl lo hi Hin) as [[-> ->]|Hlo]; lia.
  - intros Hd. exists 48, 57. split; [now left | exact Hd].
Qed.

Lemma Forall_digit_char_unicode (s : str) :
  Forall digit_char s <-> Forall unicode_digit s.
Proof.
  split; intros H; eapply Forall_impl; try exact H;
    intros c; apply digit_char_unicode.
Qed.

End UnicodeDigits.

(** C1, as the specification states it, fails: ten superscript twos are
    accepted, and the superscript two is no decimal digit, neither one of
    0 to 9 nor a decimal digit of another script. *)
Lemma validate_phone_accepts_superscripts :
  Phone.validate_phone superscript_twos = Return superscript_twos
  /\ Exists (fun c => ~ ascii_digit c) superscript_twos
  /\ Exists (fun c => Py_UNICODE_ISDECIMAL c = false) superscript_twos.
Proof.
  split; [reflexivity|]. split.
  - left. unfold ascii_digit. lia.
  - left. reflexivity.
Qed.

(** C1, amended: Phone validation fails with a ValidationError exactly when
    the length of the string is not 10 or one of its characters is not a
    digit of Unicode (Numeric_Type Decimal or Digit, which besides 0 to 9
    holds the decimal digits of other scripts and the superscript,
    subscript and circled digits); an accepted string is stored unchanged.
    On strings of ASCII characters this is the specification: such a
    string is accepted exactly when it consists of ten of the digits 0 to
    9, and every string of ten digits 0 to 9 is accepted. *)
Theorem validate_phone_unicode_digits (s : str) :
  ((exists e, Phone.validate_phone s = Raise e) <->
     (length s <> 10%nat \/ Exists (fun c => ~ unicode_digit c) s))
  /\ (forall e, Phone.validate_phone s = Raise e -> ValidationError e)
  /\ (Phone.validate_phone s = Return s <->
        length s = 10%nat /\ Forall unicode_digit s)
  /\ (forall v, Phone.validate_phone s = Return v -> v = s)
  /\ (length s = 10%nat /\ Forall unicode_digit s <->
        forall self_id, Phone.init self_id s = Return (Phone.mk self_id s))
  /\ (ten_ascii_digits s -> Phone.validate_phone s = Return s)
  /\ (Forall ascii_char s ->
        (Phone.validate_phone s = Return s <-> ten_ascii_digits s)).
Proof.
  pose proof (validate_phone_ten_digits s) as Hten. unfold ten_digits in Hten.
  rewrite Forall_digit_char_unicode in Hten.
  assert (Exists (fun c => ~ unicode_digit c) s <-> ~ Forall unicode_digit s)
    as Hex.
  { rewrite <- Forall_digit_char_unicode, not_Forall_digit. split; intros H.
    - eapply Exists_impl; [exact H|]. intros c Hc.
      destruct (Py_UNICODE_ISDIGIT c) eqn:E; [|reflexivity].
      exfalso. apply Hc, digit_char_unicode. exact E.
    - eapply Exists_impl; [exact H|]. intros c Hc Hu.
      apply digit_char_unicode in Hu. unfold digit_char in Hu. congruence. }
  split; [|split; [|split; [|split; [|split; [|split]]]]].
  - rewrite Hex. split.
    + intros [e He].
      destruct (Nat.eq_dec (length s) 10%nat) as [Hl|Hl]; [|now left].
      right. intros HF. assert (Phone.validate_phone s = Return s) by tauto.
      congruence.
    + intros Hbad.
      destruct (Phone.validate_phone s) as [v|e] eqn:E; [|eauto].
      exfalso.
      destruct (validate_phone_cases s) as [[_ Hr]|[(_ & _ & Hr)|(_ & Hr)]];
        try congruence.
      assert (length s = 10%nat /\ Forall unicode_digit s) as [Hl HF]
        by (apply Hten; congruence).
      destruct Hbad; contradiction.
  - apply validate_phone_error.
  - symmetry. exact Hten.
  - intros v Hv.
    destruct (validate_phone_cases s) as [[_ Hr]|[(_ & _ & Hr)|(_ & Hr)]];
      congruence.
  - unfold Phone.init, obind. split.
    + intros Hok self_id. apply Hten in Hok. now rewrite Hok.
    + intros Hr. specialize (Hr O).
      destruct (Phone.validate_phone s) as [v|e] eqn:E; [|discriminate].
      injection Hr as ->. now apply Hten.
  - intros [Hl HF]. apply Hten. split; [exact Hl|].
    eapply Forall_impl; [exact HF|]. intros c Hc. exists 48, 57.
    split; [now left | exact Hc].
  - intros Hascii. rewrite <- Hten. unfold ten_ascii_digits.
    assert (Forall unicode_digit s <-> Forall ascii_digit s) as ->; [|tauto].
    rewrite !Forall_forall. rewrite Forall_forall in Hascii.
    split; intros H c Hc; apply (unicode_digit_ascii c (Hascii c Hc)); auto.
Qed.

(** The string 1234567890. *)
Lemma validate_phone_unicode_digits_witness :
  Phone.validate_phone (str_of_string "1234567890")
  = Return (str_of_string "1234567890").
Proof.
  apply (proj1 (proj2 (proj2 (proj2 (proj2 (proj2
           (validate_phone_unicode_digits (str_of_string "1234567890")))))))).
  split; [reflexivity|]. unfold str_of_string. simpl.
  repeat (apply List.Forall_cons; [unfold ascii_digit; lia|]).
  apply List.Forall_nil.
Defined.

(* ===================================================================== *)
(** * Birthday: the texts accepted, in the words of the specification *)
(* ===================================================================== *)

Section DecimalValues.

Lemma ranges_disjoint_In (tbl : list (Z * Z)) (r r' : Z * Z) (c : Z) :
  ranges_disjoint tbl = true -> In r tbl -> In r' tbl ->
  fst r <= c <= snd r -> fst r' <= c <= snd r' -> r = r'.
Proof.
  unfold ranges_disjoint. rewrite forallb_forall. intros H Hr Hr' Hc Hc'.
  specialize (H r Hr). rewrite forallb_forall in H. specialize (H r' Hr').
  apply orb_prop in H. destruct H as [H|H].
  - apply orb_prop in H. destruct H as [H|H].
    + apply andb_prop in H. destruct H as [H1 H2].
      apply Z.eqb_eq in H1, H2. destruct r, r'. simpl in *. congruence.
    + apply Z.ltb_lt in H. lia.
  - apply Z.ltb_lt in H. lia.
Qed.

Lemma decimal_ranges_disjoint : ranges_disjoint DECIMAL_RANGES = true.
Proof. vm_compute. reflexivity. Qed.

Lemma TODECIMAL_decimal_value (c v : Z) :
  Py_UNICODE_TODECIMAL c = Some v <-> decimal_value c v.
Proof.
  unfold Py_UNICODE_TODECIMAL, decimal_value. split.
  - destruct (find _ DECIMAL_RANGES) as [[lo hi]|] eqn:E; [|discriminate].
    apply find_some in E. destruct E as [Hin Hr]. simpl in Hr.
    apply in_range_spec in Hr. intros [= <-]. exists lo, hi. auto.
  - intros (lo & hi & Hin & Hr & ->).
    destruct (find _ DECIMAL_RANGES) as [[lo' hi']|] eqn:E.
    + apply find_some in E. destruct E as [Hin' Hr']. simpl in Hr'.
      apply in_range_spec in Hr'.
      assert ((lo', hi') = (lo, hi)) as Heq
        by (eapply (ranges_disjoint_In _ _ _ c decimal_ranges_disjoint); eauto).
      injection Heq as -> ->. reflexivity.
    + exfalso. apply (find_none _ _ E) in Hin. simpl in Hin.
      apply in_range_spec in Hr. congruence.
Qed.

Lemma decimal_digit_value (c : Z) :
  decimal_digit c <-> exists v, decimal_value c v.
Proof.
  unfold decimal_digit, Py_UNICODE_ISDECIMAL, decimal_value.
  rewrite in_ranges_In. split.
  - intros (lo & hi & Hin & Hr). exists ((c - lo) mod 10), lo, hi. auto.
  - intros (v & lo & hi & Hin & Hr & _). eauto.
Qed.

Lemma decimal_value_not_blank (c v : Z) : decimal_value c v -> c <> 32.
Proof.
  intros H ->. assert (decimal_digit 32) as Hd by (apply decimal_digit_value; eauto).
  unfold decimal_digit in Hd. vm_compute in Hd. discriminate.
Qed.

Lemma ascii_decimal_value (c : Z) : 48 <= c <= 57 -> decimal_value c (c - 48).
Proof.
  intros H. exists 48, 57. split; [now left|]. split; [exact H|].
  symmetry. apply Z.mod_small. lia.
Qed.

Lemma decimal_value_functional (c v v' : Z) :
  decimal_value c v -> decimal_value c v' -> v = v'.
Proof.
  intros H H'. apply TODECIMAL_decimal_value in H, H'. congruence.
Qed.

Lemma int_of_digit (c v : Z) : decimal_value c v -> int [c] = Return v.
Proof.
  intros H. pose proof (decimal_value_not_blank _ _ H) as Hn.
  apply TODECIMAL_decimal_value in H.
  unfold int, strip. simpl.
  rewrite (proj2 (Z.eqb_neq c 32) Hn). simpl.
  rewrite (proj2 (Z.eqb_neq c 32) Hn). simpl.
  rewrite H. f_equal; lia.
Qed.

Lemma int_of_blank_digit (c v : Z) : decimal_value c v -> int [32; c] = Return v.
Proof.
  intros H. pose proof (decimal_value_not_blank _ _ H) as Hn.
  apply TODECIMAL_decimal_value in H.
  unfold int, strip. simpl.
  rewrite (proj2 (Z.eqb_neq c 32) Hn). simpl.
  rewrite (proj2 (Z.eqb_neq c 32) Hn). simpl.
  rewrite H. f_equal; lia.
Qed.

Lemma int_of_digits2 (c1 c2 v1 v2 : Z) :
  decimal_value c1 v1 -> decimal_value c2 v2 ->
  int [c1; c2] = Return (10 * v1 + v2).
Proof.
  intros H1 H2.
  pose proof (decimal_value_not_blank _ _ H1) as Hn1.
  pose proof (decimal_value_not_blank _ _ H2) as Hn2.
  apply TODECIMAL_decimal_value in H1, H2.
  unfold int, strip. simpl.
  rewrite (proj2 (Z.eqb_neq c1 32) Hn1). simpl.
  rewrite (proj2 (Z.eqb_neq c2 32) Hn2). simpl.
  rewrite H1, H2. f_equal; lia.
Qed.

Lemma int_of_digits4 (c1 c2 c3 c4 v1 v2 v3 v4 : Z) :
  decimal_value c1 v1 -> decimal_value c2 v2 ->
  decimal_value c3 v3 -> decimal_value c4 v4 ->
  int [c1; c2; c3; c4] = Return (1000 * v1 + 100 * v2 + 10 * v3 + v4).
Proof.
  intros H1 H2 H3 H4.
  pose proof (decimal_value_not_blank _ _ H1) as Hn1.
  pose proof (decimal_value_not_blank _ _ H4) as Hn4.
  apply TODECIMAL_decimal_value in H1, H2, H3, H4.
  unfold int, strip. simpl.
  rewrite (proj2 (Z.eqb_neq c1 32) Hn1). simpl.
  rewrite (proj2 (Z.eqb_neq c4 32) Hn4). simpl.
  rewrite H1, H2, H3, H4. f_equal; lia.
Qed.

End DecimalValues.

Section ReadsAndTexts.

Lemma day_reads_text (d : str) (n : Z) :
  day_reads d n -> day_text d /\ int d = Return n.
Proof.
  intros H. destruct H as [c H|c1 c2 v H1 H2|c H|c H|c H].
  - split; [now constructor|].
    rewrite (int_of_digits2 51 c 3 (c - 48));
      [f_equal; lia | apply (ascii_decimal_value 51); lia
       | apply ascii_decimal_value; lia].
  - split; [constructor; [exact H1 | apply decimal_digit_value; eauto]|].
    apply int_of_digits2; [apply ascii_decimal_value; lia | exact H2].
  - split; [now constructor|].
    rewrite (int_of_digits2 48 c 0 (c - 48));
      [f_equal; lia | apply (ascii_decimal_value 48); lia
       | apply ascii_decimal_value; lia].
  - split; [now constructor|].
    apply int_of_digit, ascii_decimal_value. lia.
  - split; [now constructor|].
    apply int_of_blank_digit, ascii_decimal_value. lia.
Qed.

Lemma day_text_reads (d : str) : day_text d -> exists n, day_reads d n.
Proof.
  intros H. destruct H as [c H|c1 c2 H1 H2|c H|c H|c H].
  - eexists. now apply day_reads_thirties.
  - apply decimal_digit_value in H2. destruct H2 as [v Hv].
    eexists. now apply (day_reads_tens c1 c2 v).
  - eexists. now apply day_reads_zero_padded.
  - eexists. now apply day_reads_one_digit.
  - eexists. now apply day_reads_blank_padded.
Qed.

Lemma day_reads_iff (d : str) (n : Z) :
  day_reads d n <-> day_text d /\ int d = Return n.
Proof.
  split; [apply day_reads_text|].
  intros [Hd Hi]. destruct (day_text_reads d Hd) as [n0 Hn0].
  destruct (day_reads_text d n0 Hn0) as [_ Hi0].
  rewrite Hi in Hi0. injection Hi0 as ->. exact Hn0.
Qed.

Lemma month_reads_text (m : str) (n : Z) :
  month_reads m n -> month_text m /\ int m = Return n.
Proof.
  intros H. destruct H as [c H|c H|c H].
  - split; [now constructor|].
    rewrite (int_of_digits2 49 c 1 (c - 48));
      [f_equal; lia | apply (ascii_decimal_value 49); lia
       | apply ascii_decimal_value; lia].
  - split; [now constructor|].
    rewrite (int_of_digits2 48 c 0 (c - 48));
      [f_equal; lia | apply (ascii_decimal_value 48); lia
       | apply ascii_decimal_value; lia].
  - split; [now constructor|].
    apply int_of_digit, ascii_decimal_value. lia.
Qed.

Lemma month_text_reads (m : str) : month_text m -> exists n, month_reads m n.
Proof.
  intros H. destruct H as [c H|c H|c H].
  - eexists. now apply month_reads_tens.
  - eexists. now apply month_reads_zero_padded.
  - eexists. now apply month_reads_one_digit.
Qed.

Lemma month_reads_iff (m : str) (n : Z) :
  month_reads m n <-> month_text m /\ int m = Return n.
Proof.
  split; [apply month_reads_text|].
  intros [Hm Hi]. destruct (month_text_reads m Hm) as [n0 Hn0].
  destruct (month_reads_text m n0 Hn0) as [_ Hi0].
  rewrite Hi in Hi0. injection Hi0 as ->. exact Hn0.
Qed.

Lemma year_reads_text (t : str) (y : Z) :
  year_reads t y -> year_text t /\ int t = Return y.
Proof.
  intros (c1 & c2 & c3 & c4 & v1 & v2 & v3 & v4 & -> & H1 & H2 & H3 & H4 & ->).
  split.
  - split; [reflexivity|].
    repeat (apply List.Forall_cons; [apply decimal_digit_value; eauto|]).
    apply List.Forall_nil.
  - now apply int_of_digits4.
Qed.

Lemma year_text_reads (t : str) : year_text t -> exists y, year_reads t y.
Proof.
  intros [Hl HF].
  destruct t as [|c1 [|c2 [|c3 [|c4 [|? ?]]]]]; try discriminate.
  apply Forall_cons in HF as [E1 HF]. apply Forall_cons in HF as [E2 HF].
  apply Forall_cons in HF as [E3 HF]. apply Forall_cons in HF as [E4 _].
  apply decimal_digit_value in E1, E2, E3, E4.
  destruct E1 as [v1 E1], E2 as [v2 E2], E3 as [v3 E3], E4 as [v4 E4].
  exists (1000 * v1 + 100 * v2 + 10 * v3 + v4), c1, c2, c3, c4, v1, v2, v3, v4.
  auto 10.
Qed.

Lemma year_reads_iff (t : str) (y : Z) :
  year_reads t y <-> year_text t /\ int t = Return y.
Proof.
  split; [apply year_reads_text|].
  intros [Ht Hi]. destruct (year_text_reads t Ht) as [y0 Hy0].
  destruct (year_reads_text t y0 Hy0) as [_ Hi0].
  rewrite Hi in Hi0. injection Hi0 as ->. exact Hy0.
Qed.

Lemma is_leap_spec (y : Z) : is_leap y = true <-> leap_year y.
Proof.
  unfold is_leap, leap_year.
  rewrite andb_true_iff, orb_true_iff, negb_true_iff, !Z.eqb_eq, Z.eqb_neq.
  reflexivity.
Qed.

Lemma month_days_spec (y m n : Z) :
  month_days y m n <-> 1 <= m <= 12 /\ n = days_in_month y m.
Proof.
  unfold month_days, days_in_month. pose proof (is_leap_spec y) as Hl.
  split.
  - intros [[Hm ->]|[[Hm ->]|[(-> & Hy & ->)|(-> & Hy & ->)]]].
    + simpl in Hm.
      destruct Hm as [<-|[<-|[<-|[<-|[<-|[<-|[<-|[]]]]]]]];
        simpl; split; (lia || reflexivity).
    + simpl in Hm.
      destruct Hm as [<-|[<-|[<-|[<-|[]]]]]; simpl; split; (lia || reflexivity).
    + apply Hl in Hy. rewrite Hy. simpl. split; [lia | reflexivity].
    + destruct (is_leap y); [exfalso; apply Hy, Hl; reflexivity|].
      simpl. split; [lia | reflexivity].
  - intros [Hm ->].
    assert (m = 1 \/ m = 2 \/ m = 3 \/ m = 4 \/ m = 5 \/ m = 6 \/ m = 7
            \/ m = 8 \/ m = 9 \/ m = 10 \/ m = 11 \/ m = 12) as Hc by lia.
    destruct Hc as [->|[->|[->|[->|[->|[->|[->|[->|[->|[->|[->| ->]]]]]]]]]]];
      simpl; try (left; split; [simpl; tauto | reflexivity]);
      try (right; left; split; [simpl; tauto | reflexivity]).
    destruct (is_leap y) eqn:E; simpl.
    + right; right; left. split; [reflexivity|]. split; [now apply Hl | reflexivity].
    + right; right; right. split; [reflexivity|]. split; [|reflexivity].
      intros Hy. apply Hl in Hy. discriminate.
Qed.

Lemma calendar_date_ok (d : date) : calendar_date d <-> date_ok d = true.
Proof.
  rewrite date_ok_spec. unfold calendar_date. split.
  - intros (Hy & n & Hn & Hd). apply month_days_spec in Hn.
    destruct Hn as [Hm ->]. auto.
  - intros (Hy & Hm & Hd). split; [exact Hy|].
    exists (days_in_month (year d) (month d)). split; [|exact Hd].
    now apply month_days_spec.
Qed.

Lemma writes_date_text (s : str) (dt : date) :
  writes_date s dt <-> birthday_text s dt.
Proof.
  unfold writes_date, birthday_text. split.
  - intros (d & m & y & Hs & Hd & Hm & Hy & Hc).
    apply day_reads_iff in Hd. apply month_reads_iff in Hm.
    apply year_reads_iff in Hy. apply calendar_date_ok in Hc.
    exists d, m, y. tauto.
  - intros (d & m & y & Hs & Hd & Hm & Hy & Hid & Him & Hiy & Hok).
    exists d, m, y. split; [exact Hs|].
    split; [now apply day_reads_iff|]. split; [now apply month_reads_iff|].
    split; [now apply year_reads_iff | now apply calendar_date_ok].
Qed.

End ReadsAndTexts.

(** C2, amended: [Birthday] accepts a text exactly when the text is a day,
    a dot, a month, a dot and a year that name a date of the calendar,
    years 1 to 9999, where the day is written 30 or 31, or 1 or 2 followed
    by one decimal digit of any script, or 01 to 09, or 1 to 9, or a blank
    and 1 to 9; the month is written 10 to 12, or 01 to 09, or 1 to 9; the
    year is written with exactly four decimal digits of any script; and
    every digit not said to be of any script is one of 0 to 9. It then
    holds that date. Every other text is rejected with the ValidationError
    that names the format DD.MM.YYYY. In particular every date of the
    calendar written in the format DD.MM.YYYY with the digits 0 to 9 is
    accepted. *)
Theorem validate_birthday_accepts (s : str) :
  (forall dt, Birthday.validate_birthday s = Return dt <-> writes_date s dt)
  /\ ((forall dt, ~ writes_date s dt) <->
        Birthday.validate_birthday s
        = Raise (ValueError "Invalid date format. Use DD.MM.YYYY"))
  /\ (forall e, Birthday.validate_birthday s = Raise e -> ValidationError e)
  /\ (forall dt, DD_MM_YYYY s dt -> Birthday.validate_birthday s = Return dt).
Proof.
  split; [|split; [|split]].
  - intros dt. rewrite writes_date_text. apply validate_birthday_Return.
  - split.
    + intros Hno.
      destruct (Birthday.validate_birthday s) as [dt|e] eqn:E.
      * exfalso. apply (Hno dt), writes_date_text, validate_birthday_Return, E.
      * apply validate_birthday_Raise in E. destruct E as [-> _]. reflexivity.
    + intros Hr dt Hw. apply writes_date_text, validate_birthday_Return in Hw.
      congruence.
  - intros e He. apply validate_birthday_Raise in He. destruct He as [-> _].
    unfold ValidationError. auto.
  - intros dt H. now apply validate_birthday_Return, DD_MM_YYYY_birthday_text.
Qed.

(** The text 15.03.1990. *)
Lemma validate_birthday_accepts_witness :
  Birthday.validate_birthday (str_of_string "15.03.1990")
  = Return (mkdate 1990 3 15).
Proof.
  exact (proj2 (proj2 (proj2 (validate_birthday_accepts
           (str_of_string "15.03.1990")))) (mkdate 1990 3 15) text_1990_03_15).
Defined.
